(** * Grindoreiro: a shallow embedding of the staged analysis pipeline

    The development follows the Python package [grindoreiro]:
    - [Pipeline]   : pipeline.py and pipeline_steps.py (stage engine, results,
                     summary),
    - [Analyzer]   : analyzer.py (string scanner and URL classifier),
    - [IsoHandler] : iso_handler.py (download and two-pass decode),
    - [Core]       : core.py (session directories and cache paths),
    - [Extractor]  : extractor.py (selection of the payload library).

    Python values are modelled as follows.  A [bytes] object is a list of
    integers in [0, 256); a [str] is a list of Unicode code points; an
    [Optional] is an [option]; a raised exception is the left summand of a
    sum; mutation of the context object is explicit state passing. *)

From Stdlib Require Import ZArith List String Ascii Bool Lia.
From stdpp Require Import base list gmap sets strings.

Local Open Scope Z_scope.

(** ** Python strings *)

Module Py.

(** A [str]: the sequence of its code points. *)
Definition str := list Z.

(** A [bytes] object: the sequence of its octets. *)
Definition bytes := list Z.

(** The code points of an ASCII literal of the program text. *)
Definition py (s : string) : str :=
  map (fun a => Z.of_N (N_of_ascii a)) (list_ascii_of_string s).

(** [bool(s)] for a [str]: non-empty. *)
Definition truthy_str (s : str) : bool :=
  match s with [] => false | _ :: _ => true end.

(** [bool(o)] for an [Optional[str]]. *)
Definition truthy_opt_str (o : option str) : bool :=
  match o with None => false | Some s => truthy_str s end.

(** [s.startswith(p)] *)
Fixpoint startswith (p s : str) : bool :=
  match p, s with
  | [], _ => true
  | _ :: _, [] => false
  | a :: p', b :: s' => (a =? b) && startswith p' s'
  end.

(** [p in s] for two [str]: [p] occurs as a contiguous substring. *)
Fixpoint contains (p s : str) : bool :=
  startswith p s ||
  match s with
  | [] => false
  | _ :: s' => contains p s'
  end.

(** An exception, reduced to the text [str(e)]. *)
Definition exn := str.

End Py.

Import Py.

(** ** pathlib

    The claims only need that paths can be joined, have a parent and a final
    component; what [/] does with separators, drives or [..] inside the right
    operand is left to the instance. *)

Class PathLib := {
  Path : Type;
  Path_eq_dec :: EqDecision Path;
  joinpath : Path -> str -> Path;      (* [p / s] *)
  parent : Path -> Path;               (* [p.parent] *)
  path_name : Path -> str;             (* [p.name] *)
}.

(** [PurePosixPath]: a path is the list of its parts, as [p.parts] gives
    them; the first part of an absolute path is its root. *)

Module PosixPath.

(** [s.split(sep)] for a separator of one character. *)
Fixpoint split (sep : Z) (s : str) : list str :=
  match s with
  | [] => [[]]
  | c :: rest =>
      if c =? sep then [] :: split sep rest
      else
        match split sep rest with
        | part :: parts => (c :: part) :: parts
        | [] => [[c]]
        end
  end.

(** The parts of a text after its root: what stands between the slashes,
    without the empty parts and the parts that are a single dot.  A part
    [..] is kept. *)
Definition parts (s : str) : list str :=
  List.filter (fun part => negb (bool_decide (part = []) || bool_decide (part = [46])))
    (split 47 s).

(** The root of a text: one slash, or two when the text starts with exactly
    two. *)
Definition root (s : str) : option str :=
  match s with
  | 47 :: 47 :: 47 :: _ => Some [47]
  | 47 :: 47 :: _ => Some [47; 47]
  | 47 :: _ => Some [47]
  | _ => None
  end.

(** [p / s]: an absolute right operand replaces the left one. *)
Definition truediv (p : list str) (s : str) : list str :=
  match root s with
  | Some r => r :: parts s
  | None => p ++ parts s
  end.

(** A right operand that names a place below the left one by itself: it is
    relative and none of its parts is [..]. *)
Definition descends (s : str) : Prop :=
  root s = None /\ py ".." ∉ parts s.

Definition is_root (part : str) : bool :=
  bool_decide (part = [47]) || bool_decide (part = [47; 47]).

(** [p.parent]: the root and the empty path are their own parents. *)
Definition parent (p : list str) : list str :=
  match p with
  | [r] => if is_root r then p else []
  | _ => removelast p
  end.

(** [p.name]: the last part, empty for a root. *)
Definition name (p : list str) : str :=
  match p with
  | [r] => if is_root r then [] else r
  | _ => List.last p []
  end.

Example truediv_empty : truediv [py "data"; py "temp"] [] = [py "data"; py "temp"].
Proof. reflexivity. Qed.

Example truediv_nested :
  truediv [py "data"; py "temp"] (py "a//b/./c/") = [py "data"; py "temp"; py "a"; py "b"; py "c"].
Proof. reflexivity. Qed.

Example truediv_dotdot :
  truediv [py "data"; py "temp"] (py "a/../b")
  = [py "data"; py "temp"; py "a"; py ".."; py "b"].
Proof. reflexivity. Qed.

Example truediv_absolute :
  truediv [py "data"; py "temp"] (py "/abs/x") = [py "/"; py "abs"; py "x"]
  /\ truediv [py "data"; py "temp"] (py "//abs/x") = [py "//"; py "abs"; py "x"]
  /\ truediv [py "data"; py "temp"] (py "///abs") = [py "/"; py "abs"].
Proof. repeat split; reflexivity. Qed.

End PosixPath.

(** The instance for evaluation: a path is the list of its parts. *)
Definition ListPath : PathLib := {|
  Path := list str;
  joinpath := PosixPath.truediv;
  parent := PosixPath.parent;
  path_name := PosixPath.name;
|}.

(** ** pipeline.py *)

Module Pipeline.

(** [class PipelineStage(Enum)] *)
Inductive PipelineStage :=
  | INITIALIZE | EXTRACT_ZIP | EXTRACT_MSI | EXTRACT_DLL
  | ANALYZE_STRINGS | ANALYZE_URLS | PROCESS_ISO | FINALIZE.

#[export] Instance PipelineStage_eq_dec : EqDecision PipelineStage.
Proof. solve_decision. Defined.

(** [class StageStatus(Enum)] *)
Inductive StageStatus := PENDING | RUNNING | COMPLETED | FAILED | SKIPPED.

#[export] Instance StageStatus_eq_dec : EqDecision StageStatus.
Proof. solve_decision. Defined.

(** The values stored in the [Dict[str, Any]] fields.  Dictionaries keep their
    insertion order, keys are the literals of the program text. *)
#[warnings="-register-all"]
Inductive value :=
  | VNone
  | VBool (b : bool)
  | VInt (z : Z)
  | VStr (s : str)
  | VList (l : list value)
  | VDict (d : list (string * value)).

Definition pydict := list (string * value).

(** [bool(d)] for an [Optional[Dict]]: [None] and the empty dictionary are
    false. *)
Definition truthy_opt_dict (o : option pydict) : bool :=
  match o with
  | None => false
  | Some [] => false
  | Some (_ :: _) => true
  end.

(** [bool(l)] for a list. *)
Definition truthy_list {A} (l : list A) : bool :=
  match l with [] => false | _ :: _ => true end.

(** Messages of the module logger, kept structured. *)
Inductive LogLevel := INFO | WARNING | ERROR.

Inductive LogMessage :=
  | StartingPipeline
  | ExecutingStep (step_name : string)
  | SkippingStep (step_name : string)
  | StepFailed (step_name : string) (error_message : option str)
  | PipelineFailed (e : exn)
  | StepMessage (text : str).

Definition LogRecord : Type := LogLevel * LogMessage.

Section WithPaths.
Context {PL : PathLib}.

(** Timestamps ([datetime]) and durations ([float] seconds) are counted in
    microseconds, the resolution of [datetime]. *)

(** [@dataclass class StageResult] *)
Record StageResult := mkStageResult {
  stage : PipelineStage;
  status : StageStatus;
  start_time : Z;
  end_time : option Z;
  duration : option Z;
  success : bool;
  error_message : option str;
  metadata : pydict;
  artifacts : list Path;
}.

(** [core.FileHash] *)
Record FileHash := mkFileHash {
  fh_path : Path;
  fh_sha256 : str;
  fh_size : Z;
  fh_modified_time : option Z;
  fh_file_type : option str;
}.

(** [@dataclass class SampleMetadata] *)
Record SampleMetadata := mkSampleMetadata {
  sample_path : Path;
  sample_name : str;
  sample_size : Z;
  sha256_hash : str;
  analysis_start : Z;
  analysis_end : option Z;
  total_duration : option Z;
  session_id : str;
  extracted_files : list pydict;
  file_hashes : list (str * FileHash);
  msi_info : option pydict;
  dll_info : option pydict;
  strings_count : Z;
  urls_found : list str;
  cnc_url : option str;
  download_url : option str;
  network_status : pydict;
  stages : list StageResult;
  threat_level : string;
  malware_family : string;
  analysis_summary : str;
}.

(** [class PipelineContext]; [logger] holds the records emitted so far on the
    module logger the context and the engine share. *)
Record PipelineContext := mkContext {
  ctx_sample_path : Path;
  ctx_session_id : str;
  temp_dir : Path;
  work_dir : option Path;
  ctx_metadata : SampleMetadata;
  stage_results : list StageResult;
  logger : list LogRecord;
}.

Definition set_metadata (ctx : PipelineContext) (m : SampleMetadata) : PipelineContext :=
  {| ctx_sample_path := ctx_sample_path ctx; ctx_session_id := ctx_session_id ctx;
     temp_dir := temp_dir ctx; work_dir := work_dir ctx;
     ctx_metadata := m;
     stage_results := stage_results ctx; logger := logger ctx |}.

Definition set_stage_results (ctx : PipelineContext) (l : list StageResult) : PipelineContext :=
  {| ctx_sample_path := ctx_sample_path ctx; ctx_session_id := ctx_session_id ctx;
     temp_dir := temp_dir ctx; work_dir := work_dir ctx;
     ctx_metadata := ctx_metadata ctx;
     stage_results := l; logger := logger ctx |}.

Definition set_stages (m : SampleMetadata) (l : list StageResult) : SampleMetadata :=
  {| sample_path := sample_path m; sample_name := sample_name m;
     sample_size := sample_size m; sha256_hash := sha256_hash m;
     analysis_start := analysis_start m; analysis_end := analysis_end m;
     total_duration := total_duration m; session_id := session_id m;
     extracted_files := extracted_files m; file_hashes := file_hashes m;
     msi_info := msi_info m; dll_info := dll_info m;
     strings_count := strings_count m; urls_found := urls_found m;
     cnc_url := cnc_url m; download_url := download_url m;
     network_status := network_status m; stages := l;
     threat_level := threat_level m; malware_family := malware_family m;
     analysis_summary := analysis_summary m |}.

Definition set_timing (m : SampleMetadata) (e : option Z) (d : option Z) : SampleMetadata :=
  {| sample_path := sample_path m; sample_name := sample_name m;
     sample_size := sample_size m; sha256_hash := sha256_hash m;
     analysis_start := analysis_start m; analysis_end := e;
     total_duration := d; session_id := session_id m;
     extracted_files := extracted_files m; file_hashes := file_hashes m;
     msi_info := msi_info m; dll_info := dll_info m;
     strings_count := strings_count m; urls_found := urls_found m;
     cnc_url := cnc_url m; download_url := download_url m;
     network_status := network_status m; stages := stages m;
     threat_level := threat_level m; malware_family := malware_family m;
     analysis_summary := analysis_summary m |}.

Definition set_assessment (m : SampleMetadata) (lvl fam : string) : SampleMetadata :=
  {| sample_path := sample_path m; sample_name := sample_name m;
     sample_size := sample_size m; sha256_hash := sha256_hash m;
     analysis_start := analysis_start m; analysis_end := analysis_end m;
     total_duration := total_duration m; session_id := session_id m;
     extracted_files := extracted_files m; file_hashes := file_hashes m;
     msi_info := msi_info m; dll_info := dll_info m;
     strings_count := strings_count m; urls_found := urls_found m;
     cnc_url := cnc_url m; download_url := download_url m;
     network_status := network_status m; stages := stages m;
     threat_level := lvl; malware_family := fam;
     analysis_summary := analysis_summary m |}.

Definition set_summary (m : SampleMetadata) (s : str) : SampleMetadata :=
  {| sample_path := sample_path m; sample_name := sample_name m;
     sample_size := sample_size m; sha256_hash := sha256_hash m;
     analysis_start := analysis_start m; analysis_end := analysis_end m;
     total_duration := total_duration m; session_id := session_id m;
     extracted_files := extracted_files m; file_hashes := file_hashes m;
     msi_info := msi_info m; dll_info := dll_info m;
     strings_count := strings_count m; urls_found := urls_found m;
     cnc_url := cnc_url m; download_url := download_url m;
     network_status := network_status m; stages := stages m;
     threat_level := threat_level m; malware_family := malware_family m;
     analysis_summary := s |}.

(** [logger.info(...)], [logger.error(...)] *)
Definition log (lvl : LogLevel) (msg : LogMessage) (ctx : PipelineContext) : PipelineContext :=
  {| ctx_sample_path := ctx_sample_path ctx; ctx_session_id := ctx_session_id ctx;
     temp_dir := temp_dir ctx; work_dir := work_dir ctx;
     ctx_metadata := ctx_metadata ctx;
     stage_results := stage_results ctx; logger := logger ctx ++ [(lvl, msg)] |}.

(** [PipelineContext.add_stage_result]: both lists receive the result. *)
Definition add_stage_result (ctx : PipelineContext) (result : StageResult) : PipelineContext :=
  let ctx1 := set_stage_results ctx (stage_results ctx ++ [result]) in
  set_metadata ctx1 (set_stages (ctx_metadata ctx1) (stages (ctx_metadata ctx1) ++ [result])).

(** [PipelineContext.get_stage_result]: the first result of that stage. *)
Definition get_stage_result (ctx : PipelineContext) (s : PipelineStage) : option StageResult :=
  List.find (fun r => bool_decide (stage r = s)) (stage_results ctx).

(** [PipelineContext.mark_completed]; [now] is the reading of the clock. *)
Definition mark_completed (now : Z) (ctx : PipelineContext) : PipelineContext :=
  let m := ctx_metadata ctx in
  set_metadata ctx (set_timing m (Some now) (Some (now - analysis_start m))).

(** [PipelineStep.create_result]; [now] is the reading of the clock, and
    [if duration:] is false for [None] and for [0.0]. *)
Definition create_result (now : Z) (stage : PipelineStage) (success : bool)
    (error_message : option str) (metadata : option pydict)
    (artifacts : option (list Path)) (duration : option Z) : StageResult :=
  let start_time := now in
  let end_time :=
    match duration with
    | Some d => if d =? 0 then start_time else start_time + d
    | None => start_time
    end in
  {| stage := stage;
     status := if success then COMPLETED else FAILED;
     start_time := start_time;
     end_time := Some end_time;
     duration := duration;
     success := success;
     error_message := error_message;
     metadata := match metadata with Some ((_ :: _) as d) => d | _ => [] end;
     artifacts := match artifacts with Some ((_ :: _) as a) => a | _ => [] end |}.

(** [class PipelineStep(ABC)]: the two abstract methods.  Either may raise;
    [execute] may change the context it is given. *)
Record PipelineStep := mkStep {
  name : string;
  can_execute : PipelineContext -> exn + bool;
  execute : PipelineContext -> PipelineContext * (exn + StageResult);
}.

(** How the [for] loop of [AnalysisPipeline.execute] is left. *)
Inductive LoopExit :=
  | Exhausted            (* the list of steps ran out *)
  | Break                (* [break] after a failed result *)
  | Raised (e : exn).    (* an exception escaped a step *)

(** The body of the [try] in [AnalysisPipeline.execute], up to the end of the
    [for] loop. *)
Fixpoint run_steps (steps : list PipelineStep) (ctx : PipelineContext)
    : PipelineContext * LoopExit :=
  match steps with
  | [] => (ctx, Exhausted)
  | step :: rest =>
      match can_execute step ctx with
      | inl e => (ctx, Raised e)
      | inr true =>
          let ctx := log INFO (ExecutingStep (name step)) ctx in
          match execute step ctx with
          | (ctx, inl e) => (ctx, Raised e)
          | (ctx, inr result) =>
              let ctx := add_stage_result ctx result in
              if negb (success result) && negb (bool_decide (stage result = PROCESS_ISO))
              then (log ERROR (StepFailed (name step) (error_message result)) ctx, Break)
              else run_steps rest ctx
          end
      | inr false => run_steps rest (log INFO (SkippingStep (name step)) ctx)
      end
  end.

(** [str(n)] for a non-negative [int]. *)
Fixpoint decimal_digits (fuel : nat) (n : Z) (acc : str) : str :=
  match fuel with
  | O => acc
  | S fuel' =>
      let acc' := (48 + n mod 10) :: acc in
      if n <? 10 then acc' else decimal_digits fuel' (n / 10) acc'
  end.

Definition str_of_int (n : Z) : str :=
  if n <? 0 then py "-" ++ decimal_digits (Z.to_nat (- n)) (- n) []
  else decimal_digits (S (Z.to_nat n)) n [].

(** [" | ".join(parts)] *)
Fixpoint join (sep : str) (parts : list str) : str :=
  match parts with
  | [] => []
  | [p] => p
  | p :: rest => p ++ sep ++ join sep rest
  end.

Section Summary.

(** [f"{x:.1f}"] for a duration: the formatting of floats is the language's. *)
Variable format_1f : Z -> str.

(** [AnalysisPipeline._generate_summary].  Formatting a [total_duration] that
    is still [None] raises [TypeError]; the assessment is already assigned
    when that happens. *)
Definition AnalysisPipeline_generate_summary (ctx : PipelineContext)
    : PipelineContext * option exn :=
  let metadata := ctx_metadata ctx in
  let successful_stages := List.length (List.filter success (stages metadata)) in
  let metadata :=
    if truthy_opt_dict (dll_info metadata) && truthy_list (urls_found metadata)
    then set_assessment metadata "high" "Grandoreiro"
    else if truthy_list (urls_found metadata)
    then set_assessment metadata "medium" "Suspicious"
    else set_assessment metadata "low" "Unknown" in
  match total_duration metadata with
  | None =>
      (set_metadata ctx metadata,
       Some (py "unsupported format string passed to NoneType.__format__"))
  | Some d =>
      let summary_parts :=
        [ py "Analysis completed in " ++ format_1f d ++ py "s";
          str_of_int (Z.of_nat successful_stages) ++ py "/" ++
            str_of_int (Z.of_nat (List.length (stages metadata))) ++ py " stages successful";
          py "Threat level: " ++ py (threat_level metadata);
          py "Malware family: " ++ py (malware_family metadata) ] in
      let summary_parts :=
        match cnc_url metadata with
        | Some ((_ :: _) as u) => summary_parts ++ [py "C&C server identified: " ++ u]
        | _ => summary_parts
        end in
      (set_metadata ctx (set_summary metadata (join (py " | ") summary_parts)), None)
  end.

(** The [except Exception as e] handler of [AnalysisPipeline.execute]. *)
Definition pipeline_failed (ctx : PipelineContext) (e : exn) : PipelineContext :=
  let ctx := log ERROR (PipelineFailed e) ctx in
  set_metadata ctx (set_summary (ctx_metadata ctx) (py "Pipeline failed: " ++ e)).

(** [AnalysisPipeline.execute]: the context after the call; the value
    returned is its [ctx_metadata]. *)
Definition AnalysisPipeline_run (steps : list PipelineStep) (now : Z)
    (context : PipelineContext) : PipelineContext :=
  let ctx := log INFO StartingPipeline context in
  match run_steps steps ctx with
  | (ctx, Raised e) => pipeline_failed ctx e
  | (ctx, _) =>
      match AnalysisPipeline_generate_summary (mark_completed now ctx) with
      | (ctx, None) => ctx
      | (ctx, Some e) => pipeline_failed ctx e
      end
  end.

Definition AnalysisPipeline_execute (steps : list PipelineStep) (now : Z)
    (context : PipelineContext) : SampleMetadata :=
  ctx_metadata (AnalysisPipeline_run steps now context).

End Summary.

(** *** pipeline_steps.py *)

(** [PipelineContext.__init__]: the session id, the session directory, the
    size and hash of the sample and the clock are read from the world; both
    stage lists start empty. *)
Definition PipelineContext_init (sample_path : Path) (session_id : str)
    (temp_dir : Path) (sample_size : Z) (sample_hash : str)
    (sample_file_hash : FileHash) (now : Z) : PipelineContext :=
  {| ctx_sample_path := sample_path;
     ctx_session_id := session_id;
     temp_dir := temp_dir;
     work_dir := None;
     ctx_metadata :=
       {| sample_path := sample_path; sample_name := path_name sample_path;
          sample_size := sample_size; sha256_hash := sample_hash;
          analysis_start := now; analysis_end := None; total_duration := None;
          session_id := session_id;
          extracted_files := []; file_hashes := [(py "sample", sample_file_hash)];
          msi_info := None; dll_info := None;
          strings_count := 0; urls_found := []; cnc_url := None; download_url := None;
          network_status := []; stages := [];
          threat_level := "unknown"; malware_family := "unknown";
          analysis_summary := [] |};
     stage_results := [];
     logger := [] |}.

(** What the [try] block of a concrete step writes into the context: the
    fields the steps of pipeline_steps.py assign ([None]: left alone). *)
Record Writes := mkWrites {
  w_work_dir : option Path;
  w_extracted_files : option (list pydict);
  w_file_hashes : option (list (str * FileHash));
  w_msi_info : option pydict;
  w_dll_info : option pydict;
  w_strings_count : option Z;
  w_urls_found : option (list str);
  w_cnc_url : option str;
  w_download_url : option str;
  w_network_status : option pydict;
}.

Definition apply_writes (w : Writes) (ctx : PipelineContext) : PipelineContext :=
  let m := ctx_metadata ctx in
  {| ctx_sample_path := ctx_sample_path ctx; ctx_session_id := ctx_session_id ctx;
     temp_dir := temp_dir ctx;
     work_dir := match w_work_dir w with Some d => Some d | None => work_dir ctx end;
     ctx_metadata :=
       {| sample_path := sample_path m; sample_name := sample_name m;
          sample_size := sample_size m; sha256_hash := sha256_hash m;
          analysis_start := analysis_start m; analysis_end := analysis_end m;
          total_duration := total_duration m; session_id := session_id m;
          extracted_files := default (extracted_files m) (w_extracted_files w);
          file_hashes := default (file_hashes m) (w_file_hashes w);
          msi_info := match w_msi_info w with Some i => Some i | None => msi_info m end;
          dll_info := match w_dll_info w with Some i => Some i | None => dll_info m end;
          strings_count := default (strings_count m) (w_strings_count w);
          urls_found := default (urls_found m) (w_urls_found w);
          cnc_url := match w_cnc_url w with Some u => Some u | None => cnc_url m end;
          download_url :=
            match w_download_url w with Some u => Some u | None => download_url m end;
          network_status := default (network_status m) (w_network_status w);
          stages := stages m;
          threat_level := threat_level m; malware_family := malware_family m;
          analysis_summary := analysis_summary m |};
     stage_results := stage_results ctx;
     logger := logger ctx |}.

(** One run of the [try] block of a concrete step against the world (file
    system, external tool, network, clock): the fields written before it
    returned or raised, the metadata and artifacts handed to [create_result]
    or the exception caught, the measured [duration] and the clock reading
    taken by [create_result]. *)
Record TryBlock := mkTryBlock {
  tb_writes : Writes;
  tb_outcome : exn + (pydict * option (list Path));
  tb_duration : Z;
  tb_now : Z;
}.

Section Steps.

(** The world the steps run in. *)
Variable world : PipelineStage -> PipelineContext -> TryBlock.

(** The common shape of every [execute] of pipeline_steps.py:
    [try: ...; return self.create_result(STAGE, success=True, ...)]
    [except Exception as e: logger.error(...); return self.create_result(STAGE,
    success=False, error_message=str(e), duration=duration)]. *)
Definition step_execute (stg : PipelineStage) (failure : str) (ctx : PipelineContext)
    : PipelineContext * (exn + StageResult) :=
  let tb := world stg ctx in
  let ctx := apply_writes (tb_writes tb) ctx in
  match tb_outcome tb with
  | inr (metadata, artifacts) =>
      (ctx, inr (create_result (tb_now tb) stg true None (Some metadata) artifacts
                   (Some (tb_duration tb))))
  | inl e =>
      (log ERROR (StepMessage (failure ++ e)) ctx,
       inr (create_result (tb_now tb) stg false (Some e) None None
              (Some (tb_duration tb))))
  end.

(** [r and r.success] for the result of [get_stage_result]. *)
Definition stage_succeeded (ctx : PipelineContext) (s : PipelineStage) : bool :=
  match get_stage_result ctx s with
  | Some r => success r
  | None => false
  end.

Definition InitializeStep : PipelineStep :=
  {| name := "initialize";
     can_execute := fun _ => inr true;
     execute := step_execute INITIALIZE (py "Initialization failed: ") |}.

Definition ExtractZipStep : PipelineStep :=
  {| name := "extract_zip";
     can_execute := fun ctx => inr (stage_succeeded ctx INITIALIZE);
     execute := step_execute EXTRACT_ZIP (py "ZIP extraction failed: ") |}.

Definition ExtractMsiStep : PipelineStep :=
  {| name := "extract_msi";
     can_execute := fun ctx => inr (stage_succeeded ctx EXTRACT_ZIP);
     execute := step_execute EXTRACT_MSI (py "MSI extraction failed: ") |}.

Definition ExtractDllStep : PipelineStep :=
  {| name := "extract_dll";
     can_execute := fun ctx => inr (stage_succeeded ctx EXTRACT_MSI);
     execute := step_execute EXTRACT_DLL (py "DLL extraction failed: ") |}.

Definition AnalyzeStringsStep : PipelineStep :=
  {| name := "analyze_strings";
     can_execute := fun ctx => inr (stage_succeeded ctx EXTRACT_DLL);
     execute := step_execute ANALYZE_STRINGS (py "String analysis failed: ") |}.

Definition AnalyzeUrlsStep : PipelineStep :=
  {| name := "analyze_urls";
     can_execute := fun ctx => inr (stage_succeeded ctx ANALYZE_STRINGS);
     execute := step_execute ANALYZE_URLS (py "URL analysis failed: ") |}.

Definition ProcessIsoStep : PipelineStep :=
  {| name := "process_iso";
     can_execute := fun ctx =>
       inr (stage_succeeded ctx ANALYZE_URLS
            && truthy_opt_str (download_url (ctx_metadata ctx)));
     execute := step_execute PROCESS_ISO (py "ISO processing failed: ") |}.

Definition FinalizeStep : PipelineStep :=
  {| name := "finalize";
     can_execute := fun _ => inr true;
     execute := step_execute FINALIZE (py "Finalization failed: ") |}.

(** [GrandoreiroProcessor._setup_pipeline] *)
Definition setup_pipeline : list PipelineStep :=
  [ InitializeStep; ExtractZipStep; ExtractMsiStep; ExtractDllStep;
    AnalyzeStringsStep; AnalyzeUrlsStep; ProcessIsoStep; FinalizeStep ].

End Steps.

(** *** Properties of the stage engine *)

Section EngineFacts.

Variable format_1f : Z -> str.

Lemma stage_results_add ctx r :
  stage_results (add_stage_result ctx r) = stage_results ctx ++ [r].
Proof. reflexivity. Qed.

Lemma stages_add ctx r :
  stages (ctx_metadata (add_stage_result ctx r)) = stages (ctx_metadata ctx) ++ [r].
Proof. reflexivity. Qed.

(** The loop walks the list front to back: running [a ++ b] is running [a]
    and, when [a] ran out without [break] or exception, running [b] on the
    context [a] left. *)
Lemma run_steps_app (a b : list PipelineStep) (ctx : PipelineContext) :
  run_steps (a ++ b) ctx =
  match run_steps a ctx with
  | (ctx', Exhausted) => run_steps b ctx'
  | other => other
  end.
Proof.
  revert ctx. induction a as [|step a IH]; intros ctx; simpl.
  - reflexivity.
  - destruct (can_execute step ctx) as [e|[|]]; try reflexivity.
    + destruct (execute step _) as [ctx' [e|r]]; try reflexivity.
      destruct (negb (success r) && _); [reflexivity | apply IH].
    + apply IH.
Qed.

(** Neither the closing of the timing nor the summary touches the history. *)
Lemma generate_summary_stages ctx :
  stages (ctx_metadata (fst (AnalysisPipeline_generate_summary format_1f ctx)))
  = stages (ctx_metadata ctx)
  /\ stage_results (fst (AnalysisPipeline_generate_summary format_1f ctx))
     = stage_results ctx.
Proof.
  unfold AnalysisPipeline_generate_summary.
  destruct (truthy_opt_dict (dll_info (ctx_metadata ctx))),
    (truthy_list (urls_found (ctx_metadata ctx))); simpl;
    destruct (total_duration (ctx_metadata ctx)); simpl;
    try destruct (cnc_url (ctx_metadata ctx)) as [[|]|]; simpl; auto.
Qed.

Lemma run_history (steps : list PipelineStep) now context ctx x :
  run_steps steps (log INFO StartingPipeline context) = (ctx, x) ->
  stages (ctx_metadata (AnalysisPipeline_run format_1f steps now context))
    = stages (ctx_metadata ctx)
  /\ stage_results (AnalysisPipeline_run format_1f steps now context)
    = stage_results ctx.
Proof.
  intros Hrun. unfold AnalysisPipeline_run. rewrite Hrun.
  pose proof (generate_summary_stages (mark_completed now ctx)) as [H1 H2].
  destruct x; try (destruct (AnalysisPipeline_generate_summary _ _) as [c [e|]];
    simpl in *; auto); simpl; auto.
Qed.

(** C1. [AnalysisPipeline.execute] takes the steps in insertion order.  When
    the steps before [s] ran out normally and [s] is executed and returns a
    result [r] with [success = False]: if the stage of [r] is not
    [PROCESS_ISO], [r] is appended, the loop is left by [break], both
    recorded histories end with [r], and the run does not depend on the steps
    after [s] (none of them is attempted); if the stage of [r] is
    [PROCESS_ISO], the loop goes on with the steps after [s]. *)
Theorem execute_fail_fast_except_process_iso
    (pre post : list PipelineStep) (s : PipelineStep) (now : Z)
    (context ctx1 ctx2 : PipelineContext) (r : StageResult) :
  run_steps pre (log INFO StartingPipeline context) = (ctx1, Exhausted) ->
  can_execute s ctx1 = inr true ->
  execute s (log INFO (ExecutingStep (name s)) ctx1) = (ctx2, inr r) ->
  success r = false ->
  (stage r <> PROCESS_ISO ->
     run_steps (pre ++ s :: post) (log INFO StartingPipeline context)
       = (log ERROR (StepFailed (name s) (error_message r)) (add_stage_result ctx2 r),
          Break)
     /\ last (stages (AnalysisPipeline_execute format_1f (pre ++ s :: post) now context))
          = Some r
     /\ last (stage_results (AnalysisPipeline_run format_1f (pre ++ s :: post) now context))
          = Some r
     /\ forall post',
          AnalysisPipeline_run format_1f (pre ++ s :: post') now context
          = AnalysisPipeline_run format_1f (pre ++ s :: post) now context)
  /\ (stage r = PROCESS_ISO ->
     run_steps (pre ++ s :: post) (log INFO StartingPipeline context)
       = run_steps post (add_stage_result ctx2 r)).
Proof.
  intros Hpre Hcan Hexec Hfail.
  assert (Hstep : forall tl,
    run_steps (pre ++ s :: tl) (log INFO StartingPipeline context) =
    if negb (success r) && negb (bool_decide (stage r = PROCESS_ISO))
    then (log ERROR (StepFailed (name s) (error_message r)) (add_stage_result ctx2 r), Break)
    else run_steps tl (add_stage_result ctx2 r)).
  { intros tl. rewrite run_steps_app, Hpre. simpl. rewrite Hcan, Hexec. reflexivity. }
  rewrite Hfail in Hstep. simpl in Hstep. split.
  - intros Hne.
    assert (Hbrk : forall tl,
      run_steps (pre ++ s :: tl) (log INFO StartingPipeline context) =
      (log ERROR (StepFailed (name s) (error_message r)) (add_stage_result ctx2 r), Break)).
    { intros tl. rewrite Hstep. rewrite bool_decide_eq_false_2 by exact Hne. reflexivity. }
    split; [apply Hbrk|].
    destruct (run_history (pre ++ s :: post) now context _ _ (Hbrk post)) as [H1 H2].
    unfold AnalysisPipeline_execute. rewrite H1, H2. simpl.
    repeat split; try apply last_snoc.
    intros post'. unfold AnalysisPipeline_run. rewrite !Hbrk. reflexivity.
  - intros Heq. rewrite Hstep. rewrite bool_decide_eq_true_2 by exact Heq. reflexivity.
Qed.

(** C4. The assessment [_generate_summary] assigns is a function of
    [dll_info] and [urls_found] alone: high / Grandoreiro exactly when
    [dll_info] is set (holds a non-empty dictionary, which is what
    [if metadata.dll_info] tests) and [urls_found] is non-empty; medium /
    Suspicious exactly when [dll_info] is not set and [urls_found] is
    non-empty; low / Unknown exactly when [urls_found] is empty. *)
Theorem generate_summary_threat_level (ctx : PipelineContext) :
  let m := ctx_metadata ctx in
  let m' := ctx_metadata (fst (AnalysisPipeline_generate_summary format_1f ctx)) in
  ((threat_level m' = "high"%string /\ malware_family m' = "Grandoreiro"%string)
     <-> (truthy_opt_dict (dll_info m) = true /\ urls_found m <> []))
  /\ ((threat_level m' = "medium"%string /\ malware_family m' = "Suspicious"%string)
     <-> (truthy_opt_dict (dll_info m) = false /\ urls_found m <> []))
  /\ ((threat_level m' = "low"%string /\ malware_family m' = "Unknown"%string)
     <-> urls_found m = [])
  /\ dll_info m' = dll_info m /\ urls_found m' = urls_found m.
Proof.
  unfold AnalysisPipeline_generate_summary.
  destruct (truthy_opt_dict (dll_info (ctx_metadata ctx))) eqn:Hd,
    (urls_found (ctx_metadata ctx)) as [|u us] eqn:Hu; simpl;
    destruct (total_duration (ctx_metadata ctx)); simpl;
    try destruct (cnc_url (ctx_metadata ctx)) as [[|]|]; simpl;
    intuition (try discriminate; try congruence).
Qed.

(** The assessment reached by two contexts that agree on [dll_info] and
    [urls_found] is the same. *)
Lemma generate_summary_deterministic (ctx ctx' : PipelineContext) :
  dll_info (ctx_metadata ctx) = dll_info (ctx_metadata ctx') ->
  urls_found (ctx_metadata ctx) = urls_found (ctx_metadata ctx') ->
  let m1 := ctx_metadata (fst (AnalysisPipeline_generate_summary format_1f ctx)) in
  let m2 := ctx_metadata (fst (AnalysisPipeline_generate_summary format_1f ctx')) in
  threat_level m1 = threat_level m2 /\ malware_family m1 = malware_family m2.
Proof.
  intros Hd Hu. unfold AnalysisPipeline_generate_summary. rewrite Hd, Hu.
  destruct (truthy_opt_dict _), (truthy_list _); simpl;
    destruct (total_duration (ctx_metadata ctx)),
             (total_duration (ctx_metadata ctx')); simpl;
    try destruct (cnc_url (ctx_metadata ctx)) as [[|]|];
    try destruct (cnc_url (ctx_metadata ctx')) as [[|]|]; simpl; auto.
Qed.

(** *** The status of recorded results *)

(** What [create_result] guarantees about a result. *)
Definition status_from_success (r : StageResult) : Prop :=
  (status r = COMPLETED <-> success r = true)
  /\ (status r = FAILED <-> success r = false)
  /\ status r <> PENDING /\ status r <> RUNNING /\ status r <> SKIPPED.

Lemma create_result_status now stg ok err md arts dur :
  status_from_success (create_result now stg ok err md arts dur).
Proof. unfold status_from_success. destruct ok; simpl; repeat split; congruence. Qed.

(** A step that builds every result it returns with [create_result] and
    leaves the two recorded histories as it found them. *)
Definition disciplined (s : PipelineStep) : Prop :=
  forall ctx ctx' out,
    execute s ctx = (ctx', out) ->
    stage_results ctx' = stage_results ctx
    /\ stages (ctx_metadata ctx') = stages (ctx_metadata ctx)
    /\ forall r, out = inr r -> status_from_success r.

(** With such steps the loop only appends, the same results to both
    histories, each with a status that follows its success flag. *)
Lemma run_steps_appends (steps : list PipelineStep) :
  Forall disciplined steps ->
  forall ctx, exists added,
    stage_results (fst (run_steps steps ctx)) = stage_results ctx ++ added
    /\ stages (ctx_metadata (fst (run_steps steps ctx)))
       = stages (ctx_metadata ctx) ++ added
    /\ Forall status_from_success added.
Proof.
  induction 1 as [|s steps Hs _ IH]; intros ctx; simpl.
  - exists []. rewrite !app_nil_r. auto.
  - destruct (can_execute s ctx) as [e|[|]]; simpl.
    + exists []. rewrite !app_nil_r. auto.
    + destruct (execute s _) as [ctx' out] eqn:Hexec.
      destruct (Hs _ _ _ Hexec) as (H1 & H2 & Hres). simpl in H1, H2.
      destruct out as [e|r]; simpl.
      * exists []. rewrite !app_nil_r. auto.
      * pose proof (Hres r eq_refl) as Hr.
        destruct (negb (success r) && _); simpl.
        -- exists [r]. rewrite H1, H2. auto.
        -- destruct (IH (add_stage_result ctx' r)) as (added & E1 & E2 & Hall).
           exists (r :: added). rewrite E1, E2. simpl.
           rewrite H1, H2, <- !app_assoc. auto.
    + destruct (IH (log INFO (SkippingStep (name s)) ctx)) as (added & E1 & E2 & Hall).
      exists added. auto.
Qed.

(** A step that is executed and returns a result leaves it in the history,
    whatever follows. *)
Lemma run_steps_first_recorded (s : PipelineStep) (rest : list PipelineStep) ctx ctx' r :
  Forall disciplined rest ->
  can_execute s ctx = inr true ->
  execute s (log INFO (ExecutingStep (name s)) ctx) = (ctx', inr r) ->
  exists added,
    stage_results (fst (run_steps (s :: rest) ctx)) = stage_results ctx' ++ r :: added
    /\ stages (ctx_metadata (fst (run_steps (s :: rest) ctx)))
       = stages (ctx_metadata ctx') ++ r :: added.
Proof.
  intros Hrest Hcan Hexec. simpl. rewrite Hcan, Hexec.
  destruct (negb (success r) && _); simpl.
  - exists []. auto.
  - destruct (run_steps_appends rest Hrest (add_stage_result ctx' r))
      as (added & E1 & E2 & _).
    exists added. rewrite E1, E2. simpl. rewrite <- !app_assoc. auto.
Qed.

Section StandardPipeline.

Variable world : PipelineStage -> PipelineContext -> TryBlock.

Lemma step_execute_disciplined stg failure name can :
  disciplined {| name := name; can_execute := can;
                 execute := step_execute world stg failure |}.
Proof.
  intros ctx ctx' out. unfold step_execute; simpl.
  destruct (tb_outcome (world stg ctx)) as [e|[md arts]]; intros [= <- <-];
    (split; [reflexivity | split; [reflexivity |]]);
    intros r [= <-]; apply create_result_status.
Qed.

Lemma setup_pipeline_disciplined : Forall disciplined (setup_pipeline world).
Proof.
  unfold setup_pipeline.
  repeat (apply Forall_cons_2; [apply step_execute_disciplined|]).
  apply Forall_nil_2.
Qed.

Lemma step_execute_returns stg failure ctx :
  exists r, snd (step_execute world stg failure ctx) = inr r.
Proof.
  unfold step_execute. destruct (tb_outcome _) as [e|[md arts]]; simpl; eauto.
Qed.

(** C10. In a run of the pipeline [_setup_pipeline] builds, started on a
    fresh context, every recorded result has status COMPLETED exactly when
    its success flag is true and FAILED exactly when it is false, and never
    PENDING, RUNNING or SKIPPED; the history is not empty (the initialize
    step always executes). *)
Theorem recorded_status_follows_success
    (sample_path : Path) (session_id : str) (temp : Path) (size : Z)
    (hash : str) (fh : FileHash) (start now : Z) :
  let ctx := AnalysisPipeline_run format_1f (setup_pipeline world) now
               (PipelineContext_init sample_path session_id temp size hash fh start) in
  Forall status_from_success (stages (ctx_metadata ctx))
  /\ Forall status_from_success (stage_results ctx)
  /\ stages (ctx_metadata ctx) <> []
  /\ stage_results ctx <> [].
Proof.
  intros ctx. subst ctx.
  set (c0 := PipelineContext_init _ _ _ _ _ _ _).
  destruct (run_steps (setup_pipeline world) (log INFO StartingPipeline c0))
    as [c x] eqn:Hrun.
  destruct (run_history (setup_pipeline world) now c0 _ _ Hrun) as [-> ->].
  destruct (run_steps_appends _ setup_pipeline_disciplined
              (log INFO StartingPipeline c0)) as (added & E1 & E2 & Hall).
  rewrite Hrun in E1, E2. simpl in E1, E2. rewrite E1, E2.
  assert (Hne : added <> []).
  { pose proof setup_pipeline_disciplined as Hd.
    unfold setup_pipeline in Hd, Hrun. apply Forall_cons_1 in Hd as [_ Hd].
    destruct (step_execute world INITIALIZE (py "Initialization failed: ")
                (log INFO (ExecutingStep "initialize") (log INFO StartingPipeline c0)))
      as [c1 out] eqn:Hexec.
    destruct (step_execute_returns INITIALIZE (py "Initialization failed: ")
                (log INFO (ExecutingStep "initialize") (log INFO StartingPipeline c0)))
      as [r Hr].
    rewrite Hexec in Hr. simpl in Hr. subst out.
    destruct (run_steps_first_recorded (InitializeStep world) _
                (log INFO StartingPipeline c0) c1 r Hd eq_refl Hexec)
      as (more & F1 & _).
    pose proof (step_execute_disciplined INITIALIZE (py "Initialization failed: ")
                  "initialize" (fun _ => inr true) _ _ _ Hexec) as (K1 & _ & _).
    rewrite Hrun in F1. simpl in F1.
    rewrite K1 in F1. simpl in F1. rewrite F1 in E1.
    intros ->. discriminate E1. }
  repeat split; try assumption.
Qed.

End StandardPipeline.

End EngineFacts.

End WithPaths.

(** *** A three-step pipeline: A succeeds, B fails, C *)

Definition demo_step (n : string) (stg : PipelineStage) (ok : bool)
    : PipelineStep (PL := ListPath) :=
  {| name := n;
     can_execute := fun _ => inr true;
     execute := fun ctx => (ctx, inr (create_result 0 stg ok None None None None)) |}.

Definition demo_context : PipelineContext (PL := ListPath) :=
  PipelineContext_init (PL := ListPath) [py "sample.zip"] (py "session_0") [py "temp"]
    0 [] (mkFileHash (PL := ListPath) [py "sample.zip"] [] 0 None None) 0.

Definition demo_format (d : Z) : str := py "0.0".

Definition demo_A := demo_step "A" INITIALIZE true.
Definition demo_B := demo_step "B" EXTRACT_ZIP false.
Definition demo_B_tolerant := demo_step "B" PROCESS_ISO false.
Definition demo_C := demo_step "C" FINALIZE true.

(** The history of [A succeeds, B fails, C] has exactly the two entries of A
    and B. *)
Example demo_history_stops :
  map (fun r => (stage r, status r))
      (stages (AnalysisPipeline_execute demo_format [demo_A; demo_B; demo_C] 7 demo_context))
  = [(INITIALIZE, COMPLETED); (EXTRACT_ZIP, FAILED)].
Proof. reflexivity. Qed.

(** With B reporting the fault-tolerant stage, C still executes. *)
Example demo_history_tolerant :
  map (fun r => (stage r, status r))
      (stages (AnalysisPipeline_execute demo_format
                 [demo_A; demo_B_tolerant; demo_C] 7 demo_context))
  = [(INITIALIZE, COMPLETED); (PROCESS_ISO, FAILED); (FINALIZE, COMPLETED)].
Proof. reflexivity. Qed.

Example demo_summary :
  analysis_summary (AnalysisPipeline_execute demo_format [demo_A; demo_B; demo_C] 7
                      demo_context)
  = py "Analysis completed in 0.0s | 1/2 stages successful | Threat level: low | Malware family: Unknown".
Proof. reflexivity. Qed.

Example demo_str_of_int : str_of_int 1204 = py "1204".
Proof. reflexivity. Qed.

Lemma execute_fail_fast_witness :
  last (stages (AnalysisPipeline_execute demo_format
                  ([demo_A] ++ demo_B :: [demo_C]) 7 demo_context))
  = Some (create_result 0 EXTRACT_ZIP false None None None None).
Proof.
  destruct (execute_fail_fast_except_process_iso demo_format
              [demo_A] [demo_C] demo_B 7 demo_context
              (fst (run_steps [demo_A] (log INFO StartingPipeline demo_context)))
              (log INFO (ExecutingStep "B")
                 (fst (run_steps [demo_A] (log INFO StartingPipeline demo_context))))
              (create_result 0 EXTRACT_ZIP false None None None None)
              eq_refl eq_refl eq_refl eq_refl) as [Hstop _].
  destruct Hstop as (_ & Hlast & _); [discriminate | exact Hlast].
Defined.

End Pipeline.

(** ** analyzer.py *)

Module Analyzer.

(** The character set shared by [ascii_chars] and [unicode_chars]:
    [A-Za-z0-9+/=\-:. ,_$%'()[\]<> ]. *)
Definition in_charset (c : Z) : bool :=
  ((65 <=? c) && (c <=? 90)) || ((97 <=? c) && (c <=? 122))
  || ((48 <=? c) && (c <=? 57))
  || bool_decide (c ∈ [43; 47; 61; 45; 58; 46; 32; 44; 95; 36; 37; 39;
                       40; 41; 91; 93; 60; 62]).

(** [pattern.findall(data)] for the pattern [[chars]{n,}]: the maximal runs
    of set characters of length at least [n], left to right.  [acc] holds the
    current run, last character first.  For [n = 0] the pattern also matches
    the empty string wherever a run ends. *)
Definition emit (n : nat) (acc : list Z) : list (list Z) :=
  (if bool_decide (acc <> []) && (n <=? List.length acc)%nat then [rev acc] else [])
  ++ (if (n =? 0)%nat then [[]] else []).

Fixpoint findall_from (n : nat) (acc : list Z) (data : list Z) : list (list Z) :=
  match data with
  | [] => emit n acc
  | c :: rest =>
      if in_charset c then findall_from n (c :: acc) rest
      else emit n acc ++ findall_from n [] rest
  end.

Definition findall (n : nat) (data : list Z) : list (list Z) :=
  findall_from n [] data.

(** [str.isspace] for one character. *)
Definition is_space (c : Z) : bool :=
  ((9 <=? c) && (c <=? 13)) || ((28 <=? c) && (c <=? 32))
  || bool_decide (c ∈ [133; 160; 5760; 8232; 8233; 8239; 8287; 12288])
  || ((8192 <=? c) && (c <=? 8202)).

(** [s.lstrip()], [s.rstrip()], [s.strip()] *)
Fixpoint lstrip (s : str) : str :=
  match s with
  | c :: s' => if is_space c then lstrip s' else s
  | [] => []
  end.

Definition rstrip (s : str) : str := rev (lstrip (rev s)).

Definition strip (s : str) : str := rstrip (lstrip s).

(** [list(dict.fromkeys(strings))]: the first occurrence of each key, in
    order; [seen] are the keys already in the dictionary. *)
Fixpoint fromkeys_from (seen : list str) (strings : list str) : list str :=
  match strings with
  | [] => []
  | s :: rest =>
      if bool_decide (s ∈ seen) then fromkeys_from seen rest
      else s :: fromkeys_from (s :: seen) rest
  end.

Definition fromkeys (strings : list str) : list str := fromkeys_from [] strings.

Section StringExtractor.

(** [data.decode('utf-16', errors='ignore')]: the codec is the language's. *)
Variable decode_utf16_ignore : bytes -> str.

(** [StringExtractor.min_length], a count of characters. *)
Variable min_length : nat.

(** The strings collected from the bytes of the file, before the output file
    is written: the ASCII matches, then the matches in the UTF-16 text, each
    stripped and kept when not empty, then without duplicates. *)
Definition collect_strings (data : bytes) : list str :=
  let strings :=
    List.filter truthy_str (map strip (findall min_length data)) in
  let utf16_data := decode_utf16_ignore data in
  let strings :=
    strings ++ List.filter truthy_str (map strip (findall min_length utf16_data)) in
  fromkeys strings.

(** [StringExtractor.extract_strings]: [read] is what opening and reading
    [file_path] gives, [write] what writing the lines to [output_path] gives;
    every exception is logged and raised again. *)
Definition extract_strings (read : exn + bytes) (write : list str -> option exn)
    : exn + list str :=
  match read with
  | inl e => inl e
  | inr data =>
      let unique_strings := collect_strings data in
      match write unique_strings with
      | Some e => inl e
      | None => inr unique_strings
      end
  end.

End StringExtractor.

Section URLAnalyzer.

(** [str.lower], from the Unicode tables of the language. *)
Variable lower : str -> str.

(** [for url in urls] walks the set in its iteration order, given as the list
    [urls]. *)
Definition find_cnc_url (urls : list str) : option str :=
  List.find (fun url => contains (py "5050/index.php") url) urls.

Definition find_download_url (urls : list str) (pattern : str) : option str :=
  List.find (fun url => contains (lower pattern) (lower url)) urls.

End URLAnalyzer.

(** [str.lower] on ASCII text, for evaluation. *)
Definition ascii_lower (s : str) : str :=
  map (fun c => if (65 <=? c) && (c <=? 90) then c + 32 else c) s.

(** *** Properties of the scanner *)

Lemma fromkeys_from_spec (strings seen : list str) :
  NoDup (fromkeys_from seen strings)
  /\ forall x, x ∈ fromkeys_from seen strings <-> x ∈ strings /\ x ∉ seen.
Proof.
  revert seen. induction strings as [|s rest IH]; intros seen; simpl.
  - split; [constructor|]. intros x. rewrite elem_of_nil. tauto.
  - case_bool_decide as Hs.
    + destruct (IH seen) as [Hnd Hin]. split; [exact Hnd|].
      intros x. rewrite Hin, elem_of_cons. split; [tauto|].
      intros [[->|Hx] Hn]; [contradiction | tauto].
    + destruct (IH (s :: seen)) as [Hnd Hin]. split.
      * constructor; [|exact Hnd]. rewrite Hin, elem_of_cons. tauto.
      * intros x. rewrite !elem_of_cons, Hin, elem_of_cons.
        destruct (decide (x = s)) as [->|Hne]; tauto.
Qed.

(** The result of [dict.fromkeys] has no duplicates and the same members. *)
Lemma fromkeys_NoDup (strings : list str) : NoDup (fromkeys strings).
Proof. apply fromkeys_from_spec. Qed.


Lemma fromkeys_from_ext (strings seen seen' : list str) :
  (forall x, x ∈ seen <-> x ∈ seen') ->
  fromkeys_from seen strings = fromkeys_from seen' strings.
Proof.
  revert seen seen'. induction strings as [|s rest IH]; intros seen seen' Hext; simpl.
  - reflexivity.
  - rewrite (bool_decide_ext _ _ (Hext s)). case_bool_decide.
    + apply IH, Hext.
    + f_equal. apply IH. intros x. rewrite !elem_of_cons, Hext. tauto.
Qed.

Lemma fromkeys_from_seen (strings seen : list str) (s : str) :
  fromkeys_from (s :: seen) strings
  = fromkeys_from seen (List.filter (fun x => negb (bool_decide (x = s))) strings).
Proof.
  revert seen. induction strings as [|x rest IH]; intros seen; simpl; [reflexivity|].
  destruct (decide (x = s)) as [->|Hne].
  - rewrite (bool_decide_eq_true_2 (s ∈ s :: seen)) by (left).
    rewrite (bool_decide_eq_true_2 (s = s)) by reflexivity. simpl. apply IH.
  - rewrite (bool_decide_eq_false_2 (x = s)) by exact Hne. simpl.
    destruct (decide (x ∈ seen)) as [Hin|Hnin].
    + rewrite !bool_decide_eq_true_2; [apply IH | exact Hin | right; exact Hin].
    + rewrite !bool_decide_eq_false_2;
        [| exact Hnin | rewrite elem_of_cons; tauto].
      f_equal. rewrite <- IH. apply fromkeys_from_ext.
      intros y. rewrite !elem_of_cons. tauto.
Qed.

(** The first occurrence is the one kept: the head stays in front and its
    later copies are dropped. *)
Lemma fromkeys_cons (s : str) (rest : list str) :
  fromkeys (s :: rest)
  = s :: fromkeys (List.filter (fun x => negb (bool_decide (x = s))) rest).
Proof.
  unfold fromkeys. simpl. f_equal. apply fromkeys_from_seen.
Qed.





Section ScannerFacts.

Variable decode_utf16_ignore : bytes -> str.
Variable min_length : nat.

(** No string is returned twice. *)
Lemma collect_strings_NoDup (data : bytes) :
  NoDup (collect_strings decode_utf16_ignore min_length data).
Proof. apply fromkeys_NoDup. Qed.


End ScannerFacts.

(** C2, at the input [b"   a"] with the default minimum length 4: the run of
    four set characters is matched, stripped to ["a"] and returned, a string
    of one character; this holds whatever the UTF-16 pass adds. *)
Theorem extract_strings_returns_short_string (decode_utf16_ignore : bytes -> str) :
  exists rest,
    extract_strings decode_utf16_ignore 4 (inr [32; 32; 32; 97]) (fun _ => None)
      = inr (py "a" :: rest)
    /\ (List.length (py "a") < 4)%nat
    /\ NoDup (py "a" :: rest).
Proof.
  unfold extract_strings.
  pose proof (collect_strings_NoDup decode_utf16_ignore 4 [32; 32; 32; 97]) as Hnd.
  unfold collect_strings in *.
  change (List.filter truthy_str (map strip (findall 4 [32; 32; 32; 97])))
    with [py "a"] in *.
  set (more := List.filter truthy_str _) in *.
  unfold fromkeys in *. simpl in *.
  eexists. split; [reflexivity|]. split; [simpl; lia | exact Hnd].
Qed.

(** *** Properties of the URL look-ups *)

Section URLFacts.

Variable lower : str -> str.

Lemma find_in_set (f : str -> bool) (urls : gset str) (order : list str) :
  order ≡ₚ elements urls ->
  ((exists u, u ∈ urls /\ f u = true) ->
     exists u, List.find f order = Some u /\ u ∈ urls /\ f u = true)
  /\ ((forall u, u ∈ urls -> f u = false) -> List.find f order = None).
Proof.
  intros Hperm.
  assert (Hmem : forall u, In u order <-> u ∈ urls).
  { intros u. rewrite <- list_elem_of_In, Hperm. apply elem_of_elements. }
  split.
  - intros (u & Hu & Hf). destruct (List.find f order) as [v|] eqn:E.
    + apply find_some in E as [Hv Hfv]. exists v. rewrite <- Hmem. auto.
    + apply Hmem in Hu. apply (find_none _ _ E u) in Hu. congruence.
  - intros Hnone. destruct (List.find f order) as [v|] eqn:E; [|reflexivity].
    apply find_some in E as [Hv Hfv]. apply Hmem, Hnone in Hv. congruence.
Qed.

(** C5. Whatever the order in which the set is walked: [find_cnc_url] returns
    a member that contains ["5050/index.php"] when the set has one, and
    [None] when it has none; [find_download_url] returns a member whose
    lower-cased text contains the lower-cased pattern when the set has one,
    and [None] when it has none.  Both are total: nothing is raised. *)
Theorem find_url_some_or_none (urls : gset str) (order : list str) (pattern : str) :
  order ≡ₚ elements urls ->
  ((exists u, u ∈ urls /\ contains (py "5050/index.php") u = true) ->
     exists u, find_cnc_url order = Some u
               /\ u ∈ urls /\ contains (py "5050/index.php") u = true)
  /\ ((forall u, u ∈ urls -> contains (py "5050/index.php") u = false) ->
     find_cnc_url order = None)
  /\ ((exists u, u ∈ urls /\ contains (lower pattern) (lower u) = true) ->
     exists u, find_download_url lower order pattern = Some u
               /\ u ∈ urls /\ contains (lower pattern) (lower u) = true)
  /\ ((forall u, u ∈ urls -> contains (lower pattern) (lower u) = false) ->
     find_download_url lower order pattern = None).
Proof.
  intros Hperm. unfold find_cnc_url, find_download_url.
  destruct (find_in_set (fun url => contains (py "5050/index.php") url) urls order Hperm).
  destruct (find_in_set (fun url => contains (lower pattern) (lower url)) urls order Hperm).
  auto.
Qed.

End URLFacts.

(** A set with the command-and-control URL and two unrelated URLs. *)
Definition demo_urls : gset str :=
  {[ py "http://evil.com/5050/index.php" ]} ∪ {[ py "http://x.com/payload.ISO" ]}
  ∪ {[ py "https://b.com/y" ]}.

Example demo_find_cnc_url order :
  order ≡ₚ elements demo_urls ->
  find_cnc_url order = Some (py "http://evil.com/5050/index.php").
Proof.
  intros Hperm. unfold find_cnc_url.
  destruct (find_in_set (fun url => contains (py "5050/index.php") url)
              demo_urls order Hperm) as (H & _).
  destruct H as (u & -> & Hu & Hc).
  - exists (py "http://evil.com/5050/index.php"). split; [set_solver | reflexivity].
  - unfold demo_urls in Hu. rewrite !elem_of_union, !elem_of_singleton in Hu.
    destruct Hu as [[->| ->]| ->]; [reflexivity | discriminate Hc | discriminate Hc].
Qed.

Example demo_find_none :
  find_cnc_url [py "http://a.com/x"; py "https://b.com/y"] = None
  /\ find_download_url ascii_lower [py "http://a.com/x"; py "https://b.com/y"] (py "iso")
     = None.
Proof. split; reflexivity. Qed.

Example demo_find_download_url :
  find_download_url ascii_lower [py "http://a.com/x"; py "http://x.com/payload.ISO"]
    (py "iso") = Some (py "http://x.com/payload.ISO").
Proof. reflexivity. Qed.

Lemma find_url_some_or_none_witness :
  exists u, find_download_url ascii_lower (elements demo_urls) (py "iso") = Some u
            /\ u ∈ demo_urls
            /\ contains (ascii_lower (py "iso")) (ascii_lower u) = true.
Proof.
  destruct (find_url_some_or_none ascii_lower demo_urls (elements demo_urls) (py "iso")
              (reflexivity _)) as (_ & _ & H & _).
  apply H. exists (py "http://x.com/payload.ISO").
  split; [unfold demo_urls; set_solver | reflexivity].
Defined.

End Analyzer.

(** ** iso_handler.py *)

Module IsoHandler.

(** *** The [base64] module of the standard library *)

(** [binascii.Error] and the [ValueError] of [base64.b64decode]. *)
Inductive b64_error :=
  | IncorrectPadding     (* "Incorrect padding" *)
  | InvalidLength        (* "number of data characters cannot be 1 more than a multiple of 4" *)
  | NonAscii.            (* "string argument should contain only ASCII characters" *)

(** The alphabet of RFC 4648: the character of a 6-bit value. *)
Definition table_b2a_base64 (v : Z) : Z :=
  if v <? 26 then 65 + v
  else if v <? 52 then 97 + (v - 26)
  else if v <? 62 then 48 + (v - 52)
  else if v =? 62 then 43
  else 47.

(** The decoding table: the 6-bit value of an alphabet character, 0 for the
    pad character and 255 for every other one. *)
Definition table_a2b_base64 (c : Z) : Z :=
  if (65 <=? c) && (c <=? 90) then c - 65
  else if (97 <=? c) && (c <=? 122) then c - 97 + 26
  else if (48 <=? c) && (c <=? 57) then c - 48 + 52
  else if c =? 43 then 62
  else if c =? 47 then 63
  else if c =? 61 then 0
  else 255.

Definition BASE64_PAD : Z := 61.

(** [base64.b64encode]: three octets give four characters; one or two
    remaining octets give two or three characters and padding. *)
Fixpoint b64encode (s : bytes) : bytes :=
  match s with
  | [] => []
  | [b0] =>
      [ table_b2a_base64 (Z.shiftr b0 2);
        table_b2a_base64 (Z.shiftl (Z.land b0 3) 4);
        BASE64_PAD; BASE64_PAD ]
  | [b0; b1] =>
      [ table_b2a_base64 (Z.shiftr b0 2);
        table_b2a_base64 (Z.lor (Z.shiftl (Z.land b0 3) 4) (Z.shiftr b1 4));
        table_b2a_base64 (Z.shiftl (Z.land b1 15) 2);
        BASE64_PAD ]
  | b0 :: b1 :: b2 :: rest =>
      table_b2a_base64 (Z.shiftr b0 2)
      :: table_b2a_base64 (Z.lor (Z.shiftl (Z.land b0 3) 4) (Z.shiftr b1 4))
      :: table_b2a_base64 (Z.lor (Z.shiftl (Z.land b1 15) 2) (Z.shiftr b2 6))
      :: table_b2a_base64 (Z.land b2 63)
      :: b64encode rest
  end.

(** [r] with the octet [b] written in front of its output. *)
Definition emit_byte (b : Z) (r : b64_error + bytes) : b64_error + bytes :=
  match r with
  | inl e => inl e
  | inr out => inr (b :: out)
  end.

(** [binascii.a2b_base64] with [strict_mode] off, from the state
    ([quad_pos], [leftchar], [pads]) on: characters outside the alphabet are
    skipped, a pad that completes a group ends the decoding, and input that
    ends inside a group is an error.  Octets are stored through an
    [unsigned char]. *)
Fixpoint a2b_base64_from (quad_pos leftchar pads : Z) (ascii_data : list Z)
    : b64_error + bytes :=
  match ascii_data with
  | [] =>
      if quad_pos =? 0 then inr []
      else if quad_pos =? 1 then inl InvalidLength
      else inl IncorrectPadding
  | this_ch :: rest =>
      if this_ch =? BASE64_PAD then
        if 2 <=? quad_pos then
          if 4 <=? quad_pos + (pads + 1) then inr []
          else a2b_base64_from quad_pos leftchar (pads + 1) rest
        else a2b_base64_from quad_pos leftchar pads rest
      else
        let this_ch := table_a2b_base64 this_ch in
        if 64 <=? this_ch then a2b_base64_from quad_pos leftchar pads rest
        else if quad_pos =? 0 then
          a2b_base64_from 1 this_ch 0 rest
        else if quad_pos =? 1 then
          emit_byte (Z.land (Z.lor (Z.shiftl leftchar 2) (Z.shiftr this_ch 4)) 255)
            (a2b_base64_from 2 (Z.land this_ch 15) 0 rest)
        else if quad_pos =? 2 then
          emit_byte (Z.land (Z.lor (Z.shiftl leftchar 4) (Z.shiftr this_ch 2)) 255)
            (a2b_base64_from 3 (Z.land this_ch 3) 0 rest)
        else
          emit_byte (Z.land (Z.lor (Z.shiftl leftchar 6) this_ch) 255)
            (a2b_base64_from 0 0 0 rest)
  end.

(** [base64.b64decode(s)] for a [bytes] argument ([validate=False]). *)
Definition b64decode (s : bytes) : b64_error + bytes :=
  a2b_base64_from 0 0 0 s.

(** [base64.b64decode(s)] for a [str] argument: [s.encode('ascii')] first. *)
Definition b64decode_str (s : str) : b64_error + bytes :=
  if forallb (fun c => c <? 128) s then b64decode s else inl NonAscii.

(** The two decoding passes of [decode_iso]. *)
Definition two_pass_decode (data : str) : b64_error + bytes :=
  match b64decode_str data with
  | inl e => inl e
  | inr decoded1 => b64decode decoded1
  end.

Inductive iso_error :=
  | IOError (e : exn)
  | Base64Error (e : b64_error).

Section WithPaths.
Context {PL : PathLib}.

(** Writing a file with [open] and [f.write].  [open_file] is what opening
    the file for writing gives: the file is created, or emptied when it is
    there, unless an exception is raised.  [write_file] is what the write
    that follows gives: [None] when all the octets reached the file, or the
    exception raised and the octets the file is left with. *)
Record FileWriter := mkFileWriter {
  open_file : Path -> option exn;
  write_file : Path -> bytes -> option (exn * bytes);
}.

(** The writer for which nothing fails. *)
Definition good_writer : FileWriter :=
  {| open_file := fun _ => None; write_file := fun _ _ => None |}.

(** [ISODownloader.decode_iso]: [read] is what reading [iso_path] as UTF-8
    text gives.  The result lists the files created or emptied, in this
    order, each with the octets it holds afterwards, and carries the path
    returned or the exception raised again by the handler. *)
Definition decode_iso (output_dir : Path) (read : exn + str) (writer : FileWriter)
    : list (Path * bytes) * (iso_error + Path) :=
  match read with
  | inl e => ([], inl (IOError e))
  | inr data =>
      match b64decode_str data with
      | inl e => ([], inl (Base64Error e))
      | inr decoded1 =>
          let encoded_path := joinpath output_dir (py "encoded.b64") in
          match open_file writer encoded_path with
          | Some e => ([], inl (IOError e))
          | None =>
              match write_file writer encoded_path decoded1 with
              | Some (e, partial) => ([(encoded_path, partial)], inl (IOError e))
              | None =>
                  match b64decode decoded1 with
                  | inl e => ([(encoded_path, decoded1)], inl (Base64Error e))
                  | inr decoded2 =>
                      let zip_path := joinpath output_dir (py "decoded.zip") in
                      match open_file writer zip_path with
                      | Some e => ([(encoded_path, decoded1)], inl (IOError e))
                      | None =>
                          match write_file writer zip_path decoded2 with
                          | Some (e, partial) =>
                              ([(encoded_path, decoded1); (zip_path, partial)],
                               inl (IOError e))
                          | None =>
                              ([(encoded_path, decoded1); (zip_path, decoded2)],
                               inr zip_path)
                          end
                      end
                  end
              end
          end
      end
  end.

End WithPaths.

(** *** Properties of the codec *)

Example b64encode_a : b64encode (py "a") = py "YQ==".
Proof. reflexivity. Qed.

Example b64encode_hello : b64encode (py "hello!") = py "aGVsbG8h".
Proof. reflexivity. Qed.

Example b64decode_bad_padding : two_pass_decode (py "WVE9PQ=") = inl IncorrectPadding.
Proof. reflexivity. Qed.

(** An octet. *)
Definition is_byte (b : Z) : Prop := 0 <= b < 256.

Definition range (n : nat) : list Z := map Z.of_nat (seq 0 n).

Lemma elem_of_range (n : nat) (z : Z) : 0 <= z < Z.of_nat n -> In z (range n).
Proof.
  intros H. unfold range. apply in_map_iff. exists (Z.to_nat z).
  split; [lia|]. apply in_seq. lia.
Qed.

Lemma forall_range (n : nat) (P : Z -> bool) :
  forallb P (range n) = true -> forall z, 0 <= z < Z.of_nat n -> P z = true.
Proof.
  intros H z Hz. rewrite forallb_forall in H. apply H, elem_of_range, Hz.
Qed.

Lemma forall_range2 (n m : nat) (P : Z -> Z -> bool) :
  forallb (fun a => forallb (P a) (range m)) (range n) = true ->
  forall a b, 0 <= a < Z.of_nat n -> 0 <= b < Z.of_nat m -> P a b = true.
Proof.
  intros H a b Ha Hb.
  apply (forall_range m (P a)); [|exact Hb].
  apply (forall_range n (fun a => forallb (P a) (range m))); assumption.
Qed.

Lemma sextet_table (v : Z) :
  0 <= v < 64 ->
  table_b2a_base64 v <> BASE64_PAD
  /\ table_a2b_base64 (table_b2a_base64 v) = v
  /\ 0 <= table_b2a_base64 v < 128.
Proof.
  intros Hv.
  pose proof (forall_range 64
    (fun v => negb (table_b2a_base64 v =? BASE64_PAD)
              && (table_a2b_base64 (table_b2a_base64 v) =? v)
              && (0 <=? table_b2a_base64 v) && (table_b2a_base64 v <? 128))
    eq_refl v Hv) as H.
  simpl in H. rewrite !andb_true_iff, negb_true_iff in H. lia.
Qed.

Lemma a2b_sextet (q lc p v : Z) (rest : list Z) :
  0 <= v < 64 ->
  a2b_base64_from q lc p (table_b2a_base64 v :: rest) =
  if q =? 0 then a2b_base64_from 1 v 0 rest
  else if q =? 1 then
    emit_byte (Z.land (Z.lor (Z.shiftl lc 2) (Z.shiftr v 4)) 255)
      (a2b_base64_from 2 (Z.land v 15) 0 rest)
  else if q =? 2 then
    emit_byte (Z.land (Z.lor (Z.shiftl lc 4) (Z.shiftr v 2)) 255)
      (a2b_base64_from 3 (Z.land v 3) 0 rest)
  else
    emit_byte (Z.land (Z.lor (Z.shiftl lc 6) v) 255) (a2b_base64_from 0 0 0 rest).
Proof.
  intros Hv. destruct (sextet_table v Hv) as (Hpad & Htab & _).
  cbn [a2b_base64_from]. rewrite (proj2 (Z.eqb_neq _ _) Hpad). cbv zeta.
  rewrite Htab. destruct (Z.leb_spec 64 v); [lia | reflexivity].
Qed.

(** The bit identities of one group, checked on every pair of octets. *)
Definition sextet1 (a b : Z) : Z := Z.lor (Z.shiftl (Z.land a 3) 4) (Z.shiftr b 4).
Definition sextet2 (a b : Z) : Z := Z.lor (Z.shiftl (Z.land a 15) 2) (Z.shiftr b 6).

Definition in_sextet (v : Z) : bool := (0 <=? v) && (v <? 64).

Definition group_check (a b : Z) : bool :=
  in_sextet (Z.shiftr a 2) && in_sextet (sextet1 a b) && in_sextet (sextet2 a b)
  && in_sextet (Z.land a 63)
  && (Z.land (Z.lor (Z.shiftl (Z.shiftr a 2) 2) (Z.shiftr (sextet1 a b) 4)) 255 =? a)
  && (Z.land (sextet1 a b) 15 =? Z.shiftr b 4)
  && (Z.land (Z.lor (Z.shiftl (Z.shiftr a 4) 4) (Z.shiftr (sextet2 a b) 2)) 255 =? a)
  && (Z.land (sextet2 a b) 3 =? Z.shiftr b 6)
  && (Z.land (Z.lor (Z.shiftl (Z.shiftr a 6) 6) (Z.land a 63)) 255 =? a).

Lemma group_check_all : forallb (fun a => forallb (group_check a) (range 256)) (range 256) = true.
Proof. vm_compute. reflexivity. Qed.

Lemma group_facts (a b : Z) :
  is_byte a -> is_byte b ->
  0 <= Z.shiftr a 2 < 64 /\ 0 <= sextet1 a b < 64 /\ 0 <= sextet2 a b < 64
  /\ 0 <= Z.land a 63 < 64
  /\ Z.land (Z.lor (Z.shiftl (Z.shiftr a 2) 2) (Z.shiftr (sextet1 a b) 4)) 255 = a
  /\ Z.land (sextet1 a b) 15 = Z.shiftr b 4
  /\ Z.land (Z.lor (Z.shiftl (Z.shiftr a 4) 4) (Z.shiftr (sextet2 a b) 2)) 255 = a
  /\ Z.land (sextet2 a b) 3 = Z.shiftr b 6
  /\ Z.land (Z.lor (Z.shiftl (Z.shiftr a 6) 6) (Z.land a 63)) 255 = a.
Proof.
  intros Ha Hb.
  pose proof (forall_range2 256 256 group_check group_check_all a b Ha Hb) as H.
  unfold group_check, in_sextet in H. rewrite !andb_true_iff in H.
  repeat match goal with H : _ /\ _ |- _ => destruct H end.
  repeat match goal with
         | H : (_ =? _) = true |- _ => apply Z.eqb_eq in H
         | H : (_ <=? _) = true |- _ => apply Z.leb_le in H
         | H : (_ <? _) = true |- _ => apply Z.ltb_lt in H
         end.
  repeat split; assumption.
Qed.

Lemma sextet1_0 a : sextet1 a 0 = Z.shiftl (Z.land a 3) 4.
Proof. unfold sextet1. rewrite Z.shiftr_0_l. apply Z.lor_0_r. Qed.

Lemma sextet2_0 a : sextet2 a 0 = Z.shiftl (Z.land a 15) 2.
Proof. unfold sextet2. rewrite Z.shiftr_0_l. apply Z.lor_0_r. Qed.

Lemma list_ind3 {A} (P : list A -> Prop) :
  P [] -> (forall a, P [a]) -> (forall a b, P [a; b]) ->
  (forall a b c l, P l -> P (a :: b :: c :: l)) ->
  forall l, P l.
Proof.
  intros H0 H1 H2 H3 l.
  assert (H : P l /\ (forall a, P (a :: l)) /\ (forall a b, P (a :: b :: l))).
  { induction l as [|x l (IH0 & IH1 & IH2)]; [auto|].
    split; [apply IH1|]. split; [intros a; apply IH2|]. intros a b. apply H3, IH0. }
  apply H.
Qed.

Lemma b64decode_b64encode (s : bytes) :
  Forall is_byte s -> b64decode (b64encode s) = inr s.
Proof.
  unfold b64decode. induction s as [|a|a b|a b c s IH] using list_ind3; intros Hs.
  - reflexivity.
  - apply Forall_cons_1 in Hs as [Ha _].
    assert (H0 : is_byte 0) by (unfold is_byte; lia).
    destruct (group_facts a 0 Ha H0) as (R0 & R1 & _ & _ & E0 & _).
    rewrite sextet1_0 in R1, E0.
    cbn [b64encode]. rewrite a2b_sextet by exact R0. cbn [Z.eqb].
    rewrite a2b_sextet by exact R1. cbn [Z.eqb Pos.eqb].
    rewrite E0. reflexivity.
  - apply Forall_cons_1 in Hs as [Ha Hs]. apply Forall_cons_1 in Hs as [Hb _].
    assert (H0 : is_byte 0) by (unfold is_byte; lia).
    destruct (group_facts a b Ha Hb) as (R0 & R1 & _ & _ & E0 & E1 & _).
    destruct (group_facts b 0 Hb H0) as (_ & _ & R2 & _ & _ & _ & E2 & _).
    rewrite sextet2_0 in R2, E2. fold (sextet1 a b).
    cbn [b64encode]. fold (sextet1 a b).
    rewrite a2b_sextet by exact R0. cbn [Z.eqb].
    rewrite a2b_sextet by exact R1. cbn [Z.eqb Pos.eqb].
    rewrite a2b_sextet by exact R2. cbn [Z.eqb Pos.eqb].
    rewrite E0, E1, E2. reflexivity.
  - apply Forall_cons_1 in Hs as [Ha Hs]. apply Forall_cons_1 in Hs as [Hb Hs].
    apply Forall_cons_1 in Hs as [Hc Hs].
    destruct (group_facts a b Ha Hb) as (R0 & R1 & _ & _ & E0 & E1 & _).
    destruct (group_facts b c Hb Hc) as (_ & _ & R2 & _ & _ & _ & E2 & E3 & _).
    destruct (group_facts c c Hc Hc) as (_ & _ & _ & R3 & _ & _ & _ & _ & E4).
    cbn [b64encode]. fold (sextet1 a b) (sextet2 b c).
    rewrite a2b_sextet by exact R0. cbn [Z.eqb].
    rewrite a2b_sextet by exact R1. cbn [Z.eqb Pos.eqb].
    rewrite a2b_sextet by exact R2. cbn [Z.eqb Pos.eqb].
    rewrite a2b_sextet by exact R3. cbn [Z.eqb Pos.eqb].
    rewrite E0, E1, E2, E3, E4, (IH Hs). reflexivity.
Qed.

Lemma b64encode_ascii (s : bytes) :
  Forall is_byte s -> Forall (fun c => 0 <= c < 128) (b64encode s).
Proof.
  assert (Hpad : 0 <= BASE64_PAD < 128) by (unfold BASE64_PAD; lia).
  assert (H0 : is_byte 0) by (unfold is_byte; lia).
  induction s as [|a|a b|a b c s IH] using list_ind3; intros Hs.
  - constructor.
  - apply Forall_cons_1 in Hs as [Ha _].
    destruct (group_facts a 0 Ha H0) as (R0 & R1 & _). rewrite sextet1_0 in R1.
    cbn [b64encode]. repeat (apply Forall_cons_2; [first [exact Hpad | apply sextet_table; assumption]|]).
    constructor.
  - apply Forall_cons_1 in Hs as [Ha Hs]. apply Forall_cons_1 in Hs as [Hb _].
    destruct (group_facts a b Ha Hb) as (R0 & R1 & _).
    destruct (group_facts b 0 Hb H0) as (_ & _ & R2 & _). rewrite sextet2_0 in R2.
    cbn [b64encode]. repeat (apply Forall_cons_2; [first [exact Hpad | apply sextet_table; assumption]|]).
    constructor.
  - apply Forall_cons_1 in Hs as [Ha Hs]. apply Forall_cons_1 in Hs as [Hb Hs].
    apply Forall_cons_1 in Hs as [Hc Hs].
    destruct (group_facts a b Ha Hb) as (R0 & R1 & _).
    destruct (group_facts b c Hb Hc) as (_ & _ & R2 & _).
    destruct (group_facts c c Hc Hc) as (_ & _ & _ & R3 & _).
    cbn [b64encode]. repeat (apply Forall_cons_2; [apply sextet_table; assumption|]).
    apply IH, Hs.
Qed.

Lemma b64decode_str_b64encode (s : bytes) :
  Forall is_byte s -> b64decode_str (b64encode s) = inr s.
Proof.
  intros Hs. unfold b64decode_str.
  rewrite (proj2 (forallb_forall _ _)); [apply b64decode_b64encode, Hs|].
  intros c Hc. pose proof (b64encode_ascii s Hs) as Hall.
  rewrite Forall_forall in Hall. apply list_elem_of_In, Hall in Hc. apply Z.ltb_lt. lia.
Qed.

Lemma two_pass_roundtrip (b : bytes) :
  Forall is_byte b -> two_pass_decode (b64encode (b64encode b)) = inr b.
Proof.
  intros Hb. unfold two_pass_decode.
  rewrite b64decode_str_b64encode.
  - apply b64decode_b64encode, Hb.
  - eapply Forall_impl; [apply b64encode_ascii, Hb|]. unfold is_byte. simpl. lia.
Qed.

(** Significant characters: the pad and the alphabet. *)
Definition significant (c : Z) : bool :=
  (c =? BASE64_PAD) || (table_a2b_base64 c <? 64).

Lemma a2b_ignores_junk (data : list Z) : forall q lc p,
  a2b_base64_from q lc p (List.filter significant data) = a2b_base64_from q lc p data.
Proof.
  induction data as [|c rest IH]; intros q lc p; [reflexivity|].
  cbn [List.filter]. unfold significant at 1.
  destruct (c =? BASE64_PAD) eqn:Hpad.
  - cbn [orb a2b_base64_from]. rewrite Hpad, !IH. reflexivity.
  - cbn [orb]. destruct (table_a2b_base64 c <? 64) eqn:Htab.
    + cbn [a2b_base64_from]. rewrite Hpad, !IH. reflexivity.
    + cbn [a2b_base64_from]. rewrite Hpad. cbv zeta.
      apply Z.ltb_ge in Htab. rewrite (proj2 (Z.leb_le _ _) Htab). apply IH.
Qed.

(** An alphabet character (not the pad). *)
Definition in_alphabet (c : Z) : bool :=
  negb (c =? BASE64_PAD) && (table_a2b_base64 c <? 64).

Definition is_error {A B} (r : A + B) : Prop :=
  match r with inl _ => True | inr _ => False end.

Lemma emit_byte_error b r : is_error r -> is_error (emit_byte b r).
Proof. destruct r; simpl; auto. Qed.

Lemma a2b_truncated (data : list Z) : forall q lc,
  0 <= q < 4 ->
  Forall (fun c => in_alphabet c = true) data ->
  (q + Z.of_nat (List.length data)) mod 4 <> 0 ->
  is_error (a2b_base64_from q lc 0 data).
Proof.
  induction data as [|c rest IH]; intros q lc Hq Hall Hmod.
  - cbn [a2b_base64_from]. cbn [List.length] in Hmod.
    rewrite Z.add_0_r, Z.mod_small in Hmod by lia.
    rewrite (proj2 (Z.eqb_neq _ _) Hmod). destruct (q =? 1); exact I.
  - apply Forall_cons_1 in Hall as [Hc Hall].
    unfold in_alphabet in Hc. apply andb_true_iff in Hc as [Hpad Htab].
    apply negb_true_iff in Hpad. apply Z.ltb_lt in Htab.
    cbn [a2b_base64_from]. rewrite Hpad. cbv zeta.
    destruct (Z.leb_spec 64 (table_a2b_base64 c)); [lia|].
    rewrite length_cons, Nat2Z.inj_succ in Hmod.
    destruct (Z.eqb_spec q 0) as [->|H0].
    { apply IH; [lia | exact Hall |].
      replace (1 + Z.of_nat (List.length rest)) with (0 + Z.succ (Z.of_nat (List.length rest))) by lia.
      exact Hmod. }
    destruct (Z.eqb_spec q 1) as [->|H1].
    { apply emit_byte_error, IH; [lia | exact Hall |].
      replace (2 + Z.of_nat (List.length rest)) with (1 + Z.succ (Z.of_nat (List.length rest))) by lia.
      exact Hmod. }
    destruct (Z.eqb_spec q 2) as [->|H2].
    { apply emit_byte_error, IH; [lia | exact Hall |].
      replace (3 + Z.of_nat (List.length rest)) with (2 + Z.succ (Z.of_nat (List.length rest))) by lia.
      exact Hmod. }
    assert (q = 3) as -> by lia.
    apply emit_byte_error, IH; [lia | exact Hall |].
    replace (3 + Z.succ (Z.of_nat (List.length rest)))
      with (0 + Z.of_nat (List.length rest) + 1 * 4) in Hmod by lia.
    rewrite Z.mod_add in Hmod by lia. exact Hmod.
Qed.

(** Well-formed base64 text in the sense of RFC 4648, section 4: groups of
    four characters of the alphabet, the last group possibly ending in one or
    two pad characters, and nothing else. *)
Definition strip_pads (s : list Z) : list Z :=
  match rev s with
  | 61 :: 61 :: r => rev r
  | 61 :: r => rev r
  | _ => s
  end.

Definition rfc4648_valid (s : list Z) : bool :=
  (Z.of_nat (List.length s) mod 4 =? 0) && forallb in_alphabet (strip_pads s).

Example rfc4648_valid_double : rfc4648_valid (py "WVE9PQ==") = true.
Proof. reflexivity. Qed.

(** The text ["!WVE9PQ=="] is not well-formed base64, and both passes
    succeed on it: the two-pass decoder returns [b"a"].  The text
    ["IVlRPT0="] is well-formed and decodes to ["!YQ=="], which is not; the
    second pass succeeds on it all the same. *)
Lemma malformed_base64_is_decoded :
  (rfc4648_valid (py "!WVE9PQ==") = false
   /\ two_pass_decode (py "!WVE9PQ==") = inr (py "a"))
  /\ (b64decode_str (py "IVlRPT0=") = inr (py "!YQ==")
      /\ rfc4648_valid (py "!YQ==") = false
      /\ two_pass_decode (py "IVlRPT0=") = inr (py "a")).
Proof. repeat split; reflexivity. Qed.

(** [r] with the octets [out] written in front of its output. *)
Definition prepend (out : bytes) (r : b64_error + bytes) : b64_error + bytes :=
  match r with
  | inl e => inl e
  | inr o => inr (out ++ o)
  end.

Lemma emit_byte_prepend b out r : emit_byte b (prepend out r) = prepend (b :: out) r.
Proof. destruct r; reflexivity. Qed.

(** The number of alphabet characters of a text. *)
Definition count_alphabet (s : list Z) : Z :=
  Z.of_nat (List.length (List.filter in_alphabet s)).

(** The number of pad characters of a text. *)
Definition count_pads (s : list Z) : Z :=
  Z.of_nat (List.length (List.filter (fun c => c =? BASE64_PAD) s)).

(** Over text without a pad the decoder moves [quad_pos] forward by the
    number of alphabet characters. *)
Lemma a2b_body (body : list Z) :
  Forall (fun c => c <> BASE64_PAD) body ->
  forall q lc, 0 <= q < 4 ->
  exists out lc', forall rest,
    a2b_base64_from q lc 0 (body ++ rest)
    = prepend out (a2b_base64_from ((q + count_alphabet body) mod 4) lc' 0 rest).
Proof.
  induction 1 as [|c body Hc _ IH]; intros q lc Hq.
  - exists [], lc. intros rest. unfold count_alphabet. simpl.
    rewrite Z.add_0_r, Z.mod_small by lia. destruct (a2b_base64_from _ _ _ _); reflexivity.
  - apply Z.eqb_neq in Hc.
    destruct (Z.leb_spec 64 (table_a2b_base64 c)) as [Hj|Ha].
    + destruct (IH q lc Hq) as (out & lc' & E). exists out, lc'. intros rest.
      cbn [app a2b_base64_from]. rewrite Hc. cbv zeta.
      rewrite (proj2 (Z.leb_le _ _) Hj), E.
      unfold count_alphabet. cbn [List.filter]. unfold in_alphabet at 2.
      rewrite Hc, (proj2 (Z.ltb_ge _ _) Hj). reflexivity.
    + assert (Hcount : count_alphabet (c :: body) = 1 + count_alphabet body).
      { unfold count_alphabet. cbn [List.filter]. unfold in_alphabet at 1.
        rewrite Hc, (proj2 (Z.ltb_lt _ _) Ha). cbn [negb andb List.length]. lia. }
      assert (Hnext : forall q', 0 <= q' < 4 -> (q + 1) mod 4 = q' ->
                (q + count_alphabet (c :: body)) mod 4 = (q' + count_alphabet body) mod 4).
      { intros q' Hq' <-. rewrite Hcount, Z.add_assoc, Zplus_mod_idemp_l. reflexivity. }
      destruct (Z.eqb_spec q 0) as [->|H0].
      { destruct (IH 1 (table_a2b_base64 c) ltac:(lia)) as (out & lc' & E).
        exists out, lc'. intros rest. cbn [app a2b_base64_from]. rewrite Hc. cbv zeta.
        rewrite (proj2 (Z.leb_gt _ _) Ha). cbn [Z.eqb]. rewrite E.
        rewrite (Hnext 1) by (try reflexivity; lia). reflexivity. }
      destruct (Z.eqb_spec q 1) as [->|H1].
      { destruct (IH 2 (Z.land (table_a2b_base64 c) 15) ltac:(lia)) as (out & lc' & E).
        eexists (_ :: out), lc'. intros rest. cbn [app a2b_base64_from]. rewrite Hc.
        cbv zeta. rewrite (proj2 (Z.leb_gt _ _) Ha). cbn [Z.eqb Pos.eqb]. rewrite E.
        rewrite emit_byte_prepend, (Hnext 2) by (try reflexivity; lia). reflexivity. }
      destruct (Z.eqb_spec q 2) as [->|H2].
      { destruct (IH 3 (Z.land (table_a2b_base64 c) 3) ltac:(lia)) as (out & lc' & E).
        eexists (_ :: out), lc'. intros rest. cbn [app a2b_base64_from]. rewrite Hc.
        cbv zeta. rewrite (proj2 (Z.leb_gt _ _) Ha). cbn [Z.eqb Pos.eqb]. rewrite E.
        rewrite emit_byte_prepend, (Hnext 3) by (try reflexivity; lia). reflexivity. }
      assert (q = 3) as -> by lia.
      destruct (IH 0 0 ltac:(lia)) as (out & lc' & E).
      eexists (_ :: out), lc'. intros rest. cbn [app a2b_base64_from]. rewrite Hc.
      cbv zeta. rewrite (proj2 (Z.leb_gt _ _) Ha). cbn [Z.eqb Pos.eqb]. rewrite E.
      rewrite emit_byte_prepend, (Hnext 0) by (try reflexivity; lia). reflexivity.
Qed.

(** Over text without an alphabet character only the pads count. *)
Lemma a2b_tail (tail : list Z) :
  Forall (fun c => in_alphabet c = false) tail ->
  forall q lc p, 0 <= q < 4 -> 0 <= p -> (2 <= q -> q + p < 4) ->
  a2b_base64_from q lc p tail
  = if q =? 0 then inr []
    else if q =? 1 then inl InvalidLength
    else if 4 <=? q + p + count_pads tail then inr []
    else inl IncorrectPadding.
Proof.
  induction 1 as [|c tail Hc _ IH]; intros q lc p Hq Hp Hinv.
  - cbn [a2b_base64_from]. unfold count_pads. simpl. rewrite Z.add_0_r.
    destruct (Z.eqb_spec q 0); [reflexivity|]. destruct (Z.eqb_spec q 1); [reflexivity|].
    destruct (Z.leb_spec 4 (q + p)); [lia | reflexivity].
  - cbn [a2b_base64_from]. unfold in_alphabet in Hc.
    destruct (Z.eqb_spec c BASE64_PAD) as [->|Hne].
    + assert (Hk : count_pads (BASE64_PAD :: tail) = 1 + count_pads tail).
      { unfold count_pads. cbn [List.filter]. rewrite Z.eqb_refl. cbn [List.length]. lia. }
      assert (Hk0 : 0 <= count_pads tail) by (unfold count_pads; lia).
      destruct (Z.leb_spec 2 q) as [H2|H2].
      * destruct (Z.eqb_spec q 0); [lia|]. destruct (Z.eqb_spec q 1); [lia|].
        destruct (Z.leb_spec 4 (q + (p + 1))) as [H4|H4].
        -- destruct (Z.leb_spec 4 (q + p + count_pads (BASE64_PAD :: tail)));
             [reflexivity | lia].
        -- rewrite IH by lia. destruct (Z.eqb_spec q 0); [lia|].
           destruct (Z.eqb_spec q 1); [lia|]. rewrite Hk.
           replace (q + (p + 1) + count_pads tail) with (q + p + (1 + count_pads tail))
             by lia. reflexivity.
      * rewrite IH by lia. destruct (Z.eqb_spec q 0); [reflexivity|].
        destruct (Z.eqb_spec q 1); [reflexivity | lia].
    + cbn [negb andb] in Hc. apply Z.ltb_ge in Hc. cbv zeta.
      rewrite (proj2 (Z.leb_le _ _) Hc), IH by assumption.
      unfold count_pads. cbn [List.filter]. rewrite (proj2 (Z.eqb_neq _ _) Hne).
      reflexivity.
Qed.

(** One pass over text in which no alphabet character follows a pad: the
    outcome is decided by the number [n] of alphabet characters modulo 4 and
    the number [k] of pads. *)
Lemma b64decode_outcome (body tail : list Z) :
  Forall (fun c => c <> BASE64_PAD) body ->
  Forall (fun c => in_alphabet c = false) tail ->
  let n := count_alphabet body mod 4 in
  let k := count_pads tail in
  match b64decode (body ++ tail) with
  | inr _ => n = 0 \/ (n = 2 /\ 2 <= k) \/ (n = 3 /\ 1 <= k)
  | inl InvalidLength => n = 1
  | inl IncorrectPadding => (n = 2 /\ k < 2) \/ (n = 3 /\ k = 0)
  | inl NonAscii => False
  end.
Proof.
  intros Hbody Htail n k. unfold b64decode.
  destruct (a2b_body body Hbody 0 0 ltac:(lia)) as (out & lc' & E).
  rewrite E, Z.add_0_l. fold n.
  assert (Hn : 0 <= n < 4) by (apply Z.mod_pos_bound; lia).
  assert (Hk : 0 <= k) by (unfold k, count_pads; lia).
  rewrite (a2b_tail tail Htail n lc' 0) by lia. fold k.
  destruct (Z.eqb_spec n 0); [left; assumption|].
  destruct (Z.eqb_spec n 1); [assumption|].
  rewrite Z.add_0_r. destruct (Z.leb_spec 4 (n + k)); simpl; lia.
Qed.

(** A pad inside the text: after three characters of a group, or as the
    second pad after two, it ends the decoding and the rest is not read;
    anywhere else it is skipped like a character outside the alphabet. *)
Lemma b64decode_pads (body rest : list Z) :
  Forall (fun c => c <> BASE64_PAD) body ->
  let n := count_alphabet body mod 4 in
  (n = 3 -> b64decode (body ++ BASE64_PAD :: rest) = b64decode (body ++ [BASE64_PAD]))
  /\ (n = 2 ->
      b64decode (body ++ BASE64_PAD :: BASE64_PAD :: rest)
      = b64decode (body ++ [BASE64_PAD; BASE64_PAD]))
  /\ (n = 0 \/ n = 1 -> b64decode (body ++ BASE64_PAD :: rest) = b64decode (body ++ rest))
  /\ (n = 2 -> forall c, in_alphabet c = true ->
      b64decode (body ++ BASE64_PAD :: c :: rest) = b64decode (body ++ c :: rest)).
Proof.
  intros Hbody n. unfold b64decode.
  destruct (a2b_body body Hbody 0 0 ltac:(lia)) as (out & lc' & E).
  rewrite Z.add_0_l in E. fold n in E. rewrite !E.
  split; [|split; [|split]].
  - intros ->. reflexivity.
  - intros ->. reflexivity.
  - intros [-> | ->]; reflexivity.
  - intros -> c Hc. unfold in_alphabet in Hc. apply andb_true_iff in Hc as [Hp Ht].
    apply negb_true_iff in Hp. apply Z.ltb_lt in Ht. rewrite !E.
    change (a2b_base64_from 2 lc' 0 (BASE64_PAD :: c :: rest))
      with (a2b_base64_from 2 lc' (0 + 1) (c :: rest)).
    cbn [a2b_base64_from]. unfold BASE64_PAD in *. rewrite Hp. cbv zeta.
    rewrite (proj2 (Z.leb_gt _ _) Ht). reflexivity.
Qed.

(** The second pass receives octets, not text: an octet above 127 is skipped
    like every other character outside the alphabet. *)
Example second_pass_skips_high_octets :
  two_pass_decode (b64encode (py "YQ==" ++ [255])) = inr (py "a").
Proof. reflexivity. Qed.

(** The second pass stops inside a group. *)
Example second_pass_truncated :
  two_pass_decode (b64encode (py "YQ=")) = inl IncorrectPadding.
Proof. reflexivity. Qed.

Section DecodeFacts.
Context {PL : PathLib}.

Lemma decode_iso_error (output_dir : Path) (data : str) (writer : FileWriter) :
  is_error (two_pass_decode data) ->
  is_error (snd (decode_iso output_dir (inr data) writer)).
Proof.
  unfold two_pass_decode, decode_iso.
  destruct (b64decode_str data) as [e|decoded1]; [exact (fun H => H)|].
  destruct (open_file writer _); [exact (fun _ => I)|].
  destruct (write_file writer _ decoded1) as [[e partial]|]; [exact (fun _ => I)|].
  destruct (b64decode decoded1) as [e|decoded2]; [exact (fun H => H)|].
  intros [].
Qed.

(** C3, as the code has it.  Decoding the double encoding of any byte string
    gives the byte string back, and [decode_iso] writes the two files and
    returns the path of the second.  Each pass is the non-validating
    decoder: characters outside the alphabet are skipped, so text with such
    characters is decoded as if they were absent.  A pass over text in which
    no alphabet character follows a pad fails exactly when the text ends
    inside a group: with [n] the number of alphabet characters modulo 4 and
    [k] the number of pads, when [n] is 1, or [n] is 2 and [k] is less than
    2, or [n] is 3 and [k] is 0.  A pad inside the text ends the decoding
    when it completes a group, and what follows it is not read; any other
    pad is skipped.  The first pass fails besides on text with a character
    outside ASCII; the second pass receives the octets of the first and
    skips those above 127.  When a pass fails [decode_iso] raises and
    returns no path. *)
Theorem two_pass_decode_roundtrip_and_errors :
  (forall b : bytes,
     Forall is_byte b -> two_pass_decode (b64encode (b64encode b)) = inr b)
  /\ (forall (output_dir : Path) (b : bytes),
     Forall is_byte b ->
     decode_iso output_dir (inr (b64encode (b64encode b))) good_writer
     = ([ (joinpath output_dir (py "encoded.b64"), b64encode b);
          (joinpath output_dir (py "decoded.zip"), b) ],
        inr (joinpath output_dir (py "decoded.zip"))))
  /\ (forall data : list Z,
     b64decode (List.filter significant data) = b64decode data)
  /\ (forall body tail : list Z,
     Forall (fun c => c <> BASE64_PAD) body ->
     Forall (fun c => in_alphabet c = false) tail ->
     let n := count_alphabet body mod 4 in
     let k := count_pads tail in
     match b64decode (body ++ tail) with
     | inr _ => n = 0 \/ (n = 2 /\ 2 <= k) \/ (n = 3 /\ 1 <= k)
     | inl InvalidLength => n = 1
     | inl IncorrectPadding => (n = 2 /\ k < 2) \/ (n = 3 /\ k = 0)
     | inl NonAscii => False
     end)
  /\ (forall body rest : list Z,
     Forall (fun c => c <> BASE64_PAD) body ->
     let n := count_alphabet body mod 4 in
     (n = 3 -> b64decode (body ++ BASE64_PAD :: rest) = b64decode (body ++ [BASE64_PAD]))
     /\ (n = 2 ->
         b64decode (body ++ BASE64_PAD :: BASE64_PAD :: rest)
         = b64decode (body ++ [BASE64_PAD; BASE64_PAD]))
     /\ (n = 0 \/ n = 1 ->
         b64decode (body ++ BASE64_PAD :: rest) = b64decode (body ++ rest))
     /\ (n = 2 -> forall c, in_alphabet c = true ->
         b64decode (body ++ BASE64_PAD :: c :: rest) = b64decode (body ++ c :: rest)))
  /\ (forall data : str,
     Forall (fun c => in_alphabet c = true) data ->
     Z.of_nat (List.length data) mod 4 <> 0 ->
     is_error (two_pass_decode data))
  /\ (forall data : str,
     forallb (fun c => c <? 128) data = false ->
     two_pass_decode data = inl NonAscii)
  /\ (forall data : str,
     forallb (fun c => c <? 128) data = true ->
     two_pass_decode data
     = match b64decode data with
       | inl e => inl e
       | inr decoded1 => b64decode decoded1
       end)
  /\ (forall decoded1 : bytes,
     Forall is_byte decoded1 ->
     two_pass_decode (b64encode decoded1) = b64decode decoded1)
  /\ (forall (output_dir : Path) (data : str) (writer : FileWriter),
     is_error (two_pass_decode data) ->
     is_error (snd (decode_iso output_dir (inr data) writer))).
Proof.
  split; [exact two_pass_roundtrip|].
  split.
  { intros output_dir b Hb. unfold decode_iso.
    assert (Hb' : Forall is_byte (b64encode b)).
    { eapply Forall_impl; [apply b64encode_ascii, Hb|]. unfold is_byte. simpl. lia. }
    rewrite (b64decode_str_b64encode _ Hb'), (b64decode_b64encode _ Hb). reflexivity. }
  split; [intros data; apply a2b_ignores_junk|].
  split; [exact b64decode_outcome|].
  split; [exact b64decode_pads|].
  split.
  { intros data Hall Hmod. unfold two_pass_decode, b64decode_str.
    assert (Herr : is_error (b64decode data)).
    { apply a2b_truncated; [lia | exact Hall | exact Hmod]. }
    destruct (forallb _ data); [|exact I].
    destruct (b64decode data); [exact I | destruct Herr]. }
  split.
  { intros data Hna. unfold two_pass_decode, b64decode_str. rewrite Hna. reflexivity. }
  split.
  { intros data Ha. unfold two_pass_decode, b64decode_str. rewrite Ha. reflexivity. }
  split.
  { intros decoded1 Hb. unfold two_pass_decode.
    rewrite (b64decode_str_b64encode _ Hb). reflexivity. }
  exact decode_iso_error.
Qed.

End DecodeFacts.

Lemma two_pass_decode_witness :
  two_pass_decode (b64encode (b64encode (py "payload"))) = inr (py "payload")
  /\ is_error (two_pass_decode (py "WVE9P"))
  /\ b64decode (py "YQ=") = inl IncorrectPadding.
Proof.
  destruct (two_pass_decode_roundtrip_and_errors (PL := ListPath))
    as (Hround & _ & _ & Hout & _ & Htrunc & _).
  split; [|split].
  - apply Hround. apply Forall_forall. intros x Hx. vm_compute in Hx.
    repeat (apply elem_of_cons in Hx as [->|Hx]; [unfold is_byte; lia|]).
    inversion Hx.
  - apply Htrunc.
    + apply Forall_forall. intros x Hx. vm_compute in Hx.
      repeat (apply elem_of_cons in Hx as [->|Hx]; [reflexivity|]).
      inversion Hx.
    + discriminate.
  - pose proof (Hout (py "YQ") (py "=")) as H.
    change (py "YQ" ++ py "=") with (py "YQ=") in H.
    destruct (b64decode (py "YQ=")) as [[| |]|out].
    + reflexivity.
    + exfalso. assert (H' : count_alphabet (py "YQ") mod 4 = 1).
      { apply H; repeat (apply Forall_cons_2; [first [discriminate | reflexivity]|]);
          apply Forall_nil_2. }
      discriminate H'.
    + exfalso. apply H; repeat (apply Forall_cons_2; [first [discriminate | reflexivity]|]);
        apply Forall_nil_2.
    + exfalso.
      assert (H' : count_alphabet (py "YQ") mod 4 = 0
                   \/ (count_alphabet (py "YQ") mod 4 = 2 /\ 2 <= count_pads (py "="))
                   \/ (count_alphabet (py "YQ") mod 4 = 3 /\ 1 <= count_pads (py "="))).
      { apply H; repeat (apply Forall_cons_2; [first [discriminate | reflexivity]|]);
          apply Forall_nil_2. }
      vm_compute in H'. destruct H' as [H'|[[_ H']|[H' _]]];
        first [discriminate H' | apply H'; reflexivity].
Defined.

(** *** download_iso *)

(** [requests.Response], reduced to the body and the text the library decodes
    from it with the declared or detected charset. *)
Record Response := mkResponse {
  content : bytes;
  text : str;
}.

(** A response whose charset is ISO-8859-1 (what the library assumes for
    [text/*] without a charset): every octet is its own code point. *)
Definition latin1_response (body : bytes) : Response :=
  {| content := body; text := body |}.

(** The UTF-8 encoding of one code point; surrogates cannot be encoded. *)
Definition utf8_encode_char (c : Z) : option bytes :=
  if c <? 0 then None
  else if c <? 128 then Some [c]
  else if c <? 2048 then
    Some [Z.lor 192 (Z.shiftr c 6); Z.lor 128 (Z.land c 63)]
  else if c <? 65536 then
    if (55296 <=? c) && (c <=? 57343) then None
    else Some [Z.lor 224 (Z.shiftr c 12); Z.lor 128 (Z.land (Z.shiftr c 6) 63);
               Z.lor 128 (Z.land c 63)]
  else if c <? 1114112 then
    Some [Z.lor 240 (Z.shiftr c 18); Z.lor 128 (Z.land (Z.shiftr c 12) 63);
          Z.lor 128 (Z.land (Z.shiftr c 6) 63); Z.lor 128 (Z.land c 63)]
  else None.

Fixpoint utf8_encode (s : str) : option bytes :=
  match s with
  | [] => Some []
  | c :: rest =>
      match utf8_encode_char c, utf8_encode rest with
      | Some b, Some bs => Some (b ++ bs)
      | _, _ => None
      end
  end.

(** Writing in text mode: every line feed becomes [os.linesep]. *)
Definition translate_newlines (linesep : str) (s : str) : str :=
  flat_map (fun c => if c =? 10 then linesep else [c]) s.

(** [url.rsplit('/', 1)[-1]]: what follows the last ['/'], the whole text
    when there is none. *)
Fixpoint until_slash (s : str) : str :=
  match s with
  | [] => []
  | c :: rest => if c =? 47 then [] else c :: until_slash rest
  end.

Definition rsplit_last (url : str) : str := rev (until_slash (rev url)).

Section Download.
Context {PL : PathLib}.

(** [os.linesep] of the platform. *)
Variable linesep : str.

(** [ISODownloader.download_iso]: [fetch] is what [download_with_user_agent]
    gives.  The result lists the file created or emptied with the octets it
    holds afterwards, and carries the path returned or the exception raised
    again.  The file is open when the text is encoded: a text that cannot be
    encoded leaves it empty. *)
Definition download_iso (url : str) (output_dir : Path) (fetch : exn + Response)
    (writer : FileWriter) : list (Path * bytes) * (exn + Path) :=
  match fetch with
  | inl e => ([], inl e)
  | inr response =>
      let filename := rsplit_last url in
      let output_path := joinpath output_dir filename in
      match open_file writer output_path with
      | Some e => ([], inl e)
      | None =>
          match utf8_encode (translate_newlines linesep (text response)) with
          | None => ([(output_path, [])], inl (py "UnicodeEncodeError"))
          | Some octets =>
              match write_file writer output_path octets with
              | Some (e, partial) => ([(output_path, partial)], inl e)
              | None => ([(output_path, octets)], inr output_path)
              end
          end
      end
  end.

End Download.

Lemma utf8_encode_ascii (s : str) :
  Forall (fun c => 0 <= c < 128) s -> utf8_encode s = Some s.
Proof.
  induction 1 as [|c s Hc _ IH]; simpl; [reflexivity|].
  rewrite IH. unfold utf8_encode_char.
  destruct (Z.ltb_spec c 0); [lia|]. destruct (Z.ltb_spec c 128); [reflexivity | lia].
Qed.

Lemma translate_newlines_id (linesep s : str) :
  linesep = [10] \/ 10 ∉ s -> translate_newlines linesep s = s.
Proof.
  intros H. unfold translate_newlines. induction s as [|c s IH]; simpl; [reflexivity|].
  rewrite IH.
  - destruct (Z.eqb_spec c 10) as [->|Hc]; [|reflexivity].
    destruct H as [->|H]; [reflexivity|]. exfalso. apply H. left.
  - destruct H as [H|H]; [left; exact H|]. right. intros Hin. apply H. right. exact Hin.
Qed.

Example utf8_encode_latin1 : utf8_encode [233; 8364] = Some [195; 169; 226; 130; 172].
Proof. reflexivity. Qed.

Example rsplit_last_url : rsplit_last (py "http://x.com/a/payload.iso") = py "payload.iso".
Proof. reflexivity. Qed.

(** A body of the single octet 0xE9, served as ISO-8859-1, is written as the
    two octets 0xC3 0xA9: the file differs from the body. *)
Lemma download_iso_not_verbatim :
  fst (download_iso (PL := ListPath) [10] (py "http://x.com/payload.iso") [py "iso"]
         (inr (latin1_response [233])) good_writer)
    = [([py "iso"; py "payload.iso"], [195; 169])]
  /\ [195; 169] <> content (latin1_response [233]).
Proof. split; [reflexivity | discriminate]. Qed.

Section DownloadFacts.
Context {PL : PathLib}.

(** C9, as the code has it.  After a successful fetch the file
    [output_dir / name], [name] being what follows the last ['/'] of the URL,
    receives the UTF-8 encoding of the decoded text of the response, line
    feeds translated to the line separator.  Its octets are those of the
    body when the body is ASCII text decoded as such and line feeds are
    written unchanged. *)
Theorem download_iso_writes_text (linesep url : str) (output_dir : Path)
    (response : Response) (writer : FileWriter) (octets : bytes) :
  utf8_encode (translate_newlines linesep (text response)) = Some octets ->
  open_file writer (joinpath output_dir (rsplit_last url)) = None ->
  write_file writer (joinpath output_dir (rsplit_last url)) octets = None ->
  download_iso linesep url output_dir (inr response) writer
    = ([(joinpath output_dir (rsplit_last url), octets)],
       inr (joinpath output_dir (rsplit_last url)))
  /\ (text response = content response ->
      Forall (fun c => 0 <= c < 128) (content response) ->
      linesep = [10] \/ 10 ∉ content response ->
      octets = content response).
Proof.
  intros Henc Hopen Hwrite. unfold download_iso. rewrite Hopen, Henc, Hwrite.
  split; [reflexivity|].
  intros Htext Hascii Hnl. rewrite Htext, translate_newlines_id in Henc by exact Hnl.
  rewrite utf8_encode_ascii in Henc by exact Hascii. congruence.
Qed.

End DownloadFacts.

Lemma download_iso_writes_text_witness :
  download_iso (PL := ListPath) [13; 10] (py "http://x.com/payload.iso") [py "iso"]
    (inr (latin1_response (py "WVE9PQ=="))) good_writer
  = ([([py "iso"; py "payload.iso"], py "WVE9PQ==")],
     inr [py "iso"; py "payload.iso"]).
Proof.
  exact (proj1 (download_iso_writes_text (PL := ListPath) [13; 10]
                  (py "http://x.com/payload.iso") [py "iso"]
                  (latin1_response (py "WVE9PQ==")) good_writer
                  (py "WVE9PQ==") eq_refl eq_refl eq_refl)).
Defined.

End IsoHandler.

(** ** core.py *)

Module Core.

(** *** The cache path *)

Section Cache.
Context {PL : PathLib}.

(** [Py_UNICODE_ISALNUM] for the characters outside ASCII, from the Unicode
    tables of the language. *)
Variable unicode_isalnum : Z -> bool.

(** [config.cache_dir] *)
Variable cache_dir : Path.

(** [\w] in a [str] pattern: a letter or a digit of any script, or the
    underscore. *)
Definition word_char (c : Z) : bool :=
  ((48 <=? c) && (c <=? 57)) || ((65 <=? c) && (c <=? 90))
  || ((97 <=? c) && (c <=? 122)) || (c =? 95)
  || ((128 <=? c) && unicode_isalnum c).

(** The characters the class [[^\w\-_\.]] does not match. *)
Definition kept_char (c : Z) : bool :=
  word_char c || (c =? 45) || (c =? 95) || (c =? 46).

(** [re.sub(r'[^\w\-_\.]', '_', url)] *)
Definition safe_name (url : str) : str :=
  map (fun c => if kept_char c then c else 95) url.

(** [get_cache_path] *)
Definition get_cache_path (url : str) : Path :=
  let safe_name := safe_name url in
  let safe_name :=
    if (100 <? Z.of_nat (List.length safe_name)) then take 100 safe_name else safe_name in
  joinpath cache_dir safe_name.

(** The file name the specification describes: every character that is not a
    word character replaced by an underscore, at most 100 characters. *)
Definition claimed_cache_name (url : str) : str :=
  take 100 (map (fun c => if word_char c then c else 95) url).

End Cache.

(** *** Session directories *)

(** A path is the list of its parts, as in [PosixPath]; the file system maps
    the paths of its entries to what they hold, and has no links. *)
Abbreviation path := (list str).

Inductive node :=
  | File (data : bytes)
  | Dir.

#[export] Instance node_eq_dec : EqDecision node.
Proof. solve_decision. Defined.

Inductive LogLevel := INFO | WARNING.

Inductive LogMessage :=
  | SkippingCleanup (session_id : str) (debug_files : list path)
  | CleanedUp (temp_dir : path)
  | CouldNotCleanup (temp_dir : path) (e : exn).

(** The file system and the records emitted on the logger. *)
Record World := mkWorld {
  fs : gmap path node;
  log : list (LogLevel * LogMessage);
}.

(** The operations of the file system that fail in this call, with the
    exception each raises: [temp_dir.exists()], which stands before the
    [try] block, [manifest_file.exists()], the update of the manifest,
    [rglob] and [rmtree]; a failing [rmtree] is taken to fail before it
    removes anything. *)
Record Faults := mkFaults {
  exists_fails : option exn;
  manifest_exists_fails : option exn;
  append_fails : option exn;
  rglob_fails : option exn;
  rmtree_fails : option exn;
}.

Definition no_faults : Faults :=
  {| exists_fails := None; manifest_exists_fails := None; append_fails := None;
     rglob_fails := None; rmtree_fails := None |}.

(** [p.exists()] *)
Definition exists_ (fs : gmap path node) (p : path) : bool :=
  bool_decide (is_Some (fs !! p)).

(** [name] ends with [suffix]. *)
Definition endswith (suffix name : str) : bool :=
  bool_decide (suffix `suffix_of` name).

(** [dir.rglob("*.debug")]: the entries below [dir], at any depth, whose name
    ends with [.debug]. *)
Definition rglob_debug (fs : gmap path node) (dir : path) : list path :=
  List.filter
    (fun p => bool_decide (dir `prefix_of` p) && negb (bool_decide (p = dir))
              && endswith (py ".debug") (List.last p []))
    (elements (dom fs)).

(** [shutil.rmtree(dir)]: [dir] and everything below it is removed. *)
Definition rmtree (fs : gmap path node) (dir : path) : gmap path node :=
  filter (fun kv => ~ dir `prefix_of` kv.1) fs.

(** [open(p, "a", encoding="utf-8")] and [f.write(s)]. *)
Definition append_text (faults : Faults) (fs : gmap path node) (p : path) (s : str)
    : exn + gmap path node :=
  match append_fails faults with
  | Some e => inl e
  | None =>
      match fs !! p, IsoHandler.utf8_encode s with
      | Some (File data), Some octets => inr (<[p := File (data ++ octets)]> fs)
      | Some (File _), None => inl (py "UnicodeEncodeError")
      | _, _ => inl (py "IsADirectoryError")
      end
  end.

Section Cleanup.

(** [config.temp_dir] *)
Variable temp_root : path.

Definition warn (temp_dir : path) (e : exn) (fs : gmap path node)
    (log : list (LogLevel * LogMessage)) : World :=
  {| fs := fs; log := log ++ [(WARNING, CouldNotCleanup temp_dir e)] |}.

(** The end of the [try] block: [shutil.rmtree] and the record of it. *)
Definition remove_session (faults : Faults) (temp_dir : path) (fs : gmap path node)
    (log : list (LogLevel * LogMessage)) : World :=
  match rmtree_fails faults with
  | Some e => warn temp_dir e fs log
  | None => {| fs := rmtree fs temp_dir; log := log ++ [(INFO, CleanedUp temp_dir)] |}
  end.

(** The update of the manifest with the cleanup time, first in the [try]
    block; [now] is [datetime.now().isoformat()]. *)
Definition update_manifest (faults : Faults) (now : str) (temp_dir : path)
    (fs : gmap path node) : exn + gmap path node :=
  let manifest_file := temp_dir ++ [py "session_manifest.txt"] in
  match manifest_exists_fails faults with
  | Some e => inl e
  | None =>
      if exists_ fs manifest_file then
        append_text faults fs manifest_file ([10] ++ py "Cleaned up: " ++ now ++ [10])
      else inr fs
  end.

(** The [try] block of [cleanup_session_temp_dir] with its handler, which
    logs a warning and returns. *)
Definition cleanup_try (faults : Faults) (now : str) (temp_dir : path)
    (session_id : str) (force : bool) (w : World) : World :=
  match update_manifest faults now temp_dir (fs w) with
  | inl e => warn temp_dir e (fs w) (log w)
  | inr fs1 =>
      if negb force then
        match rglob_fails faults with
        | Some e => warn temp_dir e fs1 (log w)
        | None =>
            let debug_files := rglob_debug fs1 temp_dir in
            match debug_files with
            | _ :: _ =>
                {| fs := fs1;
                   log := log w ++ [(INFO, SkippingCleanup session_id debug_files)] |}
            | [] => remove_session faults temp_dir fs1 (log w)
            end
        end
      else remove_session faults temp_dir fs1 (log w)
  end.

(** [cleanup_session_temp_dir]: the world after the call and the exception
    raised, if any.  The session directory is [config.temp_dir / session_id];
    the test that it exists stands before the [try] block, and an exception
    it raises leaves the call. *)
Definition cleanup_session_temp_dir (faults : Faults) (now : str)
    (session_id : str) (force : bool) (w : World) : World * option exn :=
  let temp_dir := PosixPath.truediv temp_root session_id in
  match exists_fails faults with
  | Some e => (w, Some e)
  | None =>
      if exists_ (fs w) temp_dir
      then (cleanup_try faults now temp_dir session_id force w, None)
      else (w, None)
  end.

End Cleanup.

(** *** Properties of the cache path *)

Lemma lookup_map {A B} (f : A -> B) (l : list A) (i : nat) :
  map f l !! i = f <$> (l !! i).
Proof. revert i. induction l as [|x l IH]; intros [|i]; simpl; auto. Qed.

Section CacheFacts.
Context {PL : PathLib}.
Variable unicode_isalnum : Z -> bool.
Variable cache_dir : Path.

(** C8, as the code has it.  The cache path is a function of the URL: the
    cache directory joined with the URL in which every character other than
    a word character, a hyphen or a dot is replaced by an underscore, cut to
    its first 100 characters. *)
Theorem get_cache_path_sanitized (url : str) :
  let name := take 100 (safe_name unicode_isalnum url) in
  get_cache_path unicode_isalnum cache_dir url = joinpath cache_dir name
  /\ List.length name = Nat.min 100 (List.length url)
  /\ Forall (fun c => kept_char unicode_isalnum c = true) name
  /\ forall (i : nat) (c : Z),
       (i < 100)%nat -> url !! i = Some c ->
       name !! i = Some (if kept_char unicode_isalnum c then c else 95).
Proof.
  intros name. subst name. split; [|split; [|split]].
  - unfold get_cache_path. destruct (Z.ltb_spec 100 (Z.of_nat (List.length (safe_name unicode_isalnum url)))).
    + reflexivity.
    + rewrite take_ge by lia. reflexivity.
  - rewrite length_take. unfold safe_name. rewrite length_map. reflexivity.
  - apply Forall_take. unfold safe_name. apply Forall_forall. intros c Hc.
    apply list_elem_of_In, in_map_iff in Hc as (x & <- & _).
    destruct (kept_char unicode_isalnum x) eqn:E; [exact E | reflexivity].
  - intros i c Hi Hc. rewrite lookup_take_lt by exact Hi.
    unfold safe_name. rewrite lookup_map. unfold str in *. rewrite Hc. reflexivity.
Qed.
End CacheFacts.

(** The dot and the hyphen of ["a.b-c"] are not word characters and are
    kept. *)
Lemma cache_name_keeps_dot :
  get_cache_path (PL := ListPath) (fun _ => false) [py "cache"] (py "a.b-c")
    = [py "cache"; py "a.b-c"]
  /\ claimed_cache_name (fun _ => false) (py "a.b-c") = py "a_b_c"
  /\ get_cache_path (PL := ListPath) (fun _ => false) [py "cache"] (py "a.b-c")
     <> joinpath (PathLib := ListPath) [py "cache"] (claimed_cache_name (fun _ => false) (py "a.b-c")).
Proof. split; [reflexivity|]. split; [reflexivity|]. discriminate. Qed.

(** *** Properties of the cleanup *)

Lemma rmtree_lookup (fs : gmap path node) (dir p : path) :
  rmtree fs dir !! p = if decide (dir `prefix_of` p) then None else fs !! p.
Proof.
  unfold rmtree. destruct (decide (dir `prefix_of` p)) as [Hp|Hp].
  - apply map_lookup_filter_None. right. intros x _ Hn. apply Hn. exact Hp.
  - destruct (fs !! p) as [x|] eqn:E.
    + apply map_lookup_filter_Some. split; [exact E | exact Hp].
    + apply map_lookup_filter_None. left. exact E.
Qed.

Section CleanupFacts.
Variable temp_root : path.

Lemma update_manifest_keeps (faults : Faults) (now : str) (temp_dir : path)
    (fs fs1 : gmap path node) :
  update_manifest faults now temp_dir fs = inr fs1 ->
  dom fs1 = dom fs
  /\ forall p, p <> temp_dir ++ [py "session_manifest.txt"] -> fs1 !! p = fs !! p.
Proof.
  unfold update_manifest, append_text, exists_.
  destruct (manifest_exists_fails faults); [discriminate|].
  case_bool_decide as Hex; [|intros [= <-]; auto].
  destruct (append_fails faults); [discriminate|].
  destruct (fs !! _) as [[data|]|] eqn:E; try discriminate.
  destruct (IsoHandler.utf8_encode _); [|discriminate].
  intros [= <-]. split.
  - rewrite dom_insert_L. apply (elem_of_dom_2 (D := gset path)) in E.
    apply subseteq_union_1_L, singleton_subseteq_l, E.
  - intros p Hp. apply lookup_insert_ne. congruence.
Qed.

Lemma rglob_debug_dom (fs fs1 : gmap path node) (dir : path) :
  dom fs1 = dom fs -> rglob_debug fs1 dir = rglob_debug fs dir.
Proof. unfold rglob_debug. intros ->. reflexivity. Qed.

(** The marker test reads the directory as it was before the call. *)
Definition marker_present (fs : gmap path node) (temp_dir : path) : bool :=
  match rglob_debug fs temp_dir with [] => false | _ :: _ => true end.

(** When the existence test does not raise, the call is the [try] block on
    an existing directory and nothing otherwise. *)
Lemma cleanup_unfold faults now session_id force w :
  exists_fails faults = None ->
  cleanup_session_temp_dir temp_root faults now session_id force w
  = (if exists_ (fs w) (PosixPath.truediv temp_root session_id)
     then cleanup_try faults now (PosixPath.truediv temp_root session_id)
            session_id force w
     else w, None).
Proof.
  intros H. unfold cleanup_session_temp_dir. rewrite H.
  destruct (exists_ _ _); reflexivity.
Qed.

Lemma cleanup_absent faults now session_id force w :
  exists_ (fs w) (PosixPath.truediv temp_root session_id) = false ->
  (cleanup_session_temp_dir temp_root faults now session_id force w).1 = w.
Proof.
  intros H. unfold cleanup_session_temp_dir. rewrite H.
  destruct (exists_fails faults); reflexivity.
Qed.

(** Without a marker, or with [force], the directory and everything below it
    is removed, and nothing outside it is touched. *)
Lemma cleanup_removes faults now session_id force w fs1 :
  let temp_dir := PosixPath.truediv temp_root session_id in
  exists_fails faults = None ->
  exists_ (fs w) temp_dir = true ->
  update_manifest faults now temp_dir (fs w) = inr fs1 ->
  rglob_fails faults = None -> rmtree_fails faults = None ->
  force = true \/ marker_present (fs w) temp_dir = false ->
  let out := cleanup_session_temp_dir temp_root faults now session_id force w in
  (forall p, temp_dir `prefix_of` p -> fs out.1 !! p = None)
  /\ (forall p, ~ temp_dir `prefix_of` p -> fs out.1 !! p = fs w !! p)
  /\ log out.1 = log w ++ [(INFO, CleanedUp temp_dir)]
  /\ out.2 = None.
Proof.
  intros temp_dir Hexf Hex Hup Hrg Hrm Hcase out. subst out.
  destruct (update_manifest_keeps _ _ _ _ _ Hup) as [Hdom Hsame].
  assert (Hrun : cleanup_session_temp_dir temp_root faults now session_id force w
                 = ({| fs := rmtree fs1 temp_dir;
                       log := log w ++ [(INFO, CleanedUp temp_dir)] |}, None)).
  { rewrite cleanup_unfold by exact Hexf. fold temp_dir. rewrite Hex.
    unfold cleanup_try. rewrite Hup.
    unfold remove_session. rewrite Hrm, Hrg.
    destruct force; simpl; [reflexivity|].
    destruct Hcase as [?|Hm]; [discriminate|].
    unfold marker_present in Hm. rewrite (rglob_debug_dom _ _ _ Hdom).
    destruct (rglob_debug (fs w) temp_dir); [reflexivity | discriminate]. }
  rewrite Hrun. simpl. repeat split.
  - intros p Hp. rewrite rmtree_lookup. destruct (decide _); [reflexivity | contradiction].
  - intros p Hp. rewrite rmtree_lookup. destruct (decide _); [contradiction|].
    apply Hsame. intros ->. apply Hp. apply prefix_app_r. reflexivity.
Qed.

(** With a marker and without [force], nothing is removed: every entry other
    than the manifest is as before, and the manifest, when it is a file, has
    received the line that says the directory was cleaned up. *)
Lemma cleanup_skips faults now session_id w fs1 :
  let temp_dir := PosixPath.truediv temp_root session_id in
  exists_fails faults = None ->
  exists_ (fs w) temp_dir = true ->
  update_manifest faults now temp_dir (fs w) = inr fs1 ->
  rglob_fails faults = None ->
  marker_present (fs w) temp_dir = true ->
  let out := cleanup_session_temp_dir temp_root faults now session_id false w in
  fs out.1 = fs1
  /\ dom (fs out.1) = dom (fs w)
  /\ (forall p, p <> temp_dir ++ [py "session_manifest.txt"] -> fs out.1 !! p = fs w !! p)
  /\ log out.1 = log w ++ [(INFO, SkippingCleanup session_id (rglob_debug (fs w) temp_dir))]
  /\ out.2 = None.
Proof.
  intros temp_dir Hexf Hex Hup Hrg Hm out. subst out.
  destruct (update_manifest_keeps _ _ _ _ _ Hup) as [Hdom Hsame].
  rewrite cleanup_unfold by exact Hexf. fold temp_dir. rewrite Hex.
  unfold cleanup_try. rewrite Hup, Hrg. simpl.
  rewrite (rglob_debug_dom _ _ _ Hdom). unfold marker_present in Hm.
  destruct (rglob_debug (fs w) temp_dir); [discriminate|]. simpl. auto.
Qed.

(** The [try] block returns with its last record in the log. *)
Lemma cleanup_try_logs faults now temp_dir session_id force w :
  let w' := cleanup_try faults now temp_dir session_id force w in
  (exists e, last (log w') = Some (WARNING, CouldNotCleanup temp_dir e))
  \/ (exists files, last (log w') = Some (INFO, SkippingCleanup session_id files))
  \/ last (log w') = Some (INFO, CleanedUp temp_dir).
Proof.
  intros w'. subst w'. unfold cleanup_try.
  destruct (update_manifest _ _ _ _) as [e|fs1]; simpl.
  { left. exists e. apply last_snoc. }
  assert (Hrm : forall l, (exists e, last (log (remove_session faults temp_dir fs1 l))
                              = Some (WARNING, CouldNotCleanup temp_dir e))
                \/ last (log (remove_session faults temp_dir fs1 l))
                   = Some (INFO, CleanedUp temp_dir)).
  { intros l. unfold remove_session. destruct (rmtree_fails faults) as [e|]; simpl.
    - left. exists e. apply last_snoc.
    - right. apply last_snoc. }
  destruct force; simpl.
  { destruct (Hrm (log w)) as [H|H]; auto. }
  destruct (rglob_fails faults) as [e|]; simpl.
  { left. exists e. apply last_snoc. }
  destruct (rglob_debug fs1 temp_dir) as [|f fsx]; simpl.
  - destruct (Hrm (log w)) as [H|H]; auto.
  - right. left. eexists. apply last_snoc.
Qed.

(** X16. The call raises only the exception of the existence test that stands
    before the [try] block, and then it has changed nothing.  Every failure
    inside the [try] block is caught: the call returns, and it has left the
    world as it was (no session directory) or its last record in the log is
    the warning of the failure, the notice that the cleanup is skipped, or
    the notice that the directory was cleaned up. *)
Lemma cleanup_failure_is_logged faults now session_id force w :
  let temp_dir := PosixPath.truediv temp_root session_id in
  let out := cleanup_session_temp_dir temp_root faults now session_id force w in
  match out.2 with
  | Some e => exists_fails faults = Some e /\ out.1 = w
  | None =>
      exists_fails faults = None
      /\ (out.1 = w
          \/ (exists e, last (log out.1) = Some (WARNING, CouldNotCleanup temp_dir e))
          \/ (exists files, last (log out.1) = Some (INFO, SkippingCleanup session_id files))
          \/ last (log out.1) = Some (INFO, CleanedUp temp_dir))
  end.
Proof.
  intros temp_dir out. subst out. unfold cleanup_session_temp_dir. fold temp_dir.
  destruct (exists_fails faults) as [e|]; [split; reflexivity|].
  destruct (exists_ (fs w) temp_dir); cbn [fst snd]; (split; [reflexivity|]);
    [|left; reflexivity].
  right. apply cleanup_try_logs.
Qed.

End CleanupFacts.

(** A session directory with its manifest and a retention marker. *)
Definition demo_world : World :=
  {| fs := <[ [py "temp"; py "session_1"] := Dir ]>
           (<[ [py "temp"; py "session_1"; py "session_manifest.txt"]
                 := File (py "Session ID: session_1") ]>
           (<[ [py "temp"; py "session_1"; py ".debug"] := File [] ]> ∅));
     log := [] |}.

Definition demo_after : World :=
  (cleanup_session_temp_dir [py "temp"] no_faults (py "2025-01-01T00:00:00")
     (py "session_1") false demo_world).1.

(** C7, at a session directory that holds a retention marker, with
    [force=False]: the directory stays, and the call is not a no-op, the
    manifest has received a line that says the directory was cleaned up. *)
Theorem cleanup_with_marker_rewrites_manifest :
  marker_present (fs demo_world) [py "temp"; py "session_1"] = true
  /\ fs demo_after !! [py "temp"; py "session_1"; py "session_manifest.txt"]
     = Some (File (py "Session ID: session_1" ++ [10]
                   ++ py "Cleaned up: 2025-01-01T00:00:00" ++ [10]))
  /\ fs demo_world !! [py "temp"; py "session_1"; py "session_manifest.txt"]
     = Some (File (py "Session ID: session_1"))
  /\ fs demo_after !! [py "temp"; py "session_1"] = Some Dir
  /\ demo_after <> demo_world.
Proof.
  assert (H1 : fs demo_after !! [py "temp"; py "session_1"; py "session_manifest.txt"]
     = Some (File (py "Session ID: session_1" ++ [10]
                   ++ py "Cleaned up: 2025-01-01T00:00:00" ++ [10]))) by (vm_compute; reflexivity).
  assert (H2 : fs demo_world !! [py "temp"; py "session_1"; py "session_manifest.txt"]
     = Some (File (py "Session ID: session_1"))) by (vm_compute; reflexivity).
  split; [vm_compute; reflexivity|]. split; [exact H1|]. split; [exact H2|].
  split; [vm_compute; reflexivity|].
  intros Heq. rewrite Heq, H2 in H1. discriminate H1.
Qed.

End Core.

(** ** extractor.py *)

Module Extractor.

(** *** The regular expression of [find_dll_files]

    The pattern is the literal [<CustomAction], any run of characters other
    than [>], the literal [BinaryKey=] and a double quote, a captured run of
    one or more characters other than the double quote, a double quote, any
    run of characters other than [>], and the literal [DllEntry=] with the
    quoted name [VIPS0033939]; the flag is [re.IGNORECASE].  It is matched
    the way the backtracking engine does: every
    repetition first takes as many characters as it can and gives them back
    one at a time while the rest of the pattern fails. *)

Section Regex.

(** Whether a character of the pattern matches a character of the text when
    case is ignored, from the Unicode tables of the language. *)
Variable ci_eq : Z -> Z -> bool.

(** A literal of the pattern at the start of the text: the rest of the text
    when it matches. *)
Fixpoint lit (l : str) (s : str) : option str :=
  match l, s with
  | [], _ => Some s
  | _ :: _, [] => None
  | a :: l', c :: s' => if ci_eq a c then lit l' s' else None
  end.

(** A starred character class followed by the continuation [k]: the longest
    run first. *)
Fixpoint star {R} (p : Z -> bool) (k : str -> option R) (s : str) : option R :=
  match s with
  | c :: s' =>
      if p c then
        match star p k s' with
        | Some r => Some r
        | None => k s
        end
      else k s
  | [] => k s
  end.

(** A starred class inside a group, with the characters taken so far in
    [taken], last first; the continuation receives the captured text. *)
Fixpoint star_capture {R} (p : Z -> bool) (k : str -> str -> option R)
    (taken : str) (s : str) : option R :=
  match s with
  | c :: s' =>
      if p c then
        match star_capture p k (c :: taken) s' with
        | Some r => Some r
        | None => k (rev taken) s
        end
      else k (rev taken) s
  | [] => k (rev taken) s
  end.

(** A group of one or more characters of a class. *)
Definition plus_capture {R} (p : Z -> bool) (k : str -> str -> option R)
    (s : str) : option R :=
  match s with
  | c :: s' => if p c then star_capture p k [c] s' else None
  | [] => None
  end.

Definition not_gt (c : Z) : bool := negb (c =? 62).
Definition not_quote (c : Z) : bool := negb (c =? 34).

(** The double quote, and the three literals of the pattern that hold it. *)
Definition dquote : str := [34].
Definition lit_binary_key : str := py "BinaryKey=" ++ dquote.
Definition lit_dll_entry : str := py "DllEntry=" ++ dquote ++ py "VIPS0033939" ++ dquote.

(** A match of the whole pattern at the start of the text: the captured key
    and the text after the match. *)
Definition match_here (s : str) : option (str * str) :=
  match lit (py "<CustomAction") s with
  | None => None
  | Some s1 =>
      star not_gt (fun s2 =>
        match lit lit_binary_key s2 with
        | None => None
        | Some s3 =>
            plus_capture not_quote (fun key s4 =>
              match lit dquote s4 with
              | None => None
              | Some s5 =>
                  star not_gt (fun s6 =>
                    match lit lit_dll_entry s6 with
                    | None => None
                    | Some s7 => Some (key, s7)
                    end) s5
              end) s3
        end) s1
  end.

(** [re.findall]: the keys of the matches, left to right, without overlap;
    [skip] counts the characters of the last match still to pass. *)
Fixpoint findall_from (skip : nat) (s : str) : list str :=
  match s with
  | [] => []
  | _ :: s' =>
      match skip with
      | S n => findall_from n s'
      | O =>
          match match_here s with
          | Some (key, rest) =>
              key :: findall_from (List.length s - List.length rest - 1) s'
          | None => findall_from 0 s'
          end
      end
  end.

Definition findall (content : str) : list str := findall_from 0 content.

End Regex.

(** *** find_dll_files *)

Section FindDll.
Context {PL : PathLib}.

(** What the file system answers: [p.exists()], [p.glob(pattern)],
    [p.rglob(pattern)], and opening and reading a file as UTF-8 text. *)
Record FileSystem := mkFileSystem {
  exists_ : Path -> bool;
  glob : Path -> str -> list Path;
  rglob : Path -> str -> list Path;
  read_text : Path -> exn + str;
}.

Variable fsys : FileSystem.

(** [str.lower] and the case-insensitive match of one character, from the
    Unicode tables of the language. *)
Variable lower : str -> str.
Variable ci_eq : Z -> Z -> bool.

(** The order in which a [set] of strings is walked: some enumeration of its
    elements. *)
Variable set_order : gset str -> list str.

(** The keys one script adds to [malicious_binary_keys]; a script that cannot
    be read adds none (the exception is logged as a warning). *)
Definition keys_of_script (wxs_file : Path) : list str :=
  match read_text fsys wxs_file with
  | inl _ => []
  | inr content =>
      List.filter
        (fun binary_key =>
           truthy_str binary_key
           && negb (bool_decide (lower binary_key ∈ [py "aicustact.dll"])))
        (findall ci_eq content)
  end.

(** [malicious_binary_keys] after the loop over the scripts. *)
Definition malicious_binary_keys (directory : Path) : gset str :=
  let script_dir := joinpath (parent directory) (py "msi_script") in
  let wxs_files :=
    if exists_ fsys script_dir then glob fsys script_dir (py "*.wxs") else [] in
  list_to_set (flat_map keys_of_script wxs_files).

(** [directory / "Binary" / binary_key] *)
Definition binary_path (directory : Path) (binary_key : str) : Path :=
  joinpath (joinpath directory (py "Binary")) binary_key.

(** [dll_files] after the loop over the keys. *)
Definition selected_by_signature (directory : Path) : list Path :=
  List.filter (exists_ fsys)
    (map (binary_path directory) (set_order (malicious_binary_keys directory))).

(** [any(pattern.lower() in dll.name.lower() for pattern in exclude_patterns)] *)
Definition excluded (exclude_patterns : list str) (dll : Path) : bool :=
  existsb (fun pattern => contains (lower pattern) (lower (path_name dll)))
    exclude_patterns.

(** [FileExtractor.find_dll_files] *)
Definition find_dll_files (directory : Path) (exclude_patterns : option (list str))
    : list Path :=
  let dll_files := selected_by_signature directory in
  let dll_files :=
    match dll_files with
    | [] => rglob fsys directory (py "*.dll")
    | _ :: _ => dll_files
    end in
  match exclude_patterns with
  | Some ((_ :: _) as patterns) =>
      List.filter (fun dll => negb (excluded patterns dll)) dll_files
  | _ => dll_files
  end.

End FindDll.

(** *** Properties of the pattern *)

Section RegexFacts.

Variable ci_eq : Z -> Z -> bool.

(** The text [t] matches the literal [l] when case is ignored. *)
Definition ci_lit (l t : str) : Prop := Forall2 (fun a c => ci_eq a c = true) l t.

(** The text is a [CustomAction] start tag that names [key] as its binary and
    the signature as its entry point, up to the closing quote of the entry
    point. *)
Definition signature_action (key text : str) : Prop :=
  exists t1 a t2 t3 b t4,
    text = t1 ++ a ++ t2 ++ key ++ t3 ++ b ++ t4
    /\ ci_lit (py "<CustomAction") t1
    /\ Forall (fun c => c <> 62) a
    /\ ci_lit lit_binary_key t2
    /\ key <> [] /\ Forall (fun c => c <> 34) key
    /\ ci_lit dquote t3
    /\ Forall (fun c => c <> 62) b
    /\ ci_lit lit_dll_entry t4.








End RegexFacts.

(** *** The pattern finds every signature action *)

Section RegexComplete.

Variable ci_eq : Z -> Z -> bool.

Lemma lit_complete (l t r : str) : ci_lit ci_eq l t -> lit ci_eq l (t ++ r) = Some r.
Proof.
  induction 1 as [|a c l t Hac _ IH]; simpl; [reflexivity|]. rewrite Hac. exact IH.
Qed.

Lemma star_fallback {R} (p : Z -> bool) (k : str -> option R) (s : str) :
  is_Some (k s) -> is_Some (star p k s).
Proof.
  intros Hk. destruct s as [|c s]; simpl; [exact Hk|].
  destruct (p c); [|exact Hk]. destruct (star p k s); [eauto | exact Hk].
Qed.

Lemma star_complete {R} (p : Z -> bool) (k : str -> option R) (a s : str) :
  Forall (fun c => p c = true) a -> is_Some (k s) -> is_Some (star p k (a ++ s)).
Proof.
  intros Ha Hk. induction Ha as [|c a Hc _ IH]; simpl; [apply star_fallback, Hk|].
  rewrite Hc. destruct (star p k (a ++ s)); [eauto | destruct IH; discriminate].
Qed.

Lemma star_capture_fallback {R} (p : Z -> bool) (k : str -> str -> option R)
    (taken s : str) :
  is_Some (k (rev taken) s) -> is_Some (star_capture p k taken s).
Proof.
  intros Hk. destruct s as [|c s]; simpl; [exact Hk|].
  destruct (p c); [|exact Hk]. destruct (star_capture p k (c :: taken) s); [eauto | exact Hk].
Qed.

Lemma star_capture_complete {R} (p : Z -> bool) (k : str -> str -> option R)
    (a s : str) : forall taken,
  Forall (fun c => p c = true) a ->
  is_Some (k (rev taken ++ a) s) -> is_Some (star_capture p k taken (a ++ s)).
Proof.
  induction a as [|c a IH]; intros taken Ha Hk; simpl.
  - rewrite app_nil_r in Hk. apply star_capture_fallback, Hk.
  - apply Forall_cons_1 in Ha as [Hc Ha]. rewrite Hc.
    assert (H : is_Some (star_capture p k (c :: taken) (a ++ s))).
    { apply IH; [exact Ha|]. simpl. rewrite <- app_assoc. exact Hk. }
    destruct (star_capture p k (c :: taken) (a ++ s)); [eauto | destruct H; discriminate].
Qed.

Lemma plus_capture_complete {R} (p : Z -> bool) (k : str -> str -> option R)
    (a s : str) :
  a <> [] -> Forall (fun c => p c = true) a ->
  is_Some (k a s) -> is_Some (plus_capture p k (a ++ s)).
Proof.
  intros Hne Ha Hk. destruct a as [|c a]; [contradiction|].
  apply Forall_cons_1 in Ha as [Hc Ha]. simpl. rewrite Hc.
  apply star_capture_complete; [exact Ha | exact Hk].
Qed.

Lemma Forall_not_gt (a : str) :
  Forall (fun c => c <> 62) a -> Forall (fun c => not_gt c = true) a.
Proof.
  intros H. eapply Forall_impl; [exact H|]. intros c Hc. unfold not_gt.
  apply negb_true_iff, Z.eqb_neq, Hc.
Qed.

Lemma Forall_not_quote (a : str) :
  Forall (fun c => c <> 34) a -> Forall (fun c => not_quote c = true) a.
Proof.
  intros H. eapply Forall_impl; [exact H|]. intros c Hc. unfold not_quote.
  apply negb_true_iff, Z.eqb_neq, Hc.
Qed.

Lemma match_here_complete (key text post : str) :
  signature_action ci_eq key text -> is_Some (match_here ci_eq (text ++ post)).
Proof.
  intros (t1 & a & t2 & t3 & b & t4 & -> & H1 & Ha & H2 & Hne & Hkey & H3 & Hb & H4).
  unfold match_here. rewrite <- !app_assoc. rewrite (lit_complete _ _ _ H1).
  apply star_complete; [apply Forall_not_gt, Ha|]. cbv beta.
  rewrite (lit_complete _ _ _ H2).
  apply plus_capture_complete; [exact Hne | apply Forall_not_quote, Hkey|].
  rewrite (lit_complete _ _ _ H3).
  apply star_complete; [apply Forall_not_gt, Hb|]. cbv beta.
  rewrite (lit_complete _ _ _ H4). eauto.
Qed.

(** A script that holds a signature action yields at least one key. *)
Lemma findall_nonempty (content before text after key : str) :
  signature_action ci_eq key text ->
  content = before ++ text ++ after ->
  findall ci_eq content <> [].
Proof.
  intros Hsig ->. unfold findall.
  assert (Hne : exists h t, text ++ after = h :: t).
  { destruct Hsig as (t1 & a & t2 & t3 & b & t4 & -> & H1 & _).
    inversion H1; subst. simpl. eauto. }
  pose proof (match_here_complete key text after Hsig) as [[k r] Hm].
  induction before as [|c before IH]; simpl.
  - destruct Hne as (h & t & Hht). rewrite Hht. simpl. rewrite <- Hht, Hm. discriminate.
  - destruct (match_here ci_eq (c :: before ++ text ++ after)) as [[k' r']|];
      [discriminate | exact IH].
Qed.

Section SignatureKeys.

(** *** The keys of the signature actions of a script

    Every key for which the script holds a signature action is found where
    [BinaryKey=] and a double quote stand: it is the text up to the next
    double quote, when the signature follows before any [>]. *)





(** The double quote has no other case. *)
Hypothesis ci_eq_quote : forall c, ci_eq 34 c = true -> c = 34.






End SignatureKeys.

End RegexComplete.

(** *** Properties of the selection *)


Section FindDllFacts.
Context {PL : PathLib}.

Variable fsys : FileSystem.
Variable lower : str -> str.
Variable ci_eq : Z -> Z -> bool.
Variable set_order : gset str -> list str.
Hypothesis set_order_perm : forall keys, set_order keys ≡ₚ elements keys.









End FindDllFacts.

(** *** An installer with one signature action and one unrelated action *)

(** Case-insensitive match of one ASCII character, for evaluation. *)
Definition ascii_ci_eq (a c : Z) : bool :=
  let fold x := if (65 <=? x) && (x <=? 90) then x + 32 else x in
  fold a =? fold c.

(** The text of a literal written with single quotes for its double
    quotes. *)
Definition wxs (s : string) : str :=
  map (fun c => if c =? 39 then 34 else c) (py s).

Definition demo_script : str :=
  wxs "<Wix><CustomAction Id='a' BinaryKey='benign.dll' DllEntry='Install' /><CustomAction Id='b' BinaryKey='K.dll' DllEntry='VIPS0033939' Execute='deferred' /></Wix>".

Definition demo_directory : list str := [py "work"; py "msi_output"].

Definition demo_fs : FileSystem (PL := ListPath) :=
  @mkFileSystem ListPath
    (fun p : list str =>
       bool_decide (p ∈ [ [py "work"; py "msi_script"];
                          demo_directory ++ [py "Binary"; py "K.dll"];
                          demo_directory ++ [py "Binary"; py "benign.dll"] ]))
    (fun (p : list str) _ =>
       if bool_decide (p = [py "work"; py "msi_script"])
       then [[py "work"; py "msi_script"; py "installer_script.wxs"]] else [])
    (fun _ _ =>
       [ demo_directory ++ [py "Binary"; py "K.dll"];
         demo_directory ++ [py "Binary"; py "benign.dll"];
         demo_directory ++ [py "Binary"; py "aicustact.dll"] ])
    (fun _ => inr demo_script).

Example demo_findall : findall ascii_ci_eq demo_script = [py "K.dll"].
Proof. vm_compute. reflexivity. Qed.

(** Both files exist; only the one of the signature action is returned. *)
Example demo_find_dll_files :
  find_dll_files (PL := ListPath) demo_fs Analyzer.ascii_lower ascii_ci_eq elements
    demo_directory (Some [py "aicustact"])
  = [demo_directory ++ [py "Binary"; py "K.dll"]].
Proof. vm_compute. reflexivity. Qed.

(** Without a script the legacy path returns every [.dll] file that is not
    excluded. *)
Example demo_find_dll_files_legacy :
  find_dll_files (PL := ListPath)
    (@mkFileSystem ListPath (fun _ => false) (glob demo_fs) (rglob demo_fs)
       (read_text demo_fs))
    Analyzer.ascii_lower ascii_ci_eq elements demo_directory (Some [py "AICustAct"])
  = [ demo_directory ++ [py "Binary"; py "K.dll"];
      demo_directory ++ [py "Binary"; py "benign.dll"] ].
Proof. vm_compute. reflexivity. Qed.







(** *** The same installer with the two attributes in the other order *)




End Extractor.

(** ** pipeline.py, further properties of the engine *)

Module PipelineFacts.
Import Pipeline.

(** *** Further properties of the engine *)

Section MoreEngineFacts.
Context {PL : PathLib}.

Variable format_1f : Z -> str.

(** X1. [get_stage_result] after [add_stage_result]: an earlier result of the
    stage is still the one found; the new result is found only when the
    stage had none. *)
Theorem get_stage_result_add (ctx : PipelineContext) (r : StageResult) (s : PipelineStage) :
  get_stage_result (add_stage_result ctx r) s =
  match get_stage_result ctx s with
  | Some earlier => Some earlier
  | None => if bool_decide (stage r = s) then Some r else None
  end.
Proof.
  unfold get_stage_result. rewrite stage_results_add.
  induction (stage_results ctx) as [|x l IH]; simpl.
  - destruct (bool_decide (stage r = s)); reflexivity.
  - destruct (bool_decide (stage x = s)); [reflexivity | exact IH].
Qed.

(** X2. A stage without a recorded result is not found, and gates that depend on
    it are closed. *)
Theorem get_stage_result_none (ctx : PipelineContext) (s : PipelineStage) :
  get_stage_result ctx s = None <-> Forall (fun r => stage r <> s) (stage_results ctx).
Proof.
  unfold get_stage_result. induction (stage_results ctx) as [|x l IH]; simpl.
  - split; [constructor | reflexivity].
  - case_bool_decide as Hx.
    + split; [discriminate|]. intros H. apply Forall_cons_1 in H as [H _]. contradiction.
    + rewrite IH. split; [intros H; constructor; assumption|].
      intros H. apply Forall_cons_1 in H as [_ H]. exact H.
Qed.

(** What the loop appends when its steps are disciplined: only the last
    result can be a failure of a stage other than [PROCESS_ISO], and it is
    one exactly when the loop was left by [break]. *)
Definition tolerated (r : StageResult) : Prop :=
  success r = true \/ stage r = PROCESS_ISO.

Lemma run_steps_trace (steps : list PipelineStep) :
  Forall disciplined steps ->
  forall ctx, exists added,
    stage_results (fst (run_steps steps ctx)) = stage_results ctx ++ added
    /\ stages (ctx_metadata (fst (run_steps steps ctx)))
       = stages (ctx_metadata ctx) ++ added
    /\ match snd (run_steps steps ctx) with
       | Break => exists front r, added = front ++ [r] /\ Forall tolerated front
                                  /\ success r = false /\ stage r <> PROCESS_ISO
       | _ => Forall tolerated added
       end.
Proof.
  induction 1 as [|s steps Hs _ IH]; intros ctx; simpl.
  - exists []. rewrite !app_nil_r. repeat split; try constructor.
  - destruct (can_execute s ctx) as [e|[|]]; simpl.
    + exists []. rewrite !app_nil_r. repeat split; try constructor.
    + destruct (execute s _) as [ctx' out] eqn:Hexec.
      destruct (Hs _ _ _ Hexec) as (H1 & H2 & _). simpl in H1, H2.
      destruct out as [e|r]; simpl.
      * exists []. rewrite !app_nil_r. repeat split; auto; try constructor.
      * destruct (success r) eqn:Hok; simpl.
        -- destruct (IH (add_stage_result ctx' r)) as (added & E1 & E2 & Hx).
           exists (r :: added). rewrite E1, E2. simpl. rewrite H1, H2, <- !app_assoc.
           repeat split.
           destruct (snd (run_steps steps (add_stage_result ctx' r))).
           ++ constructor; [left; exact Hok | exact Hx].
           ++ destruct Hx as (front & x & -> & Hf & Hx).
              exists (r :: front), x. repeat split; try tauto.
              constructor; [left; exact Hok | exact Hf].
           ++ constructor; [left; exact Hok | exact Hx].
        -- case_bool_decide as Hiso; simpl.
           ++ destruct (IH (add_stage_result ctx' r)) as (added & E1 & E2 & Hx).
              exists (r :: added). rewrite E1, E2. simpl. rewrite H1, H2, <- !app_assoc.
              repeat split.
              destruct (snd (run_steps steps (add_stage_result ctx' r))).
              ** constructor; [right; exact Hiso | exact Hx].
              ** destruct Hx as (front & x & -> & Hf & Hx).
                 exists (r :: front), x. repeat split; try tauto.
                 constructor; [right; exact Hiso | exact Hf].
              ** constructor; [right; exact Hiso | exact Hx].
           ++ exists [r]. rewrite H1, H2. repeat split.
              exists [], r. repeat split; auto; try constructor.
    + destruct (IH (log INFO (SkippingStep (name s)) ctx)) as (added & E1 & E2 & Hx).
      exists added. auto.
Qed.

(** X3. In a run of disciplined steps started on an empty history, a result that
    is followed by another one in the history succeeded or belongs to the
    fault-tolerant stage: a fatal failure is always the last entry. *)
Theorem fatal_failure_is_last (steps : list PipelineStep) (now : Z)
    (context : PipelineContext) (front back : list StageResult) (r : StageResult) :
  Forall disciplined steps ->
  stage_results context = [] ->
  stage_results (AnalysisPipeline_run format_1f steps now context) = front ++ r :: back ->
  back <> [] ->
  success r = true \/ stage r = PROCESS_ISO.
Proof.
  intros Hd Hempty Hhist Hback.
  destruct (run_steps steps (log INFO StartingPipeline context)) as [c x] eqn:Hrun.
  destruct (run_history format_1f steps now context _ _ Hrun) as [_ Hsr].
  destruct (run_steps_trace steps Hd (log INFO StartingPipeline context))
    as (added & E1 & _ & Hx).
  rewrite Hrun in E1, Hx. simpl in E1, Hx. rewrite Hempty in E1. simpl in E1.
  rewrite Hsr, E1 in Hhist. subst added.
  assert (Hin : forall l, Forall tolerated l -> forall f b, l = f ++ r :: b -> tolerated r).
  { intros l Hl f b ->. apply Forall_app in Hl as [_ Hl].
    apply Forall_cons_1 in Hl as [Hr _]. exact Hr. }
  destruct x.
  - eapply Hin; [exact Hx | reflexivity].
  - destruct Hx as (f & last & Heq & Hf & _).
    destruct (exists_last Hback) as (b' & y & ->).
    change (front ++ r :: b' ++ [y]) with (front ++ (r :: b') ++ [y]) in Heq.
    rewrite app_assoc in Heq. apply app_inj_tail in Heq as [<- _].
    eapply Hin; [exact Hf | reflexivity].
  - eapply Hin; [exact Hx | reflexivity].
Qed.

(** A step whose results all carry the stage [stg]. *)
Definition stamps (stg : PipelineStage) (s : PipelineStep) : Prop :=
  forall ctx ctx' r, execute s ctx = (ctx', inr r) -> stage r = stg.

Lemma run_steps_stage_order (stgs : list PipelineStage) (steps : list PipelineStep) :
  Forall2 stamps stgs steps ->
  Forall disciplined steps ->
  forall ctx, exists added,
    stage_results (fst (run_steps steps ctx)) = stage_results ctx ++ added
    /\ stages (ctx_metadata (fst (run_steps steps ctx)))
       = stages (ctx_metadata ctx) ++ added
    /\ map stage added `sublist_of` stgs.
Proof.
  induction 1 as [|stg s stgs steps Hst _ IH]; intros Hd ctx; simpl.
  - exists []. rewrite !app_nil_r. repeat split. constructor.
  - apply Forall_cons_1 in Hd as [Hs Hd].
    destruct (can_execute s ctx) as [e|[|]]; simpl.
    + exists []. rewrite !app_nil_r. repeat split. apply sublist_nil_l.
    + destruct (execute s _) as [ctx' out] eqn:Hexec.
      destruct (Hs _ _ _ Hexec) as (H1 & H2 & _). simpl in H1, H2.
      destruct out as [e|r]; simpl.
      * exists []. rewrite !app_nil_r. repeat split; auto. apply sublist_nil_l.
      * pose proof (Hst _ _ _ Hexec) as Hstage.
        destruct (negb (success r) && _); simpl.
        -- exists [r]. rewrite H1, H2. repeat split. simpl. rewrite Hstage.
           apply sublist_skip, sublist_nil_l.
        -- destruct (IH Hd (add_stage_result ctx' r)) as (added & E1 & E2 & Hsub).
           exists (r :: added). rewrite E1, E2. simpl. rewrite H1, H2, <- !app_assoc.
           repeat split. rewrite Hstage. apply sublist_skip, Hsub.
    + destruct (IH Hd (log INFO (SkippingStep (name s)) ctx)) as (added & E1 & E2 & Hsub).
      exists added. repeat split; auto. apply sublist_cons, Hsub.
Qed.

Section StandardPipelineOrder.

Variable world : PipelineStage -> PipelineContext -> TryBlock.

Lemma step_execute_stamps stg failure name can :
  stamps stg {| name := name; can_execute := can;
                execute := step_execute world stg failure |}.
Proof.
  intros ctx ctx' r. unfold step_execute; simpl.
  destruct (tb_outcome (world stg ctx)) as [e|[md arts]]; intros [= <- <-]; reflexivity.
Qed.

(** X4. In a run of the pipeline [_setup_pipeline] builds, started on a fresh
    context, the two histories are the same list, and the stages recorded
    are a subsequence of the order in which the steps were added: every
    stage is recorded at most once and never before an earlier one. *)
Theorem setup_pipeline_history_in_stage_order
    (sample_path : Path) (session_id : str) (temp : Path) (size : Z)
    (hash : str) (fh : FileHash) (start now : Z) :
  let ctx := AnalysisPipeline_run format_1f (setup_pipeline world) now
               (PipelineContext_init sample_path session_id temp size hash fh start) in
  stage_results ctx = stages (ctx_metadata ctx)
  /\ map stage (stage_results ctx)
     `sublist_of` [ INITIALIZE; EXTRACT_ZIP; EXTRACT_MSI; EXTRACT_DLL;
                    ANALYZE_STRINGS; ANALYZE_URLS; PROCESS_ISO; FINALIZE ].
Proof.
  intros ctx. subst ctx.
  set (c0 := PipelineContext_init _ _ _ _ _ _ _).
  destruct (run_steps (setup_pipeline world) (log INFO StartingPipeline c0))
    as [c x] eqn:Hrun.
  destruct (run_history format_1f (setup_pipeline world) now c0 _ _ Hrun) as [-> ->].
  assert (Hst : Forall2 stamps
                  [ INITIALIZE; EXTRACT_ZIP; EXTRACT_MSI; EXTRACT_DLL;
                    ANALYZE_STRINGS; ANALYZE_URLS; PROCESS_ISO; FINALIZE ]
                  (setup_pipeline world)).
  { unfold setup_pipeline.
    repeat (apply Forall2_cons_2; [apply step_execute_stamps|]). constructor. }
  destruct (run_steps_stage_order _ _ Hst (setup_pipeline_disciplined world)
              (log INFO StartingPipeline c0)) as (added & E1 & E2 & Hsub).
  rewrite Hrun in E1, E2. simpl in E1, E2. rewrite E1, E2. split; [reflexivity | exact Hsub].
Qed.

End StandardPipelineOrder.

(** When an exception escapes a step: the summary names the exception, the
    timing stays open and the assessment is the one the context had. *)
Lemma execute_escaped_exception (steps : list PipelineStep) (now : Z)
    (context ctx : PipelineContext) (e : exn) :
  run_steps steps (log INFO StartingPipeline context) = (ctx, Raised e) ->
  let m := AnalysisPipeline_execute format_1f steps now context in
  analysis_summary m = py "Pipeline failed: " ++ e
  /\ analysis_end m = analysis_end (ctx_metadata ctx)
  /\ total_duration m = total_duration (ctx_metadata ctx)
  /\ threat_level m = threat_level (ctx_metadata ctx)
  /\ malware_family m = malware_family (ctx_metadata ctx)
  /\ stages m = stages (ctx_metadata ctx).
Proof.
  intros Hrun. unfold AnalysisPipeline_execute, AnalysisPipeline_run. rewrite Hrun.
  simpl. repeat split.
Qed.

(** When the loop ends without an exception the timing is closed with the
    duration since the start of the analysis, the assessment is one of the
    three levels, and the summary is the one [_generate_summary] wrote. *)
Lemma execute_completed (steps : list PipelineStep) (now : Z)
    (context ctx : PipelineContext) (x : LoopExit) :
  run_steps steps (log INFO StartingPipeline context) = (ctx, x) ->
  (forall e, x <> Raised e) ->
  let m := AnalysisPipeline_execute format_1f steps now context in
  analysis_end m = Some now
  /\ total_duration m = Some (now - analysis_start (ctx_metadata ctx))
  /\ (threat_level m = "high"%string \/ threat_level m = "medium"%string
      \/ threat_level m = "low"%string)
  /\ startswith (py "Analysis completed in ") (analysis_summary m) = true.
Proof.
  intros Hrun Hx. unfold AnalysisPipeline_execute, AnalysisPipeline_run. rewrite Hrun.
  assert (Hgoal :
    let m := ctx_metadata
               match AnalysisPipeline_generate_summary format_1f (mark_completed now ctx) with
               | (c, None) => c
               | (c, Some e) => pipeline_failed c e
               end in
    analysis_end m = Some now
    /\ total_duration m = Some (now - analysis_start (ctx_metadata ctx))
    /\ (threat_level m = "high"%string \/ threat_level m = "medium"%string
        \/ threat_level m = "low"%string)
    /\ startswith (py "Analysis completed in ") (analysis_summary m) = true).
  { unfold AnalysisPipeline_generate_summary, mark_completed. simpl.
    destruct (truthy_opt_dict (dll_info (ctx_metadata ctx))),
      (truthy_list (urls_found (ctx_metadata ctx))); simpl;
      destruct (cnc_url (ctx_metadata ctx)) as [[|]|]; simpl; auto 10. }
  destruct x; try exact Hgoal. exfalso. eapply Hx. reflexivity.
Qed.

(** X5. [execute] returns in every case.  When an exception escaped the loop the
    summary names it, the timing stays open and the assessment and the
    history are those of the context at that point; otherwise, also after a
    [break], the timing is closed with the duration since the start of the
    analysis, the assessment is one of the three levels and the summary is
    the one [_generate_summary] wrote. *)
Theorem execute_outcome (steps : list PipelineStep) (now : Z)
    (context ctx : PipelineContext) (x : LoopExit) :
  run_steps steps (log INFO StartingPipeline context) = (ctx, x) ->
  let m := AnalysisPipeline_execute format_1f steps now context in
  match x with
  | Raised e =>
      analysis_summary m = py "Pipeline failed: " ++ e
      /\ analysis_end m = analysis_end (ctx_metadata ctx)
      /\ total_duration m = total_duration (ctx_metadata ctx)
      /\ threat_level m = threat_level (ctx_metadata ctx)
      /\ malware_family m = malware_family (ctx_metadata ctx)
      /\ stages m = stages (ctx_metadata ctx)
  | _ =>
      analysis_end m = Some now
      /\ total_duration m = Some (now - analysis_start (ctx_metadata ctx))
      /\ (threat_level m = "high"%string \/ threat_level m = "medium"%string
          \/ threat_level m = "low"%string)
      /\ startswith (py "Analysis completed in ") (analysis_summary m) = true
      /\ stages m = stages (ctx_metadata ctx)
  end.
Proof.
  intros Hrun m. subst m.
  assert (Hdone : (forall e, x <> Raised e) ->
            let m := AnalysisPipeline_execute format_1f steps now context in
            analysis_end m = Some now
            /\ total_duration m = Some (now - analysis_start (ctx_metadata ctx))
            /\ (threat_level m = "high"%string \/ threat_level m = "medium"%string
                \/ threat_level m = "low"%string)
            /\ startswith (py "Analysis completed in ") (analysis_summary m) = true
            /\ stages m = stages (ctx_metadata ctx)).
  { intros Hx. destruct (execute_completed steps now context ctx x Hrun Hx)
      as (A & B & C & D).
    repeat split; try assumption.
    exact (proj1 (run_history format_1f steps now context ctx x Hrun)). }
  destruct x as [| |e].
  - apply Hdone. intros e. discriminate.
  - apply Hdone. intros e. discriminate.
  - exact (execute_escaped_exception steps now context ctx e Hrun).
Qed.

End MoreEngineFacts.

(** *** The three-step pipeline again *)

Lemma demo_step_disciplined (n : string) (stg : PipelineStage) (ok : bool) :
  disciplined (demo_step n stg ok).
Proof.
  intros ctx ctx' out [= <- <-]. split; [reflexivity | split; [reflexivity|]].
  intros res [= <-]. apply create_result_status.
Qed.

(** A step whose gate raises. *)
Definition demo_raising : PipelineStep (PL := ListPath) :=
  {| name := "R";
     can_execute := fun _ => inl (py "disk full");
     execute := fun ctx => (ctx, inl (py "unreachable")) |}.

Lemma fatal_failure_is_last_witness :
  success (create_result (PL := ListPath) 0 PROCESS_ISO false None None None None) = true
  \/ stage (create_result (PL := ListPath) 0 PROCESS_ISO false None None None None)
     = PROCESS_ISO.
Proof.
  apply (fatal_failure_is_last demo_format [demo_A; demo_B_tolerant; demo_C] 7 demo_context
           [create_result 0 INITIALIZE true None None None None]
           [create_result 0 FINALIZE true None None None None]).
  - repeat (apply Forall_cons_2; [apply demo_step_disciplined|]). apply Forall_nil_2.
  - reflexivity.
  - reflexivity.
  - discriminate.
Defined.

Lemma execute_outcome_witness :
  analysis_summary (AnalysisPipeline_execute demo_format [demo_A; demo_raising; demo_C] 7
                      demo_context)
  = py "Pipeline failed: disk full"
  /\ analysis_end (AnalysisPipeline_execute demo_format [demo_A; demo_B; demo_C] 7
                     demo_context)
     = Some 7.
Proof.
  split.
  - exact (proj1 (execute_outcome demo_format [demo_A; demo_raising; demo_C] 7 demo_context
                    _ (Raised (py "disk full")) eq_refl)).
  - exact (proj1 (execute_outcome demo_format [demo_A; demo_B; demo_C] 7 demo_context
                    _ Break eq_refl)).
Defined.

End PipelineFacts.

(** ** analyzer.py, the scanner and the URL finder *)

Module Scanner.
Import Analyzer.

(** *** Further properties of the scanner *)



Lemma findall_from_all_in_set (n : nat) (s : list Z) : forall acc,
  Forall (fun c => in_charset c = true) s ->
  findall_from n acc s = emit n (rev s ++ acc).
Proof.
  induction s as [|c s IH]; intros acc Hs; simpl; [reflexivity|].
  apply Forall_cons_1 in Hs as [Hc Hs]. rewrite Hc, IH by exact Hs.
  rewrite <- app_assoc. reflexivity.
Qed.

(** X7. A text of set characters only is one match, the whole text, when it is
    at least as long as the minimum, and gives no match when it is shorter. *)
Theorem findall_single_run (n : nat) (s : list Z) :
  (0 < n)%nat ->
  Forall (fun c => in_charset c = true) s ->
  findall n s = if (n <=? List.length s)%nat then [s] else [].
Proof.
  intros Hn Hs. unfold findall. rewrite findall_from_all_in_set by exact Hs.
  rewrite app_nil_r. unfold emit. rewrite length_rev, rev_involutive.
  destruct (Nat.eqb_spec n 0) as [->|_]; [lia|]. rewrite app_nil_r.
  destruct (Nat.leb_spec n (List.length s)) as [Hle|Hlt].
  - rewrite bool_decide_eq_true_2; [reflexivity|].
    intros Hrev. apply (f_equal (@List.length Z)) in Hrev.
    rewrite length_rev in Hrev. simpl in Hrev. lia.
  - rewrite andb_false_r. reflexivity.
Qed.

(** *** strip *)




Section MoreScannerFacts.

Variable decode_utf16_ignore : bytes -> str.
Variable min_length : nat.



End MoreScannerFacts.

(** *** find_urls *)

(** A match of [scheme[^\s]+] at the start of the text: the match and the
    text after it. *)
Fixpoint span_not_space (s : str) : str * str :=
  match s with
  | c :: rest =>
      if is_space c then ([], s)
      else let (run, after) := span_not_space rest in (c :: run, after)
  | [] => ([], [])
  end.

Definition match_url (scheme : str) (s : str) : option (str * str) :=
  if startswith scheme s then
    match span_not_space (drop (List.length scheme) s) with
    | ([], _) => None
    | (run, after) => Some (scheme ++ run, after)
    end
  else None.

(** [pattern.findall(string)]: the matches, left to right, without overlap;
    [skip] counts the characters of the last match still to pass. *)
Fixpoint findall_url (scheme : str) (skip : nat) (s : str) : list str :=
  match s with
  | [] => []
  | _ :: s' =>
      match skip with
      | S n => findall_url scheme n s'
      | O =>
          match match_url scheme s with
          | Some (url, after) =>
              url :: findall_url scheme (List.length s - List.length after - 1) s'
          | None => findall_url scheme 0 s'
          end
      end
  end.

(** [URLAnalyzer.find_urls] *)
Definition find_urls (strings : list str) : gset str :=
  list_to_set
    (flat_map (fun string => findall_url (py "http://") 0 string
                             ++ findall_url (py "https://") 0 string) strings).

Definition not_space (c : Z) : Prop := is_space c = false.

(** What follows a match: nothing, or white space. *)
Definition at_boundary (after : str) : Prop :=
  after = [] \/ exists c rest, after = c :: rest /\ is_space c = true.

Lemma span_not_space_spec (s : str) :
  s = (span_not_space s).1 ++ (span_not_space s).2
  /\ Forall not_space (span_not_space s).1
  /\ at_boundary (span_not_space s).2.
Proof.
  induction s as [|c s (Heq & Hrun & Hb)]; simpl.
  - repeat split; [constructor | left; reflexivity].
  - destruct (is_space c) eqn:Hc; simpl.
    + repeat split; [constructor | right; eauto].
    + destruct (span_not_space s) as [run after]. simpl in *.
      repeat split; [congruence | constructor; assumption | exact Hb].
Qed.

Lemma span_not_space_run (run after : str) :
  Forall not_space run -> at_boundary after ->
  span_not_space (run ++ after) = (run, after).
Proof.
  intros Hrun Hb. induction Hrun as [|c run Hc _ IH]; simpl.
  - destruct Hb as [->|(c & rest & -> & Hc)]; simpl; [reflexivity|].
    rewrite Hc. reflexivity.
  - unfold not_space in Hc. rewrite Hc, IH. reflexivity.
Qed.

Lemma startswith_app (p r : str) : startswith p (p ++ r) = true.
Proof. induction p as [|a p IH]; simpl; [reflexivity|]. rewrite Z.eqb_refl. exact IH. Qed.

Lemma startswith_drop (p s : str) :
  startswith p s = true -> s = p ++ drop (List.length p) s.
Proof.
  revert s. induction p as [|a p IH]; intros s; simpl; [reflexivity|].
  destruct s as [|c s]; [discriminate|].
  intros H. apply andb_true_iff in H as [Ha Hp]. apply Z.eqb_eq in Ha. subst c.
  simpl. f_equal. apply IH, Hp.
Qed.

Lemma match_url_sound (scheme s url after : str) :
  match_url scheme s = Some (url, after) ->
  exists run, url = scheme ++ run /\ run <> [] /\ Forall not_space run
              /\ s = url ++ after /\ at_boundary after.
Proof.
  unfold match_url. destruct (startswith scheme s) eqn:Hp; [|discriminate].
  apply startswith_drop in Hp.
  destruct (span_not_space_spec (drop (List.length scheme) s)) as (Heq & Hrun & Hb).
  destruct (span_not_space _) as [[|c run] aft]; [discriminate|].
  intros [= <- <-]. exists (c :: run). simpl in *.
  repeat split; try assumption; [discriminate|].
  rewrite Hp at 1. rewrite Heq, <- app_assoc. reflexivity.
Qed.

Lemma findall_url_sound (scheme s url : str) : forall skip,
  url ∈ findall_url scheme skip s ->
  exists pre run after,
    s = pre ++ url ++ after /\ url = scheme ++ run /\ run <> []
    /\ Forall not_space run /\ at_boundary after.
Proof.
  induction s as [|c s IH]; intros skip; simpl; [intros H; inversion H|].
  assert (Hrec : forall n, url ∈ findall_url scheme n s ->
            exists pre run after,
              c :: s = pre ++ url ++ after /\ url = scheme ++ run /\ run <> []
              /\ Forall not_space run /\ at_boundary after).
  { intros n H. destruct (IH _ H) as (pre & run & after & -> & Hrest).
    exists (c :: pre), run, after. split; [reflexivity | exact Hrest]. }
  destruct skip as [|n]; [|apply Hrec].
  destruct (match_url scheme (c :: s)) as [[u aft]|] eqn:E; [|apply Hrec].
  intros H. apply elem_of_cons in H as [->|H]; [|eapply Hrec, H].
  destruct (match_url_sound _ _ _ _ E) as (run & Hu & Hne & Hrun & Heq & Hb).
  exists [], run, aft. auto.
Qed.

Lemma match_url_length (scheme s url after : str) :
  match_url scheme s = Some (url, after) ->
  (List.length s - List.length after = List.length url)%nat.
Proof.
  intros H. destruct (match_url_sound _ _ _ _ H) as (_ & _ & _ & _ & -> & _).
  rewrite length_app. lia.
Qed.

(** A URL that stands at the start of the text or after white space, and is
    followed by white space or the end of the text, is found. *)
Lemma findall_url_complete (scheme run after : str) :
  Forall not_space scheme -> run <> [] -> Forall not_space run -> at_boundary after ->
  forall (pre : str) (skip : nat),
    (pre = [] /\ skip = 0%nat
     \/ (exists front c, pre = front ++ [c] /\ is_space c = true)
        /\ Forall not_space (take skip pre) /\ (skip <= List.length pre)%nat) ->
    (scheme ++ run) ∈ findall_url scheme skip (pre ++ (scheme ++ run) ++ after).
Proof.
  intros Hscheme Hne Hrun Hb.
  assert (Hhere : match_url scheme ((scheme ++ run) ++ after) = Some (scheme ++ run, after)).
  { unfold match_url. rewrite <- app_assoc, startswith_app, drop_app_length.
    rewrite span_not_space_run by assumption.
    destruct run; [contradiction | reflexivity]. }
  assert (Hcons : exists h t, (scheme ++ run) ++ after = h :: t).
  { destruct run as [|r run]; [contradiction|].
    destruct scheme; simpl; eauto. }
  induction pre as [|c pre IH]; intros skip Hinv.
  - destruct Hinv as [[_ ->]|[(front & c & Hf & _) _]];
      [|destruct front; discriminate Hf].
    simpl. destruct Hcons as (h & t & Hht). rewrite Hht. simpl. rewrite <- Hht.
    rewrite Hhere. left.
  - destruct Hinv as [[Hf _]|[(front & d & Hf & Hd) [Htake Hlen]]]; [discriminate Hf|].
    assert (Hpre' : pre = [] /\ c = d
                    \/ exists front', pre = front' ++ [d]).
    { destruct front as [|x front]; simpl in Hf.
      - injection Hf as -> ->. left. auto.
      - injection Hf as -> ->. right. eauto. }
    simpl. destruct skip as [|n].
    + destruct (match_url scheme (c :: pre ++ (scheme ++ run) ++ after))
        as [[u aft]|] eqn:E.
      * apply elem_of_cons. right.
        destruct (match_url_sound _ _ _ _ E) as (r & Hu & Hrne & Hr & Heq & Hbd).
        pose proof (match_url_length _ _ _ _ E) as Hl. simpl in Hl.
        assert (Hun : Forall not_space u) by (rewrite Hu; apply Forall_app; auto).
        destruct u as [|u0 u]; [destruct scheme, r; try discriminate Hu; contradiction|].
        simpl in Heq. injection Heq as <- Heq.
        apply Forall_cons_1 in Hun as [Hc Hun].
        match goal with
        | |- context [findall_url _ ?k _] =>
            replace k with (List.length u) by (simpl in Hl |- *; lia)
        end.
        apply IH. destruct Hpre' as [[-> ->]|(front' & ->)].
        { unfold not_space in Hc. congruence. }
        right. split; [eauto|].
        assert (Hk : (List.length u <= List.length (front' ++ [d]))%nat
                     /\ take (List.length u) (front' ++ [d]) = take (List.length u) u).
        { destruct (Nat.le_gt_cases (List.length u) (List.length front')) as [Hle|Hgt].
          - split; [rewrite length_app; lia|].
            rewrite take_app_le by exact Hle.
            apply (f_equal (take (List.length u))) in Heq.
            rewrite <- app_assoc, take_app_le in Heq by exact Hle.
            rewrite take_app_length in Heq. rewrite Heq. rewrite take_ge; [reflexivity|lia].
          - exfalso.
            assert (Hd' : d ∈ u).
            { apply (f_equal (fun l => l !! List.length front')) in Heq.
              rewrite <- app_assoc, lookup_app_r, Nat.sub_diag in Heq by lia.
              simpl in Heq. rewrite lookup_app_l in Heq by lia.
              symmetry in Heq. eapply list_elem_of_lookup_2, Heq. }
            rewrite Forall_forall in Hun. apply Hun in Hd'.
            unfold not_space in Hd'. congruence. }
        destruct Hk as [Hk1 Hk2]. split; [|exact Hk1].
        rewrite Hk2, take_ge by lia. exact Hun.
      * apply IH. destruct Hpre' as [[-> ->]|(front' & ->)]; [left; auto|].
        right. split; [eauto|]. split; [constructor | lia].
    + apply IH. simpl in Htake, Hlen. apply Forall_cons_1 in Htake as [Hc Htake].
      destruct Hpre' as [[-> ->]|(front' & ->)].
      { unfold not_space in Hc. congruence. }
      right. split; [eauto|]. split; [exact Htake | lia].
Qed.

Lemma elem_of_find_urls (strings : list str) (u : str) :
  u ∈ find_urls strings <->
  exists string, string ∈ strings
    /\ (u ∈ findall_url (py "http://") 0 string
        \/ u ∈ findall_url (py "https://") 0 string).
Proof.
  unfold find_urls. rewrite elem_of_list_to_set, list_elem_of_In, in_flat_map.
  split; intros (string & Hin & Hu); exists string.
  - apply list_elem_of_In in Hin. apply in_app_or in Hu.
    rewrite <- !list_elem_of_In in Hu. auto.
  - apply list_elem_of_In in Hin. split; [exact Hin|]. apply in_or_app.
    rewrite <- !list_elem_of_In. exact Hu.
Qed.

(** X9. Every URL of the result begins with one of the two schemes, goes on with
    at least one more character, holds no white space, and stands in one of
    the strings, where it runs up to the next white space or the end. *)
Theorem find_urls_sound (strings : list str) (u : str) :
  u ∈ find_urls strings ->
  (exists run, run <> [] /\ (u = py "http://" ++ run \/ u = py "https://" ++ run))
  /\ Forall not_space u
  /\ exists string pre after,
       string ∈ strings /\ string = pre ++ u ++ after /\ at_boundary after.
Proof.
  intros Hu. apply elem_of_find_urls in Hu as (string & Hin & [Hu|Hu]);
    destruct (findall_url_sound _ _ _ _ Hu) as (pre & run & after & Heq & -> & Hne & Hrun & Hb).
  - split; [exists run; auto|]. split.
    + apply Forall_app. split; [|exact Hrun].
      repeat (apply Forall_cons_2; [reflexivity|]). constructor.
    + exists string, pre, after. auto.
  - split; [exists run; auto|]. split.
    + apply Forall_app. split; [|exact Hrun].
      repeat (apply Forall_cons_2; [reflexivity|]). constructor.
    + exists string, pre, after. auto.
Qed.

(** X10. A URL of either scheme that stands in one of the strings, at its start or
    after white space, and runs up to white space or the end of the string,
    is in the result. *)
Theorem find_urls_complete (strings : list str) (string pre scheme run after : str) :
  string ∈ strings ->
  scheme = py "http://" \/ scheme = py "https://" ->
  string = pre ++ (scheme ++ run) ++ after ->
  pre = [] \/ (exists front c, pre = front ++ [c] /\ is_space c = true) ->
  run <> [] -> Forall not_space run -> at_boundary after ->
  (scheme ++ run) ∈ find_urls strings.
Proof.
  intros Hin Hscheme -> Hpre Hne Hrun Hb.
  apply elem_of_find_urls. exists (pre ++ (scheme ++ run) ++ after). split; [exact Hin|].
  assert (Hinv : pre = [] /\ 0%nat = 0%nat
     \/ (exists front c, pre = front ++ [c] /\ is_space c = true)
        /\ Forall not_space (take 0 pre) /\ (0 <= List.length pre)%nat).
  { destruct Hpre as [->|H]; [left; auto|]. right. split; [exact H|].
    split; [constructor | lia]. }
  destruct Hscheme as [->| ->]; [left | right];
    (apply findall_url_complete; try assumption;
     repeat (apply Forall_cons_2; [reflexivity|]); constructor).
Qed.

Definition spec_strings : list str :=
  [py "Check http://a.com/x"; py "https://b.com/y and http://a.com/x"].

Example find_urls_collapses_duplicates :
  find_urls spec_strings = {[ py "http://a.com/x" ]} ∪ {[ py "https://b.com/y" ]}
  /\ size (find_urls spec_strings) = 2%nat.
Proof. split; vm_compute; reflexivity. Qed.

Lemma find_urls_sound_witness :
  Forall not_space (py "http://a.com/x").
Proof.
  apply (find_urls_sound spec_strings (py "http://a.com/x")).
  apply (bool_decide_unpack _). vm_compute. exact I.
Defined.

Lemma find_urls_complete_witness :
  (py "https://b.com/y") ∈ find_urls spec_strings.
Proof.
  apply (find_urls_complete spec_strings (py "https://b.com/y and http://a.com/x") []
           (py "https://") (py "b.com/y") (py " and http://a.com/x")).
  - right. left.
  - right. reflexivity.
  - reflexivity.
  - left. reflexivity.
  - discriminate.
  - repeat (apply Forall_cons_2; [reflexivity|]). constructor.
  - right. eexists _, _. split; reflexivity.
Defined.


Lemma findall_single_run_witness :
  findall 4 (py "PE") = [] /\ findall 4 (py "This program") = [py "This program"].
Proof.
  split.
  - apply (findall_single_run 4 (py "PE")); [lia|].
    repeat (apply Forall_cons_2; [reflexivity|]). apply Forall_nil_2.
  - apply (findall_single_run 4 (py "This program")); [lia|].
    repeat (apply Forall_cons_2; [reflexivity|]). apply Forall_nil_2.
Defined.

End Scanner.

(** ** iso_handler.py, outcomes of decoding and download *)

Module IsoFiles.
Import IsoHandler.

Lemma land_255_octet (x : Z) : is_byte (Z.land x 255).
Proof.
  unfold is_byte. change 255 with (Z.ones 8). rewrite Z.land_ones by lia.
  pose proof (Z.mod_pos_bound x (2 ^ 8)). lia.
Qed.

Lemma emit_byte_octets (b : Z) (r : b64_error + bytes) (out : bytes) :
  is_byte b ->
  (forall o, r = inr o -> Forall is_byte o) ->
  emit_byte b r = inr out -> Forall is_byte out.
Proof.
  intros Hb Hr. destruct r as [e|o]; simpl; [discriminate|].
  intros [= <-]. constructor; [exact Hb | apply Hr; reflexivity].
Qed.

(** Whatever the text, what the decoder returns is a sequence of octets. *)
Lemma a2b_base64_octets (data : list Z) : forall q lc p out,
  a2b_base64_from q lc p data = inr out -> Forall is_byte out.
Proof.
  induction data as [|c rest IH]; intros q lc p out; cbn [a2b_base64_from].
  - destruct (q =? 0); [intros [= <-]; constructor|].
    destruct (q =? 1); discriminate.
  - destruct (c =? BASE64_PAD).
    { destruct (2 <=? q); [|apply IH].
      destruct (4 <=? q + (p + 1)); [intros [= <-]; constructor | apply IH]. }
    cbv zeta. destruct (64 <=? table_a2b_base64 c); [apply IH|].
    destruct (q =? 0); [apply IH|].
    destruct (q =? 1); [apply emit_byte_octets; [apply land_255_octet | intros o; apply IH]|].
    destruct (q =? 2); apply emit_byte_octets;
      solve [apply land_255_octet | intros o; apply IH].
Qed.

Section MoreDecodeFacts.
Context {PL : PathLib}.

(** X11. [decode_iso] returns a path only after both passes succeeded and both
    files were written whole, first [encoded.b64] with the result of the
    first pass, then [decoded.zip] with the octets of the second.  When it
    raises, no file was touched, or only [encoded.b64], or both; in the last
    case [encoded.b64] holds the whole result of the first pass and
    [decoded.zip] what reached it before its write failed. *)
Theorem decode_iso_outcome (output_dir : Path) (read : exn + str) (writer : FileWriter) :
  let encoded_path := joinpath output_dir (py "encoded.b64") in
  let zip_path := joinpath output_dir (py "decoded.zip") in
  match decode_iso output_dir read writer with
  | (written, inr p) =>
      exists data decoded1 decoded2,
        read = inr data
        /\ b64decode_str data = inr decoded1 /\ b64decode decoded1 = inr decoded2
        /\ open_file writer encoded_path = None
        /\ write_file writer encoded_path decoded1 = None
        /\ open_file writer zip_path = None
        /\ write_file writer zip_path decoded2 = None
        /\ p = zip_path
        /\ written = [(encoded_path, decoded1); (zip_path, decoded2)]
        /\ Forall is_byte decoded2
  | (written, inl _) =>
      written = []
      \/ (exists partial, written = [(encoded_path, partial)])
      \/ (exists data decoded1 decoded2 e partial,
            read = inr data /\ b64decode_str data = inr decoded1
            /\ b64decode decoded1 = inr decoded2
            /\ write_file writer zip_path decoded2 = Some (e, partial)
            /\ written = [(encoded_path, decoded1); (zip_path, partial)])
  end.
Proof.
  intros encoded_path zip_path. unfold decode_iso. fold encoded_path zip_path.
  destruct read as [e|data]; [left; reflexivity|].
  destruct (b64decode_str data) as [e|decoded1] eqn:H1; [left; reflexivity|].
  destruct (open_file writer encoded_path) eqn:O1; [left; reflexivity|].
  destruct (write_file writer encoded_path decoded1) as [[e partial]|] eqn:W1;
    [right; left; eauto|].
  destruct (b64decode decoded1) as [e|decoded2] eqn:H2; [right; left; eauto|].
  destruct (open_file writer zip_path) eqn:O2; [right; left; eauto|].
  destruct (write_file writer zip_path decoded2) as [[e partial]|] eqn:W2.
  - right. right. exists data, decoded1, decoded2, e, partial. auto.
  - exists data, decoded1, decoded2. repeat split; try assumption.
    eapply a2b_base64_octets, H2.
Qed.

End MoreDecodeFacts.

(** *** rsplit and download_iso *)

Lemma until_slash_spec (s : str) :
  (47 ∉ until_slash s)
  /\ exists rest, s = until_slash s ++ rest
                  /\ (rest = [] \/ exists r, rest = 47 :: r).
Proof.
  induction s as [|c s (Hno & rest & Heq & Hrest)]; simpl.
  - split; [apply not_elem_of_nil|]. exists []. auto.
  - destruct (Z.eqb_spec c 47) as [->|Hc].
    + split; [apply not_elem_of_nil|]. exists (47 :: s). eauto.
    + split.
      * intros H. apply elem_of_cons in H as [H|H]; [congruence | contradiction].
      * exists rest. split; [simpl; congruence | exact Hrest].
Qed.

(** X12. The name [rsplit] gives holds no ['/'] and is the end of the URL: the URL
    is the name itself, or ends with ['/'] and the name. *)
Theorem rsplit_last_spec (url : str) :
  (47 ∉ rsplit_last url)
  /\ exists front, url = front ++ rsplit_last url
                   /\ (front = [] \/ exists f, front = f ++ [47]).
Proof.
  unfold rsplit_last. destruct (until_slash_spec (rev url)) as (Hno & rest & Heq & Hrest).
  split.
  - intros H. apply Hno. apply list_elem_of_In, in_rev, list_elem_of_In. exact H.
  - exists (rev rest). split.
    + rewrite <- rev_app_distr, <- Heq, rev_involutive. reflexivity.
    + destruct Hrest as [->|(r & ->)]; [left; reflexivity|].
      right. exists (rev r). reflexivity.
Qed.

Section MoreDownloadFacts.
Context {PL : PathLib}.

(** X13. [download_iso] returns a path only when the file of that path was
    opened and written with the encoded text.  When the fetch fails its
    exception is the one raised and no file is touched; when the file cannot
    be opened no file is touched either; when the text cannot be encoded the
    opened file is left empty; when the write fails the file holds what
    reached it.  In every case no file other than [output_dir / name] is
    touched. *)
Theorem download_iso_outcome (linesep url : str) (output_dir : Path)
    (fetch : exn + Response) (writer : FileWriter) :
  let output_path := joinpath output_dir (rsplit_last url) in
  match download_iso linesep url output_dir fetch writer with
  | (written, inr p) =>
      exists response octets,
        fetch = inr response
        /\ utf8_encode (translate_newlines linesep (text response)) = Some octets
        /\ open_file writer output_path = None
        /\ write_file writer output_path octets = None
        /\ p = output_path /\ written = [(output_path, octets)]
  | (written, inl e) =>
      (fetch = inl e /\ written = [])
      \/ exists response,
           fetch = inr response
           /\ ((open_file writer output_path = Some e /\ written = [])
               \/ (open_file writer output_path = None
                   /\ utf8_encode (translate_newlines linesep (text response)) = None
                   /\ written = [(output_path, [])])
               \/ (exists octets partial,
                     open_file writer output_path = None
                     /\ utf8_encode (translate_newlines linesep (text response))
                        = Some octets
                     /\ write_file writer output_path octets = Some (e, partial)
                     /\ written = [(output_path, partial)]))
  end.
Proof.
  intros output_path. unfold download_iso. fold output_path.
  destruct fetch as [e|response]; [left; auto|].
  destruct (open_file writer output_path) as [e|] eqn:O; [right; eauto 10|].
  destruct (utf8_encode _) as [octets|] eqn:Henc; [|right; eauto 10].
  destruct (write_file writer output_path octets) as [[e partial]|] eqn:W.
  - right. exists response. split; [reflexivity|]. right. right.
    exists octets, partial. auto.
  - exists response, octets. auto 10.
Qed.

End MoreDownloadFacts.

End IsoFiles.

(** ** core.py, cache names and session directories *)

Module Sessions.
Import Core.

(** *** Further properties of the cache path *)

Section MoreCacheFacts.
Context {PL : PathLib}.
Variable unicode_isalnum : Z -> bool.
Variable cache_dir : Path.

Lemma get_cache_path_take (url : str) :
  get_cache_path unicode_isalnum cache_dir url
  = joinpath cache_dir (take 100 (safe_name unicode_isalnum url)).
Proof.
  unfold get_cache_path.
  destruct (Z.ltb_spec 100 (Z.of_nat (List.length (safe_name unicode_isalnum url)))).
  - reflexivity.
  - rewrite take_ge by lia. reflexivity.
Qed.

Lemma safe_name_take (n : nat) (url : str) :
  take n (safe_name unicode_isalnum url) = safe_name unicode_isalnum (take n url).
Proof.
  unfold safe_name. revert n. induction url as [|c url IH]; intros [|n]; simpl; auto.
  rewrite IH. reflexivity.
Qed.

(** X14. The cache does not tell apart two URLs whose first 100 characters are
    the same, position by position, once the characters that are not kept
    are seen as one: such URLs share a cache entry. *)
Theorem get_cache_path_collision (url1 url2 : str) :
  Forall2 (fun a b => a = b \/ (kept_char unicode_isalnum a = false
                                /\ kept_char unicode_isalnum b = false))
          (take 100 url1) (take 100 url2) ->
  get_cache_path unicode_isalnum cache_dir url1
  = get_cache_path unicode_isalnum cache_dir url2.
Proof.
  intros H. rewrite !get_cache_path_take, !safe_name_take. f_equal.
  unfold safe_name. induction H as [|a b l1 l2 Hab _ IH]; simpl; [reflexivity|].
  rewrite IH. f_equal. destruct Hab as [->|[Ha Hb]]; [reflexivity|].
  rewrite Ha, Hb. reflexivity.
Qed.

(** X15. A file name the function produced is left as it is when it is used as a
    URL in its turn. *)
Theorem safe_name_idempotent (url : str) :
  safe_name unicode_isalnum (safe_name unicode_isalnum url)
  = safe_name unicode_isalnum url.
Proof.
  unfold safe_name. rewrite map_map. apply map_ext. intros c.
  destruct (kept_char unicode_isalnum c) eqn:Hc; [rewrite Hc; reflexivity|].
  reflexivity.
Qed.

End MoreCacheFacts.

Lemma get_cache_path_collision_witness :
  get_cache_path (PL := ListPath) (fun _ => false) [py "cache"] (py "http://h/p?a=1")
  = get_cache_path (PL := ListPath) (fun _ => false) [py "cache"] (py "http://h/p&a:1").
Proof.
  apply (get_cache_path_collision (PL := ListPath)).
  repeat (apply Forall2_cons_2; [first [left; reflexivity | right; split; reflexivity]|]).
  constructor.
Defined.

(** *** Session directories: creation, markers and the cleanup *)

(** X17. For a session id that is a relative path without a part [..], the
    cleanup leaves every path that is neither the session directory
    [config.temp_dir / session_id] nor below it as it was, whatever fails
    and whether or not it is forced.  For the empty id the session directory
    is [config.temp_dir] itself. *)
Theorem cleanup_leaves_outside (temp_root : path) (faults : Faults) (now session_id : str)
    (force : bool) (w : World) (p : path) :
  PosixPath.descends session_id ->
  ~ (temp_root ++ PosixPath.parts session_id) `prefix_of` p ->
  fs (cleanup_session_temp_dir temp_root faults now session_id force w).1 !! p
  = fs w !! p.
Proof.
  intros [Hrel _] Hp. unfold cleanup_session_temp_dir, PosixPath.truediv.
  rewrite Hrel. set (temp_dir := temp_root ++ PosixPath.parts session_id) in *.
  assert (Hman : p <> temp_dir ++ [py "session_manifest.txt"]).
  { intros ->. apply Hp. apply prefix_app_r. reflexivity. }
  destruct (exists_fails faults); [reflexivity|].
  destruct (exists_ (fs w) temp_dir); [|reflexivity]. cbn [fst]. unfold cleanup_try.
  destruct (update_manifest faults now temp_dir (fs w)) as [e|fs1] eqn:Hup; [reflexivity|].
  destruct (update_manifest_keeps _ _ _ _ _ Hup) as [_ Hsame].
  assert (Hrm : forall l, fs (remove_session faults temp_dir fs1 l) !! p = fs w !! p).
  { intros l. unfold remove_session. destruct (rmtree_fails faults); simpl.
    - apply Hsame, Hman.
    - rewrite rmtree_lookup. destruct (decide _); [contradiction | apply Hsame, Hman]. }
  destruct force; simpl; [apply Hrm|].
  destruct (rglob_fails faults); simpl; [apply Hsame, Hman|].
  destruct (rglob_debug fs1 temp_dir); simpl; [apply Hrm | apply Hsame, Hman].
Qed.

(** The lines a text file receives, one [f.write] after the other: the
    octets written before the first line that cannot be encoded, and the
    exception of that line. *)
Fixpoint write_lines (lines : list str) : bytes * option exn :=
  match lines with
  | [] => ([], None)
  | line :: rest =>
      match IsoHandler.utf8_encode line with
      | None => ([], Some (py "UnicodeEncodeError"))
      | Some octets =>
          let (more, e) := write_lines rest in (octets ++ more, e)
      end
  end.

(** [p.mkdir(parents=True, exist_ok=True)]: every missing directory on the
    way is made, [p] last; a file in the way is an error and nothing is made.
    The empty path is the current directory, which is there. *)
Definition ancestors (p : path) : list path :=
  match p with
  | [] => [[]]
  | _ :: _ => map (fun n => take n p) (seq 1 (List.length p))
  end.

Definition is_file (fs : gmap path node) (p : path) : bool :=
  match fs !! p with Some (File _) => true | _ => false end.

Definition mkdir_parents (fs : gmap path node) (p : path) : exn + gmap path node :=
  if existsb (is_file fs) (ancestors p) then
    inl (if existsb (is_file fs) (removelast (ancestors p))
         then py "NotADirectoryError" else py "FileExistsError")
  else inr (fold_right (fun q acc => match acc !! q with
                                    | None => <[q := Dir]> acc
                                    | Some _ => acc
                                    end) fs (ancestors p)).

Section Sessions.

Variable temp_root : path.

(** [str(path)], the text of a path on the platform. *)
Variable path_text : path -> str.

Definition manifest_lines (session_id now : str) (temp_dir : path) : list str :=
  [ py "Session ID: " ++ session_id ++ [10];
    py "Created: " ++ now ++ [10];
    py "Temp Directory: " ++ path_text temp_dir ++ [10; 10];
    py "Directory Structure:" ++ [10];
    py "- processing/          # Main processing directory" ++ [10];
    py "  - extract/          # ZIP extraction results" ++ [10];
    py "  - msi_output/       # MSI extraction results" ++ [10];
    py "  - msi_script/       # MSI script files" ++ [10];
    py "  - dll/              # DLL files" ++ [10];
    py "  - iso/              # ISO files" ++ [10];
    py "  - exe/              # Executable files" ++ [10];
    py "- session_manifest.txt # This file" ++ [10] ].

(** [get_session_temp_dir]; [now] is [datetime.now().isoformat()] and the
    session directory is [config.temp_dir / session_id].  The file system
    after the call and the directory returned or the exception raised. *)
Definition get_session_temp_dir (now session_id : str) (fs : gmap path node)
    : gmap path node * (exn + path) :=
  let temp_dir := PosixPath.truediv temp_root session_id in
  match mkdir_parents fs temp_dir with
  | inl e => (fs, inl e)
  | inr fs1 =>
      let manifest_file := temp_dir ++ [py "session_manifest.txt"] in
      if negb (exists_ fs1 manifest_file) then
        match write_lines (manifest_lines session_id now temp_dir) with
        | (octets, Some e) => (<[manifest_file := File octets]> fs1, inl e)
        | (octets, None) => (<[manifest_file := File octets]> fs1, inr temp_dir)
        end
      else (fs1, inr temp_dir)
  end.

(** [create_session_debug_marker]: opening the file for writing needs the
    session directory and fails on a directory of that name. *)
Definition create_session_debug_marker (now session_id reason : str)
    (fs : gmap path node) : gmap path node * (exn + path) :=
  let temp_dir := PosixPath.truediv temp_root session_id in
  let debug_file := temp_dir ++ [py ".debug"] in
  match fs !! temp_dir, fs !! debug_file with
  | Some Dir, Some Dir => (fs, inl (py "IsADirectoryError"))
  | Some Dir, _ =>
      match write_lines
              [ py "Debug marker created: " ++ now ++ [10];
                py "Reason: " ++ reason ++ [10];
                py "Delete this file to allow automatic cleanup" ++ [10] ] with
      | (octets, Some e) => (<[debug_file := File octets]> fs, inl e)
      | (octets, None) => (<[debug_file := File octets]> fs, inr debug_file)
      end
  | Some (File _), _ => (fs, inl (py "NotADirectoryError"))
  | None, _ => (fs, inl (py "FileNotFoundError"))
  end.

End Sessions.

Lemma mkdir_fold_lookup (l : list path) (fs : gmap path node) (q : path) :
  fold_right (fun q acc => match acc !! q with
                           | None => <[q := Dir]> acc
                           | Some _ => acc
                           end) fs l !! q
  = match fs !! q with
    | Some x => Some x
    | None => if bool_decide (q ∈ l) then Some Dir else None
    end.
Proof.
  induction l as [|a l IH]; simpl.
  - destruct (fs !! q); reflexivity.
  - set (acc := fold_right _ fs l) in *.
    destruct (decide (q = a)) as [Heq|Hne].
    + subst q. rewrite (bool_decide_eq_true_2 (a ∈ a :: l)) by left.
      destruct (acc !! a) as [x|] eqn:Ha.
      * rewrite Ha. destruct (fs !! a); [congruence|].
        destruct (bool_decide (a ∈ l)); congruence.
      * rewrite lookup_insert_eq. destruct (fs !! a); [discriminate IH | reflexivity].
    + assert (Hl : bool_decide (q ∈ a :: l) = bool_decide (q ∈ l)).
      { apply bool_decide_ext. rewrite elem_of_cons. tauto. }
      rewrite Hl, <- IH. destruct (acc !! a); [reflexivity|].
      apply lookup_insert_ne. congruence.
Qed.

Lemma elem_of_ancestors_self (p : path) : p ∈ ancestors p.
Proof.
  unfold ancestors. destruct p as [|x p]; [left|].
  apply list_elem_of_In, in_map_iff.
  exists (List.length (x :: p)). split; [apply take_ge; lia|].
  apply in_seq. simpl. lia.
Qed.

Lemma elem_of_ancestors_prefix (p q : path) : q ∈ ancestors p -> q `prefix_of` p.
Proof.
  unfold ancestors. destruct p as [|x p].
  - intros H. apply list_elem_of_singleton in H as ->. reflexivity.
  - intros H. apply list_elem_of_In, in_map_iff in H as (n & <- & _).
    exists (drop n (x :: p)). symmetry. apply take_drop.
Qed.

Lemma mkdir_parents_spec (fs fs1 : gmap path node) (p : path) :
  mkdir_parents fs p = inr fs1 ->
  fs1 !! p = Some Dir
  /\ (forall q, is_Some (fs !! q) -> fs1 !! q = fs !! q)
  /\ (forall q, fs !! q = None -> is_Some (fs1 !! q) -> q `prefix_of` p).
Proof.
  unfold mkdir_parents.
  destruct (existsb (is_file fs) (ancestors p)) eqn:Hfile; [discriminate|].
  intros [= <-]. repeat split.
  - rewrite mkdir_fold_lookup.
    rewrite (bool_decide_eq_true_2 _ (elem_of_ancestors_self p)).
    destruct (fs !! p) as [[data|]|] eqn:E; try reflexivity.
    exfalso. apply not_true_iff_false in Hfile. apply Hfile.
    apply existsb_exists. exists p. split.
    + apply list_elem_of_In, elem_of_ancestors_self.
    + unfold is_file. rewrite E. reflexivity.
  - intros q [x Hx]. rewrite mkdir_fold_lookup, Hx. reflexivity.
  - intros q Hq. rewrite mkdir_fold_lookup, Hq. case_bool_decide as Hin.
    + intros _. apply elem_of_ancestors_prefix, Hin.
    + intros [x Hx]. discriminate Hx.
Qed.

Section SessionFacts.

Variable temp_root : path.
Variable path_text : path -> str.

Lemma child_not_self (dir : path) (name : str) : dir ++ [name] <> dir.
Proof.
  intros H. apply (f_equal (@List.length str)) in H.
  rewrite !length_app in H. simpl in H. lia.
Qed.

Lemma get_session_temp_dir_spec (now session_id : str)
    (fs fs' : gmap path node) (dir : path) :
  get_session_temp_dir temp_root path_text now session_id fs = (fs', inr dir) ->
  let temp_dir := PosixPath.truediv temp_root session_id in
  let manifest_file := temp_dir ++ [py "session_manifest.txt"] in
  dir = temp_dir
  /\ fs' !! temp_dir = Some Dir
  /\ is_Some (fs' !! manifest_file)
  /\ (forall q, is_Some (fs !! q) -> fs' !! q = fs !! q)
  /\ (forall q, fs !! q = None -> is_Some (fs' !! q) -> q `prefix_of` manifest_file).
Proof.
  intros Hrun temp_dir manifest_file. unfold get_session_temp_dir in Hrun.
  fold temp_dir manifest_file in Hrun.
  destruct (mkdir_parents fs temp_dir) as [e|fs1] eqn:Hmk; [discriminate|].
  destruct (mkdir_parents_spec _ _ _ Hmk) as (Hdir & Hkeep & Hnew).
  assert (Hne : manifest_file <> temp_dir) by apply child_not_self.
  assert (Hpre : forall q, q `prefix_of` temp_dir -> q `prefix_of` manifest_file).
  { intros q Hq. etrans; [exact Hq | apply prefix_app_r; reflexivity]. }
  unfold exists_ in Hrun. case_bool_decide as Hex; cbn [negb] in Hrun.
  - injection Hrun as <- <-.
    split; [reflexivity|]. split; [exact Hdir|]. split; [exact Hex|].
    split; [exact Hkeep|]. intros q Hq Hs. apply Hpre, Hnew; assumption.
  - destruct (write_lines _) as [octets [e|]]; [discriminate|].
    injection Hrun as <- <-. repeat split.
    + rewrite lookup_insert_ne by exact Hne. exact Hdir.
    + rewrite lookup_insert_eq. eauto.
    + intros q Hq. destruct (decide (q = manifest_file)) as [->|Hq'].
      * exfalso. apply Hex. rewrite Hkeep by exact Hq. exact Hq.
      * rewrite lookup_insert_ne by congruence. apply Hkeep, Hq.
    + intros q Hq. destruct (decide (q = manifest_file)) as [->|Hq']; [reflexivity|].
      rewrite lookup_insert_ne by congruence. intros H. apply Hpre, Hnew; assumption.
Qed.

(** X19. After [get_session_temp_dir] has returned, the session directory is a
    directory and holds a manifest; nothing that existed before the call was
    changed (an earlier manifest is kept), and what is new lies on the way
    to the manifest. *)
Theorem get_session_temp_dir_creates (now session_id : str)
    (fs fs' : gmap path node) (dir : path) :
  get_session_temp_dir temp_root path_text now session_id fs = (fs', inr dir) ->
  let temp_dir := PosixPath.truediv temp_root session_id in
  let manifest_file := temp_dir ++ [py "session_manifest.txt"] in
  dir = temp_dir
  /\ fs' !! temp_dir = Some Dir
  /\ is_Some (fs' !! manifest_file)
  /\ (forall q, is_Some (fs !! q) -> fs' !! q = fs !! q)
  /\ (forall q, fs !! q = None -> is_Some (fs' !! q) -> q `prefix_of` manifest_file).
Proof. apply get_session_temp_dir_spec. Qed.

(** X20. Asking again for the directory of a session that has one changes
    nothing, whatever the time of the second call. *)
Theorem get_session_temp_dir_again (now now' session_id : str)
    (fs fs' : gmap path node) (dir : path) :
  get_session_temp_dir temp_root path_text now session_id fs = (fs', inr dir) ->
  get_session_temp_dir temp_root path_text now' session_id fs' = (fs', inr dir).
Proof.
  intros Hrun.
  destruct (get_session_temp_dir_spec _ _ _ _ _ Hrun) as (-> & Hdir & Hman & _ & _).
  unfold get_session_temp_dir.
  set (temp_dir := PosixPath.truediv temp_root session_id) in *.
  assert (Hmk : mkdir_parents fs' temp_dir = inr fs').
  { clear Hman. unfold get_session_temp_dir in Hrun. fold temp_dir in Hrun.
    destruct (mkdir_parents fs temp_dir) as [e|fs1] eqn:Hmk1; [discriminate|].
    assert (Hfs1 : forall q, q ∈ ancestors temp_dir -> fs1 !! q = Some Dir).
    { intros q Hq. unfold mkdir_parents in Hmk1.
      destruct (existsb (is_file fs) (ancestors temp_dir)) eqn:Hfile; [discriminate|].
      injection Hmk1 as <-. rewrite mkdir_fold_lookup, (bool_decide_eq_true_2 _ Hq).
      destruct (fs !! q) as [[data|]|] eqn:E; try reflexivity.
      exfalso. apply not_true_iff_false in Hfile. apply Hfile, existsb_exists.
      exists q. split; [apply list_elem_of_In, Hq | unfold is_file; rewrite E; reflexivity]. }
    assert (Hfs' : forall q, q ∈ ancestors temp_dir -> fs' !! q = Some Dir).
    { intros q Hq.
      assert (Hqm : q <> temp_dir ++ [py "session_manifest.txt"]).
      { intros ->. apply elem_of_ancestors_prefix in Hq.
        apply prefix_length in Hq. rewrite length_app in Hq. simpl in Hq. lia. }
      destruct (negb (exists_ fs1 _)); [|injection Hrun as <-; apply Hfs1, Hq].
      destruct (write_lines _) as [octets [e|]]; [discriminate|].
      injection Hrun as <-. rewrite lookup_insert_ne by congruence. apply Hfs1, Hq. }
    unfold mkdir_parents.
    assert (Hnofile : existsb (is_file fs') (ancestors temp_dir) = false).
    { apply not_true_iff_false. intros H. apply existsb_exists in H as (q & Hq & Hf).
      apply list_elem_of_In in Hq. unfold is_file in Hf. rewrite (Hfs' q Hq) in Hf.
      discriminate. }
    rewrite Hnofile. f_equal. apply map_eq. intros q. rewrite mkdir_fold_lookup.
    destruct (fs' !! q) eqn:E; [reflexivity|].
    case_bool_decide as Hq; [|reflexivity]. rewrite (Hfs' q Hq) in E. discriminate. }
  rewrite Hmk. unfold exists_. rewrite bool_decide_eq_true_2 by exact Hman. reflexivity.
Qed.

End SessionFacts.

Lemma elem_of_rglob_debug (fs : gmap path node) (dir p : path) :
  p ∈ rglob_debug fs dir <->
  is_Some (fs !! p) /\ dir `prefix_of` p /\ p <> dir
  /\ endswith (py ".debug") (List.last p []) = true.
Proof.
  unfold rglob_debug.
  rewrite list_elem_of_In, filter_In, <- list_elem_of_In, elem_of_elements, elem_of_dom.
  rewrite !andb_true_iff, negb_true_iff, bool_decide_eq_true, bool_decide_eq_false.
  tauto.
Qed.

Lemma marker_present_iff (fs : gmap path node) (dir : path) :
  marker_present fs dir = true <-> exists p, p ∈ rglob_debug fs dir.
Proof.
  unfold marker_present. destruct (rglob_debug fs dir) as [|p l].
  - split; [discriminate|]. intros (p & Hp). inversion Hp.
  - split; [|reflexivity]. intros _. exists p. left.
Qed.

Section MarkerFacts.

Variable temp_root : path.
Variable path_text : path -> str.

Lemma create_marker_spec (now session_id reason : str) (fs fs' : gmap path node)
    (file : path) :
  create_session_debug_marker temp_root now session_id reason fs = (fs', inr file) ->
  file = PosixPath.truediv temp_root session_id ++ [py ".debug"]
  /\ fs !! PosixPath.truediv temp_root session_id = Some Dir
  /\ exists octets, fs' = <[file := File octets]> fs.
Proof.
  unfold create_session_debug_marker.
  destruct (fs !! PosixPath.truediv temp_root session_id) as [[data|]|] eqn:Hdir;
    try discriminate.
  destruct (fs !! (PosixPath.truediv temp_root session_id ++ [py ".debug"]))
    as [[data|]|];
    try discriminate;
    (destruct (write_lines _) as [octets [e|]]; [discriminate|]);
    intros [= <- <-]; eauto.
Qed.

(** X21. A marker written by [create_session_debug_marker] stops every later
    cleanup that is not forced, whatever fails during it: no entry is
    removed, and the marker and every entry other than the manifest are as
    they were. *)
Theorem marker_blocks_cleanup (now session_id reason : str) (fs fs' : gmap path node)
    (file : path) (faults : Faults) (now' : str) (l : list (LogLevel * LogMessage)) :
  create_session_debug_marker temp_root now session_id reason fs = (fs', inr file) ->
  let w' := (cleanup_session_temp_dir temp_root faults now' session_id false
               {| fs := fs'; log := l |}).1 in
  dom (Core.fs w') = dom fs'
  /\ is_Some (Core.fs w' !! file)
  /\ forall p, p <> PosixPath.truediv temp_root session_id ++ [py "session_manifest.txt"] ->
               Core.fs w' !! p = fs' !! p.
Proof.
  intros Hmark w'. subst w'.
  destruct (create_marker_spec _ _ _ _ _ _ Hmark) as (Hfile' & Hdir & octets & Hfs').
  set (temp_dir := PosixPath.truediv temp_root session_id) in *.
  assert (Hlook : fs' !! file = Some (File octets)).
  { rewrite Hfs'. apply lookup_insert_eq. }
  assert (Hmarker : forall fsx, dom fsx = dom fs' -> exists p l', rglob_debug fsx temp_dir = p :: l').
  { intros fsx Hdom. rewrite (rglob_debug_dom _ _ _ Hdom).
    assert (Hin : file ∈ rglob_debug fs' temp_dir).
    { apply elem_of_rglob_debug. split; [rewrite Hlook; eauto|].
      split; [rewrite Hfile'; apply prefix_app_r; reflexivity|].
      split.
      - rewrite Hfile'. intros H. apply (f_equal (@List.length str)) in H.
        rewrite length_app in H. simpl in H. lia.
      - rewrite Hfile', last_last. apply bool_decide_eq_true. reflexivity. }
    destruct (rglob_debug fs' temp_dir) as [|p l']; [inversion Hin | eauto]. }
  assert (Hfm : file <> temp_dir ++ [py "session_manifest.txt"]).
  { rewrite Hfile'. intros H. apply app_inj_tail in H as [_ H]. discriminate H. }
  unfold cleanup_session_temp_dir. fold temp_dir. cbn [Core.fs Core.log].
  destruct (exists_fails faults); [cbn; rewrite Hlook; eauto|].
  destruct (exists_ fs' temp_dir); [|cbn; rewrite Hlook; eauto].
  cbn [fst]. unfold cleanup_try. cbn [Core.fs Core.log].
  destruct (update_manifest faults now' temp_dir fs') as [e|fs1] eqn:Hup.
  { cbn. rewrite Hlook. eauto. }
  destruct (update_manifest_keeps _ _ _ _ _ Hup) as [Hdom Hsame].
  cbn [negb].
  destruct (rglob_fails faults); cbn.
  { split; [exact Hdom|]. split; [rewrite Hsame, Hlook by exact Hfm; eauto | exact Hsame]. }
  destruct (Hmarker fs1 Hdom) as (p & l' & ->). cbn.
  split; [exact Hdom|]. split; [rewrite Hsame, Hlook by exact Hfm; eauto | exact Hsame].
Qed.

(** X22. For a session id that is a relative path without a part [..]: a
    session directory that [get_session_temp_dir] made where nothing was is
    removed whole by the first cleanup, with the manifest, and nothing is
    raised; what the call left outside the directory stays. *)
Theorem fresh_session_is_removed (now now' session_id : str) (fs fs1 : gmap path node)
    (dir : path) (l : list (LogLevel * LogMessage)) :
  PosixPath.descends session_id ->
  get_session_temp_dir temp_root path_text now session_id fs = (fs1, inr dir) ->
  (forall p, (temp_root ++ PosixPath.parts session_id) `prefix_of` p -> fs !! p = None) ->
  Forall (fun c => 0 <= c < 128) now' ->
  let out := cleanup_session_temp_dir temp_root no_faults now' session_id false
               {| fs := fs1; log := l |} in
  dir = temp_root ++ PosixPath.parts session_id
  /\ (forall p, dir `prefix_of` p -> Core.fs out.1 !! p = None)
  /\ (forall p, ~ dir `prefix_of` p -> Core.fs out.1 !! p = fs1 !! p)
  /\ out.2 = None.
Proof.
  intros [Hrel _] Hrun Hfresh Hnow out. subst out.
  assert (Hjoin : PosixPath.truediv temp_root session_id
                  = temp_root ++ PosixPath.parts session_id).
  { unfold PosixPath.truediv. rewrite Hrel. reflexivity. }
  rewrite <- Hjoin in *.
  destruct (get_session_temp_dir_spec _ _ _ _ _ _ _ Hrun)
    as (-> & Hdir & Hman & Hkeep & Hnew).
  set (temp_dir := PosixPath.truediv temp_root session_id) in *.
  set (manifest_file := temp_dir ++ [py "session_manifest.txt"]) in *.
  assert (Hfile : exists octets, fs1 !! manifest_file = Some (File octets)).
  { unfold get_session_temp_dir in Hrun. fold temp_dir manifest_file in Hrun.
    destruct (mkdir_parents fs temp_dir) as [e|fs0] eqn:Hmk; [discriminate|].
    destruct (mkdir_parents_spec _ _ _ Hmk) as (_ & _ & Hnew0).
    assert (Hnone : fs0 !! manifest_file = None).
    { destruct (fs0 !! manifest_file) eqn:E; [|reflexivity]. exfalso.
      assert (Hp : manifest_file `prefix_of` temp_dir).
      { apply Hnew0; [apply Hfresh, prefix_app_r; reflexivity | rewrite E; eauto]. }
      apply prefix_length in Hp. unfold manifest_file in Hp.
      rewrite length_app in Hp. simpl in Hp. lia. }
    unfold exists_ in Hrun. rewrite Hnone in Hrun.
    rewrite bool_decide_eq_false_2 in Hrun by (intros [x Hx]; discriminate Hx).
    cbn [negb] in Hrun. destruct (write_lines _) as [octets [e|]]; [discriminate|].
    injection Hrun as <-. exists octets. apply lookup_insert_eq. }
  destruct Hfile as (octets & Hfile).
  assert (Henc : exists o, IsoHandler.utf8_encode ([10] ++ py "Cleaned up: " ++ now' ++ [10])
                           = Some o).
  { eexists. apply IsoHandler.utf8_encode_ascii.
    apply Forall_app. split; [repeat constructor; lia|].
    apply Forall_app. split.
    - apply Forall_forall. intros x Hx. vm_compute in Hx.
      repeat (apply elem_of_cons in Hx as [->|Hx]; [lia|]). inversion Hx.
    - apply Forall_app. split; [exact Hnow | repeat constructor; lia]. }
  destruct Henc as (o & Henc).
  assert (Hup : update_manifest no_faults now' temp_dir fs1
                = inr (<[manifest_file := File (octets ++ o)]> fs1)).
  { unfold update_manifest, exists_, append_text. fold manifest_file.
    cbn [manifest_exists_fails no_faults].
    rewrite bool_decide_eq_true_2 by (rewrite Hfile; eauto).
    cbn [append_fails no_faults]. rewrite Hfile, Henc. reflexivity. }
  assert (Hnomark : marker_present fs1 temp_dir = false).
  { apply not_true_iff_false. intros H. apply marker_present_iff in H as (p & Hp).
    apply elem_of_rglob_debug in Hp as (Hsome & Hpre & Hne & Hend).
    assert (Hpm : p `prefix_of` manifest_file).
    { apply Hnew; [apply Hfresh, Hpre | exact Hsome]. }
    assert (Hcase : p = temp_dir \/ p = manifest_file).
    { destruct Hpre as [k ->]. destruct Hpm as [k' Hk'].
      unfold manifest_file in Hk'. rewrite <- app_assoc in Hk'.
      apply app_inv_head in Hk'. destruct k as [|x k]; [left; apply app_nil_r|].
      right. injection Hk' as <- Hk'. destruct k; [reflexivity | discriminate Hk']. }
    destruct Hcase as [->| ->]; [contradiction|].
    unfold manifest_file in Hend. rewrite last_last in Hend. vm_compute in Hend.
    discriminate Hend. }
  pose proof (cleanup_removes temp_root no_faults now' session_id false
                {| fs := fs1; log := l |} _ eq_refl
                (bool_decide_eq_true_2 _ (ex_intro _ Dir Hdir) : exists_ fs1 temp_dir = true)
                Hup eq_refl eq_refl (or_intror Hnomark)) as (H1 & H2 & _ & H3).
  split; [reflexivity|]. split; [exact H1|]. split; [exact H2 | exact H3].
Qed.

End MarkerFacts.

(** X18. The cleanup removes the session directory exactly when it is forced or
    finds no marker, provided nothing fails: afterwards the directory and
    all it held are gone in that case, and every entry is still there in the
    other. *)
Theorem cleanup_deletion_policy (temp_root : path) (now session_id : str) (force : bool)
    (w : World) (fs1 : gmap path node) :
  let temp_dir := PosixPath.truediv temp_root session_id in
  exists_ (fs w) temp_dir = true ->
  update_manifest no_faults now temp_dir (fs w) = inr fs1 ->
  let w' := (cleanup_session_temp_dir temp_root no_faults now session_id force w).1 in
  if force || negb (marker_present (fs w) temp_dir)
  then forall p, temp_dir `prefix_of` p -> fs w' !! p = None
  else dom (fs w') = dom (fs w) /\ exists_ (fs w') temp_dir = true.
Proof.
  intros temp_dir Hex Hup w'. subst w'.
  destruct (force || negb (marker_present (fs w) temp_dir)) eqn:Hcase.
  - apply (cleanup_removes temp_root no_faults now session_id force w fs1 eq_refl Hex Hup
             eq_refl eq_refl).
    apply orb_true_iff in Hcase as [H|H]; [left; exact H|].
    right. apply negb_true_iff, H.
  - apply orb_false_iff in Hcase as [-> Hm]. apply negb_false_iff in Hm.
    destruct (cleanup_skips temp_root no_faults now session_id w fs1 eq_refl Hex Hup
                eq_refl Hm)
      as (_ & Hdom & _).
    split; [exact Hdom|]. unfold exists_ in *.
    apply bool_decide_eq_true. apply bool_decide_eq_true in Hex.
    apply elem_of_dom. rewrite Hdom. apply elem_of_dom. exact Hex.
Qed.

Lemma cleanup_deletion_policy_witness :
  dom (fs demo_after) = dom (fs demo_world)
  /\ exists_ (fs demo_after) [py "temp"; py "session_1"] = true.
Proof.
  exact (cleanup_deletion_policy [py "temp"] (py "2025-01-01T00:00:00") (py "session_1")
           false demo_world
           (<[ [py "temp"; py "session_1"; py "session_manifest.txt"]
                 := File (py "Session ID: session_1" ++ [10]
                          ++ py "Cleaned up: 2025-01-01T00:00:00" ++ [10]) ]>
              (fs demo_world))
           eq_refl eq_refl).
Defined.

(** *** Two sessions side by side *)

(** [str(path)] on a POSIX platform. *)
Definition demo_path_text (p : path) : str :=
  match p with
  | [] => py "."
  | x :: rest =>
      if PosixPath.is_root x then
        match rest with
        | [] => x
        | y :: more => x ++ y ++ flat_map (fun z => 47 :: z) more
        end
      else x ++ flat_map (fun y => 47 :: y) rest
  end.

Definition demo_sessions : World :=
  {| fs := <[ [py "temp"; py "session_2"] := Dir ]>
           (<[ [py "temp"; py "session_2"; py "sample.dll"] := File [77; 90] ]>
              (fs demo_world));
     log := [] |}.

Lemma descends_session (n : string) :
  PosixPath.root (py n) = None ->
  bool_decide (py ".." ∉ PosixPath.parts (py n)) = true ->
  PosixPath.descends (py n).
Proof. intros H1 H2. split; [exact H1 | exact (bool_decide_eq_true_1 _ H2)]. Qed.

Lemma cleanup_leaves_outside_witness :
  fs (cleanup_session_temp_dir [py "temp"] no_faults (py "2025-01-01T00:00:00")
        (py "session_1") true demo_sessions).1
    !! [py "temp"; py "session_2"; py "sample.dll"]
  = Some (File [77; 90]).
Proof.
  rewrite (cleanup_leaves_outside [py "temp"] no_faults (py "2025-01-01T00:00:00")
             (py "session_1") true demo_sessions
             [py "temp"; py "session_2"; py "sample.dll"]).
  - reflexivity.
  - apply descends_session; reflexivity.
  - intros [k Hk]. discriminate Hk.
Defined.

(** With the empty id the session directory is the temp root: a forced
    cleanup removes the other sessions with it. *)
Example cleanup_empty_id_removes_temp_root :
  fs (cleanup_session_temp_dir [py "temp"] no_faults (py "2025-01-01T00:00:00")
        [] true
        {| fs := <[ [py "temp"] := Dir ]> (fs demo_sessions); log := [] |}).1
    !! [py "temp"; py "session_2"; py "sample.dll"]
  = None.
Proof. vm_compute. reflexivity. Qed.

(** An id with a slash names a directory two levels below the temp root. *)
Example cleanup_nested_id :
  fs (cleanup_session_temp_dir [py "temp"] no_faults (py "2025-01-01T00:00:00")
        (py "session_2/sub") true
        {| fs := <[ [py "temp"; py "session_2"; py "sub"] := Dir ]> (fs demo_sessions);
           log := [] |}).1
  = fs demo_sessions.
Proof. apply map_eq. intros p. vm_compute. reflexivity. Qed.

Definition demo_created : gmap path node :=
  fst (get_session_temp_dir [py "temp"] demo_path_text (py "2025-01-01T00:00:00")
         (py "session_3") (fs demo_world)).

Lemma get_session_temp_dir_creates_witness :
  demo_created !! [py "temp"; py "session_3"] = Some Dir
  /\ is_Some (demo_created !! [py "temp"; py "session_3"; py "session_manifest.txt"]).
Proof.
  destruct (get_session_temp_dir_creates [py "temp"] demo_path_text
              (py "2025-01-01T00:00:00") (py "session_3") (fs demo_world) demo_created
              [py "temp"; py "session_3"] eq_refl) as (_ & Hdir & Hman & _).
  split; [exact Hdir | exact Hman].
Defined.

Lemma get_session_temp_dir_again_witness :
  get_session_temp_dir [py "temp"] demo_path_text (py "2025-06-30T12:00:00")
    (py "session_3") demo_created
  = (demo_created, inr [py "temp"; py "session_3"]).
Proof.
  exact (get_session_temp_dir_again [py "temp"] demo_path_text
           (py "2025-01-01T00:00:00") (py "2025-06-30T12:00:00") (py "session_3")
           (fs demo_world) demo_created [py "temp"; py "session_3"] eq_refl).
Defined.

Definition demo_marked : gmap path node :=
  fst (create_session_debug_marker [py "temp"] (py "2025-01-01T00:00:01")
         (py "session_3") (py "Processing failed: boom") demo_created).

Lemma marker_blocks_cleanup_witness :
  is_Some (fs (cleanup_session_temp_dir [py "temp"] no_faults (py "2025-01-01T00:00:02")
                 (py "session_3") false {| fs := demo_marked; log := [] |}).1
             !! [py "temp"; py "session_3"; py ".debug"]).
Proof.
  destruct (marker_blocks_cleanup [py "temp"] (py "2025-01-01T00:00:01") (py "session_3")
              (py "Processing failed: boom") demo_created demo_marked
              [py "temp"; py "session_3"; py ".debug"] no_faults
              (py "2025-01-01T00:00:02") [] eq_refl) as (_ & Hfile & _).
  exact Hfile.
Defined.

Lemma fresh_session_is_removed_witness :
  fs (cleanup_session_temp_dir [py "temp"] no_faults (py "2025-01-01T00:00:02")
        (py "session_3") false {| fs := demo_created; log := [] |}).1
    !! [py "temp"; py "session_3"; py "session_manifest.txt"] = None.
Proof.
  destruct (fresh_session_is_removed [py "temp"] demo_path_text
              (py "2025-01-01T00:00:00") (py "2025-01-01T00:00:02") (py "session_3")
              (fs demo_world) demo_created [py "temp"; py "session_3"] [])
    as (_ & Hgone & _).
  - apply descends_session; reflexivity.
  - reflexivity.
  - intros p [k ->]. unfold demo_world. cbn [fs].
    rewrite !lookup_insert_ne by (intros H; vm_compute in H; discriminate H).
    apply lookup_empty.
  - apply Forall_forall. intros c Hc. vm_compute in Hc.
    repeat (apply elem_of_cons in Hc as [->|Hc]; [lia|]). inversion Hc.
  - apply Hgone. exists [py "session_manifest.txt"]. reflexivity.
Defined.

End Sessions.

(** ** processor.py *)

Module Processor.
Import Sessions.

Section ProcessSample.
Context {PL : PathLib}.

(** [config.temp_dir] *)
Variable temp_root : Core.path.

(** The handler of [process_sample]: a marker is attempted, whatever that
    attempt raises is dropped, and the exception is raised again. *)
Definition on_exception (now session_id : str) (e : exn) (w : Core.World)
    : Core.World * option exn :=
  let (fs', _) :=
    create_session_debug_marker temp_root now session_id
      (py "Exception during processing: " ++ e) (Core.fs w) in
  ({| Core.fs := fs'; Core.log := Core.log w |}, Some e).

(** A marker written inside the [try] block; its exception goes to the
    handler. *)
Definition keep_session (now session_id reason : str) (w : Core.World)
    : Core.World * option exn :=
  match create_session_debug_marker temp_root now session_id reason (Core.fs w) with
  | (fs', inr _) => ({| Core.fs := fs'; Core.log := Core.log w |}, None)
  | (fs', inl e) =>
      on_exception now session_id e {| Core.fs := fs'; Core.log := Core.log w |}
  end.

(** [GrandoreiroProcessor.process_sample] from the return of
    [pipeline.execute] on: [metadata] is what the pipeline returned, [save]
    the exception raised by saving the results and printing the report, if
    any, [now] the time text of the marker.  The world after the call and the
    exception raised, if any.  An exception that leaves the cleanup goes to
    the handler like every other.  The records of the processor's own logger
    are left out. *)
Definition process_sample_finish (faults : Core.Faults) (now : str) (keep_temp : bool)
    (session_id : str) (metadata : Pipeline.SampleMetadata) (save : option exn)
    (w : Core.World) : Core.World * option exn :=
  match save with
  | Some e => on_exception now session_id e w
  | None =>
      if keep_temp then
        keep_session now session_id (py "keep_temp=True specified") w
      else
        let successful_stages :=
          List.length (List.filter Pipeline.success (Pipeline.stages metadata)) in
        let total_stages := List.length (Pipeline.stages metadata) in
        if (successful_stages =? total_stages)%nat then
          match Core.cleanup_session_temp_dir temp_root faults now session_id false w with
          | (w', None) => (w', None)
          | (w', Some e) => on_exception now session_id e w'
          end
        else
          keep_session now session_id
            (py "Analysis failed: " ++ Pipeline.str_of_int (Z.of_nat successful_stages)
             ++ py "/" ++ Pipeline.str_of_int (Z.of_nat total_stages)
             ++ py " stages successful") w
  end.

Lemma all_successful (l : list Pipeline.StageResult) :
  (List.length (List.filter Pipeline.success l) =? List.length l)%nat = true
  <-> Forall (fun r => Pipeline.success r = true) l.
Proof.
  rewrite Nat.eqb_eq. induction l as [|r l IH]; simpl.
  - split; [constructor | reflexivity].
  - pose proof (filter_length_le Pipeline.success l) as Hle.
    destruct (Pipeline.success r) eqn:Hr; simpl.
    + split.
      * intros H. constructor; [exact Hr | apply IH; lia].
      * intros H. apply Forall_cons_1 in H as [_ H]. apply IH in H. lia.
    + split; [lia|]. intros H. apply Forall_cons_1 in H as [H _]. congruence.
Qed.



(** X24. When every recorded stage succeeded, the caller did not ask to keep the
    files, saving raised nothing and nothing fails in the cleanup: the
    session directory is removed with all it held unless it holds a marker,
    and nothing is raised. *)
Theorem process_sample_cleans (now session_id : str)
    (metadata : Pipeline.SampleMetadata) (w : Core.World) (fs1 : gmap Core.path Core.node) :
  let temp_dir := PosixPath.truediv temp_root session_id in
  Forall (fun r => Pipeline.success r = true) (Pipeline.stages metadata) ->
  Core.exists_ (Core.fs w) temp_dir = true ->
  Core.update_manifest Core.no_faults now temp_dir (Core.fs w) = inr fs1 ->
  Core.marker_present (Core.fs w) temp_dir = false ->
  let out := process_sample_finish Core.no_faults now false session_id metadata None w in
  out.2 = None
  /\ (forall p, temp_dir `prefix_of` p -> Core.fs out.1 !! p = None)
  /\ (forall p, ~ temp_dir `prefix_of` p -> Core.fs out.1 !! p = Core.fs w !! p).
Proof.
  intros temp_dir Hall Hex Hup Hm out. subst out. unfold process_sample_finish.
  rewrite (proj2 (all_successful _) Hall). cbn [fst snd].
  destruct (Core.cleanup_removes temp_root Core.no_faults now session_id false w fs1
              eq_refl Hex Hup eq_refl eq_refl (or_intror Hm)) as (H1 & H2 & _ & H3).
  fold temp_dir in H1, H2.
  destruct (Core.cleanup_session_temp_dir temp_root Core.no_faults now session_id false w)
    as [w' [e|]]; [discriminate H3|].
  auto.
Qed.

End ProcessSample.

End Processor.

Module ProcessorDemo.
Import Pipeline Core Sessions Processor.


(** Both stages succeeded: the session directory is gone. *)
Lemma process_sample_cleans_witness :
  fs (process_sample_finish (PL := ListPath) [py "temp"] no_faults
        (py "2025-01-01T00:00:02") false (py "session_3")
        (AnalysisPipeline_execute demo_format [demo_A; demo_C] 7 demo_context)
        None {| fs := demo_created; log := [] |}).1
    !! [py "temp"; py "session_3"] = None.
Proof.
  destruct (process_sample_cleans (PL := ListPath) [py "temp"]
              (py "2025-01-01T00:00:02") (py "session_3")
              (AnalysisPipeline_execute demo_format [demo_A; demo_C] 7 demo_context)
              {| fs := demo_created; log := [] |}
              (<[ [py "temp"; py "session_3"; py "session_manifest.txt"]
                    := File (match demo_created
                                   !! [py "temp"; py "session_3"; py "session_manifest.txt"] with
                             | Some (File octets) => octets
                             | _ => []
                             end
                             ++ [10] ++ py "Cleaned up: 2025-01-01T00:00:02" ++ [10]) ]>
                 demo_created)) as (_ & Hgone & _).
  - repeat (apply Forall_cons_2; [reflexivity|]). apply Forall_nil_2.
  - reflexivity.
  - reflexivity.
  - reflexivity.
  - apply Hgone; exists []; reflexivity.
Defined.

End ProcessorDemo.

(** ** extractor.py, the installer script pattern and extract_msi *)

Module Installer.
Import Extractor.

(** *** The pattern finds every signature action *)

Section SignatureSearch.

Variable ci_eq : Z -> Z -> bool.

(** X25. A script that holds, anywhere, a text of the shape the pattern
    describes yields at least one key: the literal [<CustomAction], characters
    other than [>], [BinaryKey=] and a double-quoted key, characters other
    than [>], and [DllEntry=] with the double-quoted name [VIPS0033939], in
    this order and with case ignored. *)
Theorem findall_complete (content before text after key : str) :
  signature_action ci_eq key text ->
  content = before ++ text ++ after ->
  findall ci_eq content <> [].
Proof. apply findall_nonempty. Qed.

End SignatureSearch.

Lemma findall_complete_witness :
  findall ascii_ci_eq
    (py "<Wix>" ++ wxs "<customaction Id='b' binarykey='K.dll' dllentry='vips0033939'" ++ py "/>")
  <> [].
Proof.
  apply (findall_complete ascii_ci_eq _ (py "<Wix>")
           (wxs "<customaction Id='b' binarykey='K.dll' dllentry='vips0033939'")
           (py "/>") (py "K.dll")); [|reflexivity].
  exists (py "<customaction"), (py " Id=" ++ dquote ++ py "b" ++ dquote ++ py " "),
    (wxs "binarykey='"), dquote, (py " "), (wxs "dllentry='vips0033939'").
  split; [reflexivity|].
  split; [repeat (apply Forall2_cons_2; [reflexivity|]); constructor|].
  split; [apply Forall_forall; intros x Hx; vm_compute in Hx;
          repeat (apply elem_of_cons in Hx as [->|Hx]; [discriminate|]); inversion Hx|].
  split; [repeat (apply Forall2_cons_2; [reflexivity|]); constructor|].
  split; [discriminate|].
  split; [apply Forall_forall; intros x Hx; vm_compute in Hx;
          repeat (apply elem_of_cons in Hx as [->|Hx]; [discriminate|]); inversion Hx|].
  split; [repeat (apply Forall2_cons_2; [reflexivity|]); constructor|].
  split; [apply Forall_forall; intros x Hx; vm_compute in Hx;
          repeat (apply elem_of_cons in Hx as [->|Hx]; [discriminate|]); inversion Hx|].
  repeat (apply Forall2_cons_2; [reflexivity|]); constructor.
Defined.

(** *** extract_msi *)

(** [subprocess.CompletedProcess] *)
Record CompletedProcess := mkCompletedProcess {
  returncode : Z;
  stdout : str;
  stderr : str;
}.

Inductive msi_error :=
  | DarkNotFound                                        (* [FileNotFoundError] *)
  | SetupFailed (e : exn)                               (* directories, write test *)
  | CalledProcessError (returncode : Z) (cmd : list str)
  | RunFailed (e : exn).                                (* raised by [subprocess.run] *)

Section ExtractMsi.

(** [str.lower], from the Unicode tables of the language. *)
Variable lower : str -> str.

(** The test on [stderr] that sends the tool for a second run. *)
Definition access_denied (stderr : str) : bool :=
  contains (py "Acceso denegado") stderr
  || contains (py "Access denied") stderr
  || contains (py "denied") (lower stderr).

(** [FileExtractor.extract_msi].  [dark_exists] is [self.dark_path] being set
    and present, [setup] the exception raised while the two directories are
    made and tested for writing, if any, [run] what [subprocess.run] gives
    for a command, [extracted_files] the listing of the output directory,
    the four texts the resolved paths of the command.  The commands run, in
    order, and the exception raised, if any. *)
Definition extract_msi (dark_exists : bool) (setup : option exn)
    (run : list str -> exn + CompletedProcess) (extracted_files : list str)
    (abs_dark_path abs_msi_path abs_extract_dir script_file : str)
    : list (list str) * (msi_error + unit) :=
  if negb dark_exists then ([], inl DarkNotFound)
  else
    match setup with
    | Some e => ([], inl (SetupFailed e))
    | None =>
        let cmd := [abs_dark_path; abs_msi_path; py "-x"; abs_extract_dir;
                    py "-o"; script_file] in
        match run cmd with
        | inl e => ([cmd], inl (RunFailed e))
        | inr result =>
            let retry :=
              negb (returncode result =? 0) && access_denied (stderr result) in
            let cmd_no_script := [abs_dark_path; abs_msi_path; py "-x"; abs_extract_dir] in
            let cmds := if retry then [cmd; cmd_no_script] else [cmd] in
            match (if retry then run cmd_no_script else inr result) with
            | inl e => (cmds, inl (RunFailed e))
            | inr result =>
                if negb (returncode result =? 0) then
                  if Pipeline.truthy_list extracted_files && (returncode result =? 283)
                  then (cmds, inr tt)
                  else if negb (bool_decide (returncode result ∈ [283]))
                  then (cmds, inl (CalledProcessError (returncode result) cmd))
                  else (cmds, inr tt)
                else (cmds, inr tt)
            end
        end
    end.

(** X26. The listing of the output directory has no part in the outcome. *)
Theorem extract_msi_ignores_listing (dark_exists : bool) (setup : option exn)
    (run : list str -> exn + CompletedProcess) (files files' : list str)
    (abs_dark_path abs_msi_path abs_extract_dir script_file : str) :
  extract_msi dark_exists setup run files abs_dark_path abs_msi_path abs_extract_dir
    script_file
  = extract_msi dark_exists setup run files' abs_dark_path abs_msi_path abs_extract_dir
      script_file.
Proof.
  assert (Htail : forall (r : CompletedProcess) (A : Type) (x y : A),
             (if Pipeline.truthy_list files && (returncode r =? 283) then x
              else if negb (bool_decide (returncode r ∈ [283])) then y else x)
             = (if Pipeline.truthy_list files' && (returncode r =? 283) then x
                else if negb (bool_decide (returncode r ∈ [283])) then y else x)).
  { intros r A x y. destruct (Z.eqb_spec (returncode r) 283) as [H|H].
    - rewrite H, !andb_true_r.
      rewrite (bool_decide_eq_true_2 (283 ∈ [283])) by left. cbn [negb].
      destruct (Pipeline.truthy_list files), (Pipeline.truthy_list files'); reflexivity.
    - rewrite !andb_false_r. reflexivity. }
  unfold extract_msi. destruct dark_exists; cbn [negb]; [|reflexivity].
  destruct setup; [reflexivity|]. destruct (run _) as [e|r1]; [reflexivity|].
  cbv zeta. destruct (negb (returncode r1 =? 0) && _).
  - destruct (run _) as [e|r]; [reflexivity|]. rewrite Htail. reflexivity.
  - rewrite Htail. reflexivity.
Qed.

(** X27. With the tool present and the directories ready: the tool is run once,
    or twice when the first run failed with a denied access, the second time
    without the script output; the call succeeds exactly when the last run
    returned 0 or 283, and the error it raises otherwise names the first
    command. *)
Theorem extract_msi_exit_codes (run : list str -> exn + CompletedProcess)
    (files : list str) (abs_dark_path abs_msi_path abs_extract_dir script_file : str)
    (first : CompletedProcess) :
  let cmd := [abs_dark_path; abs_msi_path; py "-x"; abs_extract_dir;
              py "-o"; script_file] in
  let cmd_no_script := [abs_dark_path; abs_msi_path; py "-x"; abs_extract_dir] in
  run cmd = inr first ->
  let retry := negb (returncode first =? 0) && access_denied (stderr first) in
  forall last,
    (if retry then run cmd_no_script else inr first) = inr last ->
    extract_msi true None run files abs_dark_path abs_msi_path abs_extract_dir script_file
    = (if retry then [cmd; cmd_no_script] else [cmd],
       if (returncode last =? 0) || (returncode last =? 283) then inr tt
       else inl (CalledProcessError (returncode last) cmd)).
Proof.
  intros cmd cmd_no_script Hfirst retry last Hlast. unfold extract_msi. cbn [negb].
  fold cmd cmd_no_script. rewrite Hfirst. cbv zeta. fold retry. rewrite Hlast.
  destruct (Z.eqb_spec (returncode last) 0) as [H0|H0]; cbn [negb orb]; [reflexivity|].
  destruct (Z.eqb_spec (returncode last) 283) as [H|H].
  - rewrite H. rewrite (bool_decide_eq_true_2 (283 ∈ [283])) by left.
    rewrite andb_true_r. cbn [negb]. destruct (Pipeline.truthy_list files); reflexivity.
  - rewrite andb_false_r. rewrite bool_decide_eq_false_2; [reflexivity|].
    intros Hin. apply list_elem_of_singleton in Hin. contradiction.
Qed.

End ExtractMsi.

(** The tool is denied the script file, then returns 283 without it. *)
Definition demo_run (cmd : list str) : exn + CompletedProcess :=
  if bool_decide (py "-o" ∈ cmd)
  then inr (mkCompletedProcess 1 [] (py "dark.exe : error DARK0001 : Access denied"))
  else inr (mkCompletedProcess 283 [] (py "warning DARK1060")).

Lemma extract_msi_exit_codes_witness :
  extract_msi Analyzer.ascii_lower true None demo_run []
    (py "dark.exe") (py "a.msi") (py "out") (py "installer_script.wxs")
  = ([[py "dark.exe"; py "a.msi"; py "-x"; py "out"; py "-o"; py "installer_script.wxs"];
      [py "dark.exe"; py "a.msi"; py "-x"; py "out"]],
     inr tt).
Proof.
  exact (extract_msi_exit_codes Analyzer.ascii_lower demo_run []
           (py "dark.exe") (py "a.msi") (py "out") (py "installer_script.wxs")
           (mkCompletedProcess 1 [] (py "dark.exe : error DARK0001 : Access denied"))
           eq_refl
           (mkCompletedProcess 283 [] (py "warning DARK1060"))
           eq_refl).
Defined.

End Installer.
